(** * deepsea-ai: job lifecycle and resource orchestration

    A shallow embedding of the orchestration layer of deepsea-ai
    ([config/config.py], [commands/upload_tag.py], [commands/process.py])
    and the properties its specification states about it.

    The Python code talks to AWS through boto3/sagemaker clients.  Every
    such call is an operation of the record [AWS], over an abstract world
    [W]: an operation takes the world, answers with a value or a raised
    exception, and hands back the next world.  The functions of the
    source are written in a state-and-exception monad that threads the
    world, the job cache, the logger output, the console and the trace
    of service calls.  [Sim] is one concrete world (an object store, a
    local file system, a queue, a stack listing) used to run the
    functions on concrete inputs. *)

From stdpp Require Import gmap strings list pretty.
From Stdlib Require Import Ascii ZArith QArith Qround Lia.

Local Open Scope Z_scope.
Local Open Scope stdpp_scope.

(** ** Python strings *)

Module PyStr.

(** [s.startswith(p)] *)
Fixpoint startswith (p s : string) : bool :=
  match p, s with
  | EmptyString, _ => true
  | String a p', String b s' => if decide (a = b) then startswith p' s' else false
  | String _ _, EmptyString => false
  end.

(** [sub in s] *)
Fixpoint contains (sub s : string) : bool :=
  startswith sub s ||
  match s with
  | EmptyString => false
  | String _ s' => contains sub s'
  end.

(** [s.split(sep)] for a non-empty [sep]: a left-to-right scan; [skip]
    counts the characters of a separator still to be dropped and [cur]
    is the piece read so far. *)
Fixpoint split_go (sep s : string) (skip : nat) (cur : string) : list string :=
  match s with
  | EmptyString => [cur]
  | String c s' =>
      match skip with
      | S k => split_go sep s' k cur
      | O =>
          if startswith sep s
          then cur :: split_go sep s' (String.length sep - 1)%nat ""
          else split_go sep s' O (cur +:+ String c "")
      end
  end.

Definition split (sep s : string) : list string := split_go sep s O "".

(** [l[-1]] and [l[0]] on the result of a split, which is never empty *)
Definition last_item (l : list string) : string := default "" (last l).
Definition first_item (l : list string) : string := default "" (head l).

(** [s.lstrip(c)] for a one-character argument *)
Fixpoint lstrip (c : ascii) (s : string) : string :=
  match s with
  | String a s' => if decide (a = c) then lstrip c s' else s
  | EmptyString => EmptyString
  end.

Fixpoint replace_go (old new s : string) (skip : nat) : string :=
  match s with
  | EmptyString => EmptyString
  | String c s' =>
      match skip with
      | S k => replace_go old new s' k
      | O =>
          if startswith old s
          then new +:+ replace_go old new s' (String.length old - 1)%nat
          else String c (replace_go old new s' O)
      end
  end.

Fixpoint after_each (new s : string) : string :=
  match s with
  | EmptyString => EmptyString
  | String c s' => String c (new +:+ after_each new s')
  end.

(** [s.replace(old, new)]; an empty [old] matches before every
    character and at the end *)
Definition replace (old new s : string) : string :=
  match old with
  | EmptyString => new +:+ after_each new s
  | String _ _ => replace_go old new s O
  end.

(** [sep.join(l)] *)
Fixpoint join (sep : string) (l : list string) : string :=
  match l with
  | [] => ""
  | [x] => x
  | x :: l' => x +:+ sep +:+ join sep l'
  end.

(** [repr(s)] of a string without quotes, backslashes or control
    characters, and [repr] of a list of such strings *)
Definition repr (s : string) : string := "'" +:+ s +:+ "'".
Definition repr_list (l : list string) : string :=
  "[" +:+ join ", " (repr <$> l) +:+ "]".

(** decimal digits of a number, padded with zeros to [width]
    (the [%02d] style of [strftime]) *)
Fixpoint zeros (n : nat) : string :=
  match n with O => "" | S k => String "0"%char (zeros k) end.
Definition zfill (width : nat) (n : Z) : string :=
  let d := pretty (Z.to_N n) in
  zeros (width - String.length d) +:+ d.

Definition str_bool (b : bool) : string := if b then "True" else "False".
Definition str_option (o : option string) : string := default "None" o.

End PyStr.

(** ** Exceptions and results *)

Inductive exn : Type :=
| ClientError (code message : string)
    (** [botocore.exceptions.ClientError]; [code] is
        [ex.response['Error']['Code']] *)
| PyException (msg : string)        (** [Exception(msg)] *)
| TypeError (msg : string)
| IndexError (msg : string)
| KeyError (key : string)
| NoOptionError (section option : string)  (** [configparser] lookups *)
| OtherError (name msg : string).   (** any other exception of a library *)

Global Instance exn_eq_dec : EqDecision exn.
Proof. solve_decision. Defined.

Inductive res (A : Type) : Type :=
| Ok (a : A)
| Raise (e : exn).
Arguments Ok {A} a.
Arguments Raise {A} e.

(** ** Data of the source *)

(** A [pathlib.PurePosixPath]: the anchor ([""] or ["/"]) and the parts
    after it. *)
Record Path := { anchor : string; parts : list string }.

Definition as_posix (p : Path) : string :=
  match anchor p, parts p with
  | EmptyString, [] => "."
  | a, ps => a +:+ PyStr.join "/" ps
  end.
Definition name (p : Path) : string := default "" (last (parts p)).
Definition parent (p : Path) : Path :=
  {| anchor := anchor p; parts := removelast (parts p) |}.

(** The result of [urllib.parse.urlparse]: only the two fields used. *)
Record ParseResult := { netloc : string; path : string }.

(** One entry of a tag set, [{'Key': k, 'Value': v}] *)
Record Tag := { Key : string; Value : string }.

Global Instance Tag_eq_dec : EqDecision Tag.
Proof. solve_decision. Defined.

Definition repr_tag (t : Tag) : string :=
  "{'Key': " +:+ PyStr.repr (Key t) +:+ ", 'Value': " +:+ PyStr.repr (Value t) +:+ "}".

(** [datetime.datetime] *)
Record datetime := {
  year : Z; month : Z; day : Z;
  hour : Z; minute : Z; second : Z; microsecond : Z
}.

(** [d.strftime("%Y%m%dT%H%M%SZ")], for the four-digit years
    [datetime.utcnow()] gives *)
Definition strftime (d : datetime) : string :=
  PyStr.zfill 4 (year d) +:+ PyStr.zfill 2 (month d) +:+ PyStr.zfill 2 (day d)
  +:+ "T" +:+ PyStr.zfill 2 (hour d) +:+ PyStr.zfill 2 (minute d)
  +:+ PyStr.zfill 2 (second d) +:+ "Z".

(** Proleptic Gregorian day count and its inverse, as used by
    [datetime + timedelta(days=n)]. *)
Definition days_from_civil (y m d : Z) : Z :=
  let y' := if m <=? 2 then y - 1 else y in
  let era := y' / 400 in
  let yoe := y' - era * 400 in
  let doy := (153 * (if 2 <? m then m - 3 else m + 9) + 2) / 5 + d - 1 in
  let doe := yoe * 365 + yoe / 4 - yoe / 100 + doy in
  era * 146097 + doe.

Definition civil_from_days (z : Z) : Z * Z * Z :=
  let era := z / 146097 in
  let doe := z - era * 146097 in
  let yoe := (doe - doe / 1460 + doe / 36524 - doe / 146096) / 365 in
  let doy := doe - (365 * yoe + yoe / 4 - yoe / 100) in
  let mp := (5 * doy + 2) / 153 in
  let d := doy - (153 * mp + 2) / 5 + 1 in
  let m := if mp <? 10 then mp + 3 else mp - 9 in
  let y := yoe + era * 400 in
  (if m <=? 2 then y + 1 else y, m, d).

(** [d + timedelta(days=n)] *)
Definition add_days (d : datetime) (n : Z) : datetime :=
  let '(y, m, dd) := civil_from_days (days_from_civil (year d) (month d) (day d) + n) in
  {| year := y; month := m; day := dd;
     hour := hour d; minute := minute d; second := second d;
     microsecond := microsecond d |}.

(** Modelled from the spec: the status enumeration [JobStatus] of
    [logger/job_cache.py], which is not among the sources; section 6
    lists its four values. *)
Inductive JobStatus := QUEUED | RUNNING | SUCCESS | FAILED.

Global Instance JobStatus_eq_dec : EqDecision JobStatus.
Proof. solve_decision. Defined.

Inductive level := DEBUG | INFO | WARNING | ERROR | CRITICAL.

(** Answers of the services *)
Record Identity := { Arn : string; Account : string }.
Record StackResourceSummary := { ResourceType : string; PhysicalResourceId : string }.
Record EnvVar := { env_name : string; env_value : string }.
Record ContainerDefinition := { environment : list EnvVar }.
Record JobDescription := { ProcessingJobStatus : string; FailureReason : option string }.

(** [sagemaker.processing.ScriptProcessor(...)] and the arguments of its [run] *)
Record ScriptProcessor := {
  command : list string;
  image_uri : string;
  role : string;
  instance_count : Z;
  base_job_name : string;
  instance_type : string;
  volume_size_in_gb : Z;
  max_runtime_in_seconds : Z;
  sp_tags : list Tag
}.

Record RunRequest := {
  code : string;
  arguments : list string;
  input_source : string;
  input_destination : string;
  output_source : string;
  output_destination : string
}.

(** [config.Config]: the path of the ini file and the parsed options,
    keyed by section and option. *)
Record Config := { config_path : string; parser : gmap (string * string) string }.

(** Modelled from the spec: the job cache, [logger/job_cache.py], is not
    among the sources.  Section 4.3 gives it [setJob(name, processor,
    mediaList, status)] and [setMedia(jobName, mediaName, status)] with
    unconditional, last-write-wins writes. *)
Record JobCache := {
  jobs : gmap string (string * list string * JobStatus);
  medias : gmap (string * string) JobStatus
}.

Definition cache_set_job (n processor : string) (videos : list string)
    (s : JobStatus) (c : JobCache) : JobCache :=
  {| jobs := <[n := (processor, videos, s)]> (jobs c); medias := medias c |}.

Definition cache_set_media (job media : string) (s : JobStatus) (c : JobCache) : JobCache :=
  {| jobs := jobs c; medias := <[(job, media) := s]> (medias c) |}.

Definition empty_cache : JobCache := {| jobs := ∅; medias := ∅ |}.

(** The calls that leave the process or write the job cache, in the
    order they are made. *)
Inductive call :=
| GetCallerIdentity
| RegionName
| UtcNow
| ListStackResources (stack_name : string)
| DescribeTaskDefinition (arn : string)
| ObjectLoad (bucket key : string)
| OpenRb (file : string)
| UploadFileobj (bucket key : string)
| PutObjectTagging (bucket key : string) (tagset : list Tag)
| BucketSize (url : ParseResult)
| ObjectsFilter (bucket prefix : string)
| ProcessorRun (sp : ScriptProcessor) (req : RunRequest)
| ProcessorDescribe (sp : ScriptProcessor)
| GetQueueByName (queue_name : string)
| SendMessage (queue body group_id : string)
| SetJob (job processor : string) (videos : list string) (status : JobStatus)
| SetMedia (job media : string) (status : JobStatus).

(** The message of a queued submission before [json.dumps]: an ordered
    dictionary of strings and numbers. *)
Inductive jvalue (float : Type) :=
| JStr (s : string)
| JNum (x : float).
Arguments JStr {float} s.
Arguments JNum {float} x.

(** ** The services *)

(** One field per client call of the source.  [W] is the state of the
    outside world, [F] an open local file. *)
Record AWS (W F : Type) := {
  sts_get_caller_identity : W → res Identity * W;
  session_region_name : W → option string * W;
  os_environ : W → gmap string string;
  datetime_utcnow : W → datetime * W;
  cf_list_stack_resources : string → W → res (list StackResourceSummary) * W;
  ecs_describe_task_definition : string → W → res (list ContainerDefinition) * W;
  s3_object_load : string → string → W → res unit * W;
  open_rb : string → W → res F * W;
  s3_upload_fileobj : F → string → string → W → res unit * W;
  s3_put_object_tagging : string → string → list Tag → W → res unit * W;
  (** [bucket.size(url)] of [commands/bucket.py], which is not among the
      sources: the total size in bytes of the objects under the prefix *)
  bucket_size : ParseResult → W → res Z * W;
  s3_objects_filter : string → string → W → res (list string) * W;
  processor_run : ScriptProcessor → RunRequest → W → res unit * W;
  processor_describe : ScriptProcessor → W → res JobDescription * W;
  sqs_get_queue_by_name : string → W → res string * W;
  sqs_send_message : string → string → string → W → res (option string) * W
}.
Arguments sts_get_caller_identity {W F}.
Arguments session_region_name {W F}.
Arguments os_environ {W F}.
Arguments datetime_utcnow {W F}.
Arguments cf_list_stack_resources {W F}.
Arguments ecs_describe_task_definition {W F}.
Arguments s3_object_load {W F}.
Arguments open_rb {W F}.
Arguments s3_upload_fileobj {W F}.
Arguments s3_put_object_tagging {W F}.
Arguments bucket_size {W F}.
Arguments s3_objects_filter {W F}.
Arguments processor_run {W F}.
Arguments processor_describe {W F}.
Arguments sqs_get_queue_by_name {W F}.
Arguments sqs_send_message {W F}.

(** ** The monad *)

Record State (W : Type) := {
  world : W;
  cache : JobCache;
  log : list (level * string);
  stdout : list string;
  trace : list call
}.
Arguments world {W}.
Arguments cache {W}.
Arguments log {W}.
Arguments stdout {W}.
Arguments trace {W}.

Definition init_state {W} (w : W) : State W :=
  {| world := w; cache := empty_cache; log := []; stdout := []; trace := [] |}.

(** The state after a stretch of a run: the world it left, the cache,
    the lines logged and the calls made *)
Definition put_state {W} (w : W) (c : JobCache) (l : list (level * string))
    (calls : list call) (st : State W) : State W :=
  {| world := w; cache := c; log := log st ++ l; stdout := stdout st;
     trace := trace st ++ calls |}.

Definition M (W A : Type) : Type := State W → res A * State W.

Global Instance M_ret {W} : MRet (M W) := λ A a st, (Ok a, st).
Global Instance M_bind {W} : MBind (M W) := λ A B f m st,
  match m st with
  | (Ok a, st') => f a st'
  | (Raise e, st') => (Raise e, st')
  end.

Definition raise {W A} (e : exn) : M W A := λ st, (Raise e, st).

(** [try: m  except: h e] where [h] re-raises what it does not handle *)
Definition try_except {W A} (m : M W A) (h : exn → M W A) : M W A := λ st,
  match m st with
  | (Ok a, st') => (Ok a, st')
  | (Raise e, st') => h e st'
  end.

(** [try: m  except: h e  else: k a] *)
Definition try_except_else {W A B} (m : M W A) (h : exn → M W B) (k : A → M W B) : M W B :=
  λ st,
  match m st with
  | (Ok a, st') => k a st'
  | (Raise e, st') => h e st'
  end.

(** A client call: run it on the world and record it. *)
Definition invoke {W A} (c : call) (op : W → res A * W) : M W A := λ st,
  let '(r, w') := op (world st) in
  (r, {| world := w'; cache := cache st; log := log st; stdout := stdout st;
         trace := trace st ++ [c] |}).

Definition logger {W} (lvl : level) (msg : string) : M W unit := λ st,
  (Ok (), {| world := world st; cache := cache st; log := log st ++ [(lvl, msg)];
             stdout := stdout st; trace := trace st |}).

Definition print {W} (msg : string) : M W unit := λ st,
  (Ok (), {| world := world st; cache := cache st; log := log st;
             stdout := stdout st ++ [msg]; trace := trace st |}).

Definition set_job {W} (n processor : string) (videos : list string) (s : JobStatus) : M W unit :=
  λ st,
  (Ok (), {| world := world st; cache := cache_set_job n processor videos s (cache st);
             log := log st; stdout := stdout st;
             trace := trace st ++ [SetJob n processor videos s] |}).

Definition set_media {W} (job media : string) (s : JobStatus) : M W unit := λ st,
  (Ok (), {| world := world st; cache := cache_set_media job media s (cache st);
             log := log st; stdout := stdout st;
             trace := trace st ++ [SetMedia job media s] |}).

(** [for x in l: body x] *)
Fixpoint for_each {W A} (l : list A) (body : A → M W unit) : M W unit :=
  match l with
  | [] => mret ()
  | x :: l' => body x ;; for_each l' body
  end.

(** [str(ex)] as the logger prints it *)
Definition str_exn (e : exn) : string :=
  match e with
  | ClientError c m => "An error occurred (" +:+ c +:+ "): " +:+ m
  | PyException m | TypeError m | IndexError m => m
  | KeyError k => PyStr.repr k
  | NoOptionError s o => "No option " +:+ PyStr.repr o +:+ " in section: " +:+ PyStr.repr s
  | OtherError _ m => m
  end.

(** ** config/config.py *)

Definition default_training_prefix : string := "training".

Section Config.
Context {W F : Type} (aws : AWS W F).

(** [Config.__call__(section, option)] *)
Definition config_call (self : Config) (section option : string) : M W string :=
  match parser self !! (section, option) with
  | Some v => mret v
  | None => raise (NoOptionError section option)
  end.

(** [Config.get_role] *)
Definition get_role (self : Config) : M W string :=
  λ st,
  match os_environ aws (world st) !! "SAGEMAKER_ROLE" with
  | Some r => (Ok r, st)
  | None =>
      (sagemaker_arn ← config_call self "aws" "sagemaker_arn";
       if decide (sagemaker_arn = "")
       then raise (PyException "Run deepsea-ai setup or set the SAGEMAKER_ROLE environment variable")
       else mret sagemaker_arn) st
  end.

(** [Config.get_account] *)
Definition get_account : M W string :=
  response ← invoke GetCallerIdentity (sts_get_caller_identity aws);
  let account_number := Account response in
  logger INFO ("Found account " +:+ account_number);;
  mret account_number.

(** [Config.get_region] *)
Definition get_region : M W (option string) :=
  region ← invoke RegionName (λ w, let '(r, w') := session_region_name aws w in (Ok r, w'));
  logger INFO ("Found region " +:+ PyStr.str_option region);;
  mret region.

(** [Config.get_username] *)
Definition get_username : M W string :=
  try_except
    (response ← invoke GetCallerIdentity (sts_get_caller_identity aws);
     mret (PyStr.first_item (PyStr.split "@" (PyStr.last_item (PyStr.split "/" (Arn response))))))
    (λ e, match e with
          | ClientError _ _ => mret "Unknown"
          | _ => raise e
          end).

Definition allowed_chars : list string := ["+"; "-"; "="; "."; "_"; ":"; "/"; "@"].
(** [list(string.ascii_letters)] *)
Definition allowed_letters : list string :=
  ["a"; "b"; "c"; "d"; "e"; "f"; "g"; "h"; "i"; "j"; "k"; "l"; "m";
   "n"; "o"; "p"; "q"; "r"; "s"; "t"; "u"; "v"; "w"; "x"; "y"; "z";
   "A"; "B"; "C"; "D"; "E"; "F"; "G"; "H"; "I"; "J"; "K"; "L"; "M";
   "N"; "O"; "P"; "Q"; "R"; "S"; "T"; "U"; "V"; "W"; "X"; "Y"; "Z"].
(** [list(string.digits)] *)
Definition allowed_numbers : list string :=
  ["0"; "1"; "2"; "3"; "4"; "5"; "6"; "7"; "8"; "9"].
Definition allowed : list string := allowed_chars ++ allowed_letters ++ allowed_numbers.

(** [any(char in value for char in allowed)] *)
Definition any_allowed_in (value : string) : bool :=
  existsb (λ char, PyStr.contains char value) allowed.

(** The body of the loop of [get_tags] over the tag dictionary.
    [raise (msg)] raises a string, which Python turns into a
    [TypeError]. *)
Definition check_tag (tag : Tag) : M W unit :=
  logger INFO ("Checking tag " +:+ repr_tag tag);;
  if negb (any_allowed_in (Value tag)) then
    let msg := "Tag " +:+ repr_tag tag +:+ " has a value with special characters. Check your config.ini file. "
               +:+ "Special characters are not allowed in AWS tags, e.g. dots, etc." in
    logger ERROR msg;;
    raise (TypeError "exceptions must derive from BaseException")
  else mret ().

(** [Config.get_tags] *)
Definition get_tags (self : Config) (description : string) : M W (list Tag) :=
  organization ← config_call self "tags" "organization";
  project_number ← config_call self "tags" "project_number";
  stage ← config_call self "tags" "stage";
  application ← config_call self "tags" "application";
  user_name ← get_username;
  now ← invoke UtcNow (λ w, let '(d, w') := datetime_utcnow aws w in (Ok d, w'));
  let deletion_date := strftime (add_days now 90) in
  let tag_dict :=
    [ {| Key := organization +:+ ":project-number"; Value := project_number |};
      {| Key := organization +:+ ":owner"; Value := user_name |};
      {| Key := organization +:+ ":description"; Value := description |};
      {| Key := organization +:+ ":stage"; Value := stage |};
      {| Key := organization +:+ ":application"; Value := application |};
      {| Key := organization +:+ ":deletion-date"; Value := deletion_date |};
      {| Key := organization +:+ ":created-by"; Value := user_name |} ] in
  for_each tag_dict check_tag;;
  mret tag_dict.

Definition key : list string :=
  ["PROCESSOR"; "TRACK_QUEUE"; "VIDEO_QUEUE"; "DEAD_QUEUE"; "TRACK_BUCKET"; "VIDEO_BUCKET"].

(** [for k in key: if k in e['name']: resources[k] = e['value']] *)
Definition scan_variable (resources : gmap string string) (e : EnvVar) : gmap string string :=
  foldl (λ resources k,
           if PyStr.contains k (env_name e) then <[k := env_value e]> resources
           else resources)
        resources key.

(** [for e in environment: ...] *)
Definition scan_environment (environment : list EnvVar) (resources : gmap string string)
    : gmap string string :=
  foldl scan_variable resources environment.

(** The loop of [get_resources] over the stack resource summaries; it
    ends at the first task definition ([break]). *)
Fixpoint scan_stack (summaries : list StackResourceSummary) (resources : gmap string string)
    : M W (gmap string string) :=
  match summaries with
  | [] => mret resources
  | r :: rest =>
      if PyStr.contains "AWS::ECS::TaskDefinition" (ResourceType r) then
        let arn := PhysicalResourceId r in
        task_def ← invoke (DescribeTaskDefinition arn) (ecs_describe_task_definition aws arn);
        match task_def with
        | [] => raise (IndexError "list index out of range")
        | c :: _ => mret (scan_environment (environment c) resources)
        end
      else
        let resources :=
          if PyStr.contains "AWS::AutoScaling::AutoScalingGroup" (ResourceType r)
          then <["ASG" := PhysicalResourceId r]> resources
          else resources in
        scan_stack rest resources
  end.

Definition access_denied_message : string :=
  "Access denied; verify you are using the correct AWS credentials".
Definition token_expired_message : string :=
  "Token expired; you need to re-authenticate your AWS credentials".

(** The [try] block of [get_resources] *)
Definition get_resources_try (stack_name : string) : M W (option (gmap string string)) :=
  stack_resources ← invoke (ListStackResources stack_name)
                           (cf_list_stack_resources aws stack_name);
  resources ← scan_stack stack_resources {[ "CLUSTER" := stack_name ]};
  mret (Some resources).

(** The [except ClientError as ex] clause and the [return None] that
    follows it *)
Definition get_resources_except (e : exn) : M W (option (gmap string string)) :=
  match e with
  | ClientError code _ =>
      logger ERROR (str_exn e);;
      if PyStr.contains "AccessDenied" code then
        logger CRITICAL access_denied_message;;
        raise (PyException "Access denied")
      else if PyStr.contains "ExpiredToken" code then
        logger CRITICAL token_expired_message;;
        raise (PyException "Token expired")
      else mret None
  | _ => raise e
  end.

(** [Config.get_resources]; [None] is the "no resources" result *)
Definition get_resources (stack_name : string) : M W (option (gmap string string)) :=
  try_except (get_resources_try stack_name) get_resources_except.

End Config.

(** ** commands/upload_tag.py *)

(** [v.parent.as_posix().split("Volumes/")[-1]]: the directory of the
    file, cut after the last ["Volumes/"]. *)
Definition prefix_path_of (v : Path) : string :=
  PyStr.last_item (PyStr.split "Volumes/" (as_posix (parent v))).

(** [f'{input_s3.path}{prefix_path}/{v.name}'] *)
Definition target_prefix_of (input_s3 : ParseResult) (v : Path) : string :=
  path input_s3 +:+ prefix_path_of v +:+ "/" +:+ name v.

(** [np.round(x)]: to the nearest integer, halves to the even one.  The
    quotient is taken in exact arithmetic; the float division of the
    source agrees with it as long as the byte count is exactly
    representable and the quotient is not within one part in [2^53] of a
    half, which holds for every size below [2^53] bytes. *)
Definition np_round (x : Q) : Z :=
  let f := Qfloor x in
  let r := Qminus x (inject_Z f) in
  match Qcompare r (1 # 2) with
  | Lt => f
  | Gt => f + 1
  | Eq => if Z.even f then f else f + 1
  end.

(** [np.round(size_bytes/1e6)] *)
Definition reported_size (size_bytes : Z) : Z :=
  np_round (Qmake size_bytes 1000000).

Section UploadTag.
Context {W F : Type} (aws : AWS W F).

(** The probe, upload and tagging of one file: the body shared by the
    loops of [video_data] and [training_data], which differ in the
    console texts only. *)
Definition upload_and_tag (local : Path) (bucket target_prefix : string) (tags : list Tag)
    (uploading found : string) (upload_failed : exn → string) : M W unit :=
  try_except_else
    (invoke (ObjectLoad bucket target_prefix) (s3_object_load aws bucket target_prefix))
    (λ e, match e with
          | ClientError code _ =>
              if decide (code = "404") then
                try_except
                  (f ← invoke (OpenRb (as_posix local)) (open_rb aws (as_posix local));
                   print uploading;;
                   invoke (UploadFileobj bucket target_prefix)
                          (s3_upload_fileobj aws f bucket target_prefix))
                  (λ error, print (upload_failed error))
              else raise e
          | _ => raise e
          end)
    (λ _, print found);;
  try_except
    (invoke (PutObjectTagging bucket target_prefix tags)
            (s3_put_object_tagging aws bucket target_prefix tags))
    (λ error, raise error).

(** [upload_tag.video_data] *)
Definition video_data (videos : list Path) (input_s3 : ParseResult) (tags : list Tag)
    : M W unit :=
  print "Reduce your upload speed by running ' aws configure set default.s3.max_bandwidth 62MB/s'";;
  for_each videos (λ v,
    let target_prefix := target_prefix_of input_s3 v in
    upload_and_tag v (netloc input_s3) target_prefix tags
      ("Uploading " +:+ as_posix v +:+ " to s3://" +:+ netloc input_s3 +:+ "/" +:+ target_prefix +:+ "...")
      ("Found s3://" +:+ netloc input_s3 +:+ "/" +:+ target_prefix +:+ " ...skipping upload")
      (λ _, "error in uploading to s3")).

(** [not prefix_path] *)
Definition falsy (o : option string) : bool :=
  match o with
  | None => true
  | Some s => bool_decide (s = "")
  end.

(** The loop of [training_data]; [prefix_path] is the variable the first
    file sets. *)
Fixpoint training_loop (data : list Path) (input : ParseResult) (tags : list Tag)
    (prefix_path : option string) : M W (option string) :=
  match data with
  | [] => mret prefix_path
  | d :: rest =>
      let prefix_path :=
        if falsy prefix_path
        then Some (PyStr.lstrip "/" (prefix_path_of d))
        else prefix_path in
      let target_prefix :=
        PyStr.str_option prefix_path +:+ "/" +:+ default_training_prefix +:+ "/" +:+ name d in
      upload_and_tag d (netloc input) target_prefix tags
        ("Uploading " +:+ as_posix d +:+ " to s3://" +:+ netloc input +:+ "/" +:+ target_prefix +:+ "...")
        ("Found s3://" +:+ path input +:+ "/" +:+ target_prefix +:+ " ...skipping upload")
        (λ error, "Error " +:+ str_exn error +:+ " uploading to s3");;
      training_loop rest input tags prefix_path
  end.

(** [upload_tag.training_data]; the second component of the result is
    the value of [np.round(size_bytes/1e6)]. *)
Definition training_data (data : list Path) (input : ParseResult) (tags : list Tag)
    : M W (ParseResult * Z) :=
  print "Reduce your upload speed by running ' aws configure set default.s3.max_bandwidth 62MB/s'";;
  prefix_path ← training_loop data input tags None;
  let output :=
    {| netloc := netloc input;
       path := "/" +:+ PyStr.str_option prefix_path +:+ "/" +:+ default_training_prefix +:+ "/" |} in
  size_bytes ← invoke (BucketSize output) (bucket_size aws output);
  mret (output, reported_size size_bytes).

End UploadTag.

(** ** commands/process.py *)

Definition truthy (o : option string) : bool := negb (falsy o).

(** [d[k]] on a dictionary of strings *)
Definition dict_get {W} (d : gmap string string) (k : string) : M W string :=
  match d !! k with
  | Some v => mret v
  | None => raise (KeyError k)
  end.

Definition s3_uri (u : ParseResult) : string :=
  "s3://" +:+ netloc u +:+ "/" +:+ PyStr.lstrip "/" (path u).

Section Process.
Context {W F float : Type} (aws : AWS W F).
(** [str] of a float, and [json.dumps(d, indent=4)] *)
Context (repr_float : float → string).
Context (json_dumps : list (string * jvalue float) → string).
(** [upload_tag.get_prefix], imported by [process.py] but not defined in
    the [upload_tag.py] at hand *)
Context (get_prefix : Path → string).
(** the module constant [code_path] *)
Context (code_path : Path).

(** [for v in videos: JobCache().set_media(name, v, status)] after
    [JobCache().set_job(name, processor, videos, status)] *)
Definition mark_all (base_job_name processor : string) (videos : list string) (s : JobStatus)
    : M W unit :=
  set_job base_job_name processor videos s;;
  for_each videos (λ v, set_media base_job_name v s).

(** What [script_processor_run] has computed when it reaches its first
    write to the job cache: the local variables the rest of the function
    reads. *)
Record Prepared := {
  p_arguments : list string;
  p_script_processor : ScriptProcessor;
  p_base_job_name : string;
  p_processor : string;
  p_videos : list string
}.

(** [process.script_processor_run], from its first line to the
    assignment of [processor] *)
Definition script_processor_prepare (input_s3 model_s3 : ParseResult) (model_size : Z)
    (reid_model_url : option string) (volume_size_gb : Z) (instance_type : string)
    (config_s3 : option string) (save_vid : bool) (conf_thres iou_thres : float)
    (tracker : string) (custom_config : Config) (tags : list Tag) : M W Prepared :=
  user_name ← get_username aws;
  (if bool_decide (tracker ∈ ["deepsort"; "strongsort"]) then mret ()
   else logger ERROR (tracker +:+ " not currently supported");;
        raise (PyException (tracker +:+ " not currently supported")));;
  let arguments :=
    [ "dettrack";
      "--conf-thres=" +:+ repr_float conf_thres;
      "--iou-thres=" +:+ repr_float iou_thres;
      "--model-size=" +:+ pretty model_size;
      "--model-s3=" +:+ s3_uri model_s3 ] in
  let arguments :=
    if truthy config_s3 then arguments ++ ["--config-s3=" +:+ PyStr.str_option config_s3]
    else arguments in
  arguments ←
    (if truthy reid_model_url && bool_decide (tracker = "strongsort")
     then mret (arguments ++ ["--reid-weights=" +:+ PyStr.str_option reid_model_url])
     else
       arguments ←
         (if bool_decide (tracker = "deepsort")
          then c ← config_call custom_config "aws" "deepsort_track_config_s3";
               mret (arguments ++ ["--config-s3=" +:+ c])
          else mret arguments);
       if bool_decide (tracker = "strongsort")
       then c ← config_call custom_config "aws" "strongsort_track_config_s3";
            mret (arguments ++ ["--config-s3=" +:+ c])
       else mret arguments);
  let arguments := if save_vid then arguments ++ ["--save-vid"] else arguments in
  logger DEBUG (PyStr.repr_list arguments);;
  account ← get_account aws;
  region ← get_region aws;
  deepsort_ecr ← config_call custom_config "aws" "deepsort_ecr";
  strongsort_ecr ← config_call custom_config "aws" "strongsort_ecr";
  let image_uri_docker :=
    if bool_decide (tracker = "deepsort") then deepsort_ecr else strongsort_ecr in
  let image_uri_ecr :=
    account +:+ ".dkr.ecr." +:+ PyStr.str_option region +:+ ".amazonaws.com/" +:+ image_uri_docker in
  let base_job_name := tracker +:+ "-yolov5-" +:+ user_name in
  role ← get_role aws custom_config;
  let script_processor :=
    {| command := ["python3"];
       image_uri := image_uri_ecr;
       role := role;
       instance_count := 1;
       base_job_name := base_job_name;
       instance_type := instance_type;
       volume_size_in_gb := volume_size_gb;
       max_runtime_in_seconds := 172800;
       sp_tags := tags |} in
  logger INFO ("Start script processor for inputs " +:+ s3_uri input_s3);;
  let prefix := PyStr.lstrip "/" (path input_s3) in
  videos ← invoke (ObjectsFilter (netloc input_s3) prefix)
                  (s3_objects_filter aws (netloc input_s3) prefix);
  logger DEBUG (PyStr.repr_list videos);;
  let videos := (λ video, PyStr.replace prefix "" video) <$> videos in
  let processor := PyStr.last_item (PyStr.split "/" image_uri_ecr) in
  mret {| p_arguments := arguments; p_script_processor := script_processor;
          p_base_job_name := base_job_name; p_processor := processor;
          p_videos := videos |}.

(** The arguments of [script_processor.run(...)] *)
Definition run_request (input_s3 output_s3 : ParseResult) (tracker : string)
    (arguments : list string) : RunRequest :=
  {| code := as_posix (parent (parent (parent code_path)))
             +:+ "/deepsea_ai/pipeline/run_" +:+ tracker +:+ ".py";
     arguments := arguments;
     input_source := s3_uri input_s3;
     input_destination := "/opt/ml/processing/input";
     output_source := "/opt/ml/processing/output";
     output_destination := s3_uri output_s3 |}.

(** [process.script_processor_run], from the first write to the job
    cache to the end *)
Definition script_processor_dispatch (input_s3 output_s3 : ParseResult) (tracker : string)
    (p : Prepared) : M W unit :=
  let script_processor := p_script_processor p in
  let base_job_name := p_base_job_name p in
  let processor := p_processor p in
  let videos := p_videos p in
  mark_all base_job_name processor videos RUNNING;;
  let request := run_request input_s3 output_s3 tracker (p_arguments p) in
  invoke (ProcessorRun script_processor request) (processor_run aws script_processor request);;
  status ← invoke (ProcessorDescribe script_processor) (processor_describe aws script_processor);
  if bool_decide (ProcessingJobStatus status = "Failed") then
    described ← invoke (ProcessorDescribe script_processor)
                       (processor_describe aws script_processor);
    reason ← match FailureReason described with
             | Some r => mret r
             | None => raise (KeyError "FailureReason")
             end;
    let msg := "Script processor failed for inputs " +:+ s3_uri input_s3 +:+ ": " +:+ reason in
    mark_all base_job_name processor videos FAILED;;
    logger ERROR msg;;
    raise (PyException msg)
  else
    logger DEBUG ("Script processor succeeded for inputs " +:+ s3_uri input_s3);;
    mark_all base_job_name processor videos SUCCESS.

(** [process.script_processor_run] *)
Definition script_processor_run (input_s3 output_s3 model_s3 : ParseResult) (model_size : Z)
    (reid_model_url : option string) (volume_size_gb : Z) (instance_type : string)
    (config_s3 : option string) (save_vid : bool) (conf_thres iou_thres : float)
    (tracker : string) (custom_config : Config) (tags : list Tag) : M W unit :=
  p ← script_processor_prepare input_s3 model_s3 model_size reid_model_url volume_size_gb
        instance_type config_s3 save_vid conf_thres iou_thres tracker custom_config tags;
  script_processor_dispatch input_s3 output_s3 tracker p.

(** The dictionary [message_dict] of [batch_run] *)
Definition message_dict (video_path : Path) (job_name user_name : string) (clean : bool)
    (conf_thres iou_thres : float) : list (string * jvalue float) :=
  [ ("video", JStr (get_prefix video_path +:+ "/" +:+ name video_path));
    ("clean", JStr (if clean then "True" else "False"));
    ("user_name", JStr user_name);
    ("job_name", JStr job_name);
    ("conf_thres", JNum conf_thres);
    ("iou_thres", JNum iou_thres) ].

(** [process.batch_run] *)
Definition batch_run (resources : gmap string string) (video_path : Path)
    (job_name user_name : string) (clean : bool) (conf_thres iou_thres : float) : M W unit :=
  queue_name ← dict_get resources "VIDEO_QUEUE";
  queue ← invoke (GetQueueByName queue_name) (sqs_get_queue_by_name aws queue_name);
  let json_object := json_dumps (message_dict video_path job_name user_name clean conf_thres iou_thres) in
  now ← invoke UtcNow (λ w, let '(d, w') := datetime_utcnow aws w in (Ok d, w'));
  let group_id := strftime now in
  cluster ← dict_get resources "CLUSTER";
  response ← invoke (SendMessage queue json_object (cluster +:+ group_id))
                    (sqs_send_message aws queue json_object (cluster +:+ group_id));
  logger INFO ("Message queued to " +:+ queue_name +:+ ". MessageId: " +:+ PyStr.str_option response);;
  cluster ← dict_get resources "CLUSTER";
  set_job job_name cluster [name video_path] QUEUED;;
  set_media job_name (name video_path) QUEUED.

End Process.

(** ** A simulated world *)

(** One deterministic instance of the services: an object store, the
    local files, a stack listing with its task definitions, queues and a
    processing service with a fixed outcome.  A probe of a missing
    object answers 404, tagging a missing object answers [NoSuchKey], as
    S3 does. *)
Module Sim.

Inductive credentials := Valid | Denied | Expired.

(** A stored object: its size in bytes and its tag set *)
Record S3Object := { content_length : Z; tagging : list Tag }.

Record World := {
  creds : credentials;
  identity : Identity;
  region : option string;
  environ : gmap string string;
  clock : datetime;
  stacks : gmap string (list StackResourceSummary);
  task_definitions : gmap string (list ContainerDefinition);
  objects : gmap (string * string) S3Object;
  forbidden : gset (string * string);   (** objects whose probe answers 403 *)
  read_only : gset string;              (** buckets that refuse uploads *)
  files : gmap string Z;                (** size of the local files, by posix path *)
  queues : gmap string (list (string * string));
  job_outcome : JobDescription;
  submitted : list RunRequest
}.

Definition with_objects (o : gmap (string * string) S3Object) (w : World) : World :=
  {| creds := creds w; identity := identity w; region := region w; environ := environ w;
     clock := clock w; stacks := stacks w; task_definitions := task_definitions w;
     objects := o; forbidden := forbidden w; read_only := read_only w; files := files w;
     queues := queues w; job_outcome := job_outcome w; submitted := submitted w |}.

Definition with_queues (q : gmap string (list (string * string))) (w : World) : World :=
  {| creds := creds w; identity := identity w; region := region w; environ := environ w;
     clock := clock w; stacks := stacks w; task_definitions := task_definitions w;
     objects := objects w; forbidden := forbidden w; read_only := read_only w;
     files := files w; queues := q; job_outcome := job_outcome w; submitted := submitted w |}.

Definition with_submitted (l : list RunRequest) (w : World) : World :=
  {| creds := creds w; identity := identity w; region := region w; environ := environ w;
     clock := clock w; stacks := stacks w; task_definitions := task_definitions w;
     objects := objects w; forbidden := forbidden w; read_only := read_only w;
     files := files w; queues := queues w; job_outcome := job_outcome w; submitted := l |}.

(** What a call answers when the credentials are not valid. *)
Definition guarded {A} (w : World) (r : res A) : res A :=
  match creds w with
  | Valid => r
  | Denied => Raise (ClientError "AccessDeniedException" "not authorized to perform this operation")
  | Expired => Raise (ClientError "ExpiredTokenException" "The security token included in the request is expired")
  end.

Definition list_stack_resources (stack_name : string) (w : World)
    : res (list StackResourceSummary) * World :=
  (guarded w
     match stacks w !! stack_name with
     | Some l => Ok l
     | None => Raise (ClientError "ValidationError"
                        ("Stack with id " +:+ stack_name +:+ " does not exist"))
     end, w).

Definition describe_task_definition (arn : string) (w : World)
    : res (list ContainerDefinition) * World :=
  (guarded w
     match task_definitions w !! arn with
     | Some l => Ok l
     | None => Raise (ClientError "ClientException" "Unable to describe task definition.")
     end, w).

Definition object_load (bucket k : string) (w : World) : res unit * World :=
  (if bool_decide ((bucket, k) ∈ forbidden w) then Raise (ClientError "403" "Forbidden")
   else match objects w !! (bucket, k) with
        | Some _ => Ok ()
        | None => Raise (ClientError "404" "Not Found")
        end, w).

Definition open_file (file : string) (w : World) : res Z * World :=
  (match files w !! file with
   | Some content => Ok content
   | None => Raise (OtherError "FileNotFoundError" file)
   end, w).

Definition upload_fileobj (f : Z) (bucket k : string) (w : World) : res unit * World :=
  if bool_decide (bucket ∈ read_only w)
  then (Raise (OtherError "S3UploadFailedError" "Access Denied"), w)
  else (Ok (), with_objects (<[(bucket, k) := {| content_length := f; tagging := [] |}]> (objects w)) w).

Definition put_object_tagging (bucket k : string) (tags : list Tag) (w : World)
    : res unit * World :=
  match objects w !! (bucket, k) with
  | Some o => (Ok (), with_objects (<[(bucket, k) := {| content_length := content_length o; tagging := tags |}]> (objects w)) w)
  | None => (Raise (ClientError "NoSuchKey" "The specified key does not exist."), w)
  end.

Definition under (bucket prefix : string) (entry : string * string * S3Object) : bool :=
  bool_decide (entry.1.1 = bucket) && PyStr.startswith prefix entry.1.2.

(** Modelled from the spec: [bucket.size], whose module is not among
    the sources, is the total size of the objects under the prefix
    (section 4.2). *)
Definition size (url : ParseResult) (w : World) : res Z * World :=
  (Ok (foldr (λ entry acc, content_length entry.2 + acc) 0
         (filter (λ entry, under (netloc url) (PyStr.lstrip "/" (path url)) entry)
                 (map_to_list (objects w)))), w).

Definition objects_filter (bucket prefix : string) (w : World) : res (list string) * World :=
  (Ok ((λ entry, entry.1.2) <$>
         filter (λ entry, under bucket prefix entry) (map_to_list (objects w))), w).

Definition run (sp : ScriptProcessor) (req : RunRequest) (w : World) : res unit * World :=
  (Ok (), with_submitted (submitted w ++ [req]) w).

Definition describe (sp : ScriptProcessor) (w : World) : res JobDescription * World :=
  (Ok (job_outcome w), w).

Definition get_queue_by_name (n : string) (w : World) : res string * World :=
  (match queues w !! n with
   | Some _ => Ok n
   | None => Raise (ClientError "AWS.SimpleQueueService.NonExistentQueue"
                      "The specified queue does not exist.")
   end, w).

Definition send_message (queue msg group_id : string) (w : World)
    : res (option string) * World :=
  match queues w !! queue with
  | Some l => (Ok (Some ("m" +:+ pretty (length l))),
               with_queues (<[queue := l ++ [(msg, group_id)]]> (queues w)) w)
  | None => (Raise (ClientError "AWS.SimpleQueueService.NonExistentQueue"
                      "The specified queue does not exist."), w)
  end.

Definition aws : AWS World Z :=
  {| sts_get_caller_identity := λ w, (guarded w (Ok (identity w)), w);
     session_region_name := λ w, (region w, w);
     os_environ := environ;
     datetime_utcnow := λ w, (clock w, w);
     cf_list_stack_resources := list_stack_resources;
     ecs_describe_task_definition := describe_task_definition;
     s3_object_load := object_load;
     open_rb := open_file;
     s3_upload_fileobj := upload_fileobj;
     s3_put_object_tagging := put_object_tagging;
     bucket_size := size;
     s3_objects_filter := objects_filter;
     processor_run := run;
     processor_describe := describe;
     sqs_get_queue_by_name := get_queue_by_name;
     sqs_send_message := send_message |}.

End Sim.

(** ** Concrete inputs *)

Module Demo.

Definition task_arn : string :=
  "arn:aws:ecs:us-west-2:123456789012:task-definition/demo:1".

Definition container : ContainerDefinition :=
  {| environment :=
       [ {| env_name := "VIDEO_QUEUE"; env_value := "demo-video-q" |};
         {| env_name := "VIDEO_BUCKET"; env_value := "demo-in" |};
         {| env_name := "TRACK_BUCKET"; env_value := "demo-out" |};
         {| env_name := "PROCESSOR"; env_value := "yolov5-proc" |} ] |}.

Definition world : Sim.World :=
  {| Sim.creds := Sim.Valid;
     Sim.identity := {| Arn := "arn:aws:iam::123456789012:user/dcline@mbari.org";
                        Account := "123456789012" |};
     Sim.region := Some "us-west-2";
     Sim.environ := ∅;
     Sim.clock := {| year := 2023; month := 3; day := 7;
                     hour := 4; minute := 5; second := 6; microsecond := 789012 |};
     Sim.stacks :=
       {[ "demo-cluster" :=
            [ {| ResourceType := "AWS::AutoScaling::AutoScalingGroup";
                 PhysicalResourceId := "demo-asg" |};
              {| ResourceType := "AWS::ECS::TaskDefinition";
                 PhysicalResourceId := task_arn |} ];
          "bare-cluster" :=
            [ {| ResourceType := "AWS::SQS::Queue";
                 PhysicalResourceId := "bare-video-q" |} ] ]};
     Sim.task_definitions :=
       {[ task_arn := [ container ] ]};
     Sim.objects := ∅;
     Sim.forbidden := ∅;
     Sim.read_only := ∅;
     Sim.files := {[ "/mnt/data/dive1/clip1.mp4" := 3000000000;
                     "/Volumes/M3/dive2/clip2.mp4" := 1500000 ]};
     Sim.queues := {[ "demo-video-q" := [] ]};
     Sim.job_outcome := {| ProcessingJobStatus := "Completed"; FailureReason := None |};
     Sim.submitted := [] |}.

Definition config : Config :=
  {| config_path := "config.ini";
     parser :=
       {[ ("tags", "organization") := "mbari";
          ("tags", "project_number") := "902005";
          ("tags", "stage") := "prod";
          ("tags", "application") := "detection";
          ("aws", "sagemaker_arn") := "arn:aws:iam::123456789012:role/DeepSeaAI";
          ("aws", "deepsort_ecr") := "mbari/deepsea-yolov5:1.1.2";
          ("aws", "strongsort_ecr") := "mbari/strongsort-yolov5:1.10.0";
          ("aws", "deepsort_track_config_s3") := "s3://902005-public/models/deep_sort_benthic.yaml";
          ("aws", "strongsort_track_config_s3") := "s3://902005-public/models/strong_sort_benthic.yaml" ]} |}.

Definition clip1 : Path := {| anchor := "/"; parts := ["mnt"; "data"; "dive1"; "clip1.mp4"] |}.
Definition clip2 : Path := {| anchor := "/"; parts := ["Volumes"; "M3"; "dive2"; "clip2.mp4"] |}.
Definition missing_clip : Path := {| anchor := "/"; parts := ["mnt"; "data"; "dive1"; "gone.mp4"] |}.

(** [urlparse("s3://bucket/in/")] *)
Definition bucket_in : ParseResult := {| netloc := "bucket"; path := "/in/" |}.

Definition tags : list Tag :=
  [ {| Key := "mbari:project-number"; Value := "902005" |};
    {| Key := "mbari:owner"; Value := "dcline" |} ].

(** In the examples a float is held as the text Python prints for it. *)
Definition repr_float (x : string) : string := x.

Definition quote : string := String (ascii_of_nat 34) "".
Definition newline : string := String (ascii_of_nat 10) "".

(** [json.dumps(d, indent=4)] on a flat dictionary whose strings need no
    escaping *)
Definition json_dumps (d : list (string * jvalue string)) : string :=
  "{" +:+ newline +:+
  PyStr.join ("," +:+ newline)
    ((λ kv, "    " +:+ quote +:+ kv.1 +:+ quote +:+ ": " +:+
            match kv.2 with
            | JStr s => quote +:+ s +:+ quote
            | JNum x => x
            end) <$> d)
  +:+ newline +:+ "}".

(** A stand-in for [upload_tag.get_prefix]: the directory of the file
    as [training_data] cuts it. *)
Definition get_prefix (v : Path) : string := PyStr.lstrip "/" (prefix_path_of v).

Definition code_path : Path :=
  {| anchor := "/"; parts := ["opt"; "deepsea-ai"; "deepsea_ai"; "commands"; "process.py"] |}.

Definition resources : gmap string string :=
  {[ "CLUSTER" := "demo-cluster"; "VIDEO_QUEUE" := "demo-video-q";
     "VIDEO_BUCKET" := "demo-in"; "TRACK_BUCKET" := "demo-out";
     "PROCESSOR" := "yolov5-proc" ]}.

(** What [get_resources] finds for [demo-cluster] *)
Definition resources_found : gmap string string :=
  {[ "CLUSTER" := "demo-cluster"; "ASG" := "demo-asg"; "VIDEO_QUEUE" := "demo-video-q";
     "VIDEO_BUCKET" := "demo-in"; "TRACK_BUCKET" := "demo-out";
     "PROCESSOR" := "yolov5-proc" ]}.

(** A world whose store already holds two videos under [in/] *)
Definition stocked : Sim.World :=
  Sim.with_objects
    {[ ("bucket", "in/dive1/clip1.mp4") := {| Sim.content_length := 10; Sim.tagging := [] |};
       ("bucket", "in/dive1/clip2.mp4") := {| Sim.content_length := 20; Sim.tagging := [] |} ]}
    world.

(** The same world with a processing job that fails *)
Definition failing : Sim.World :=
  {| Sim.creds := Sim.creds stocked; Sim.identity := Sim.identity stocked;
     Sim.region := Sim.region stocked; Sim.environ := Sim.environ stocked;
     Sim.clock := Sim.clock stocked; Sim.stacks := Sim.stacks stocked;
     Sim.task_definitions := Sim.task_definitions stocked;
     Sim.objects := Sim.objects stocked; Sim.forbidden := Sim.forbidden stocked;
     Sim.read_only := Sim.read_only stocked; Sim.files := Sim.files stocked;
     Sim.queues := Sim.queues stocked;
     Sim.job_outcome := {| ProcessingJobStatus := "Failed";
                           FailureReason := Some "AlgorithmError: out of memory" |};
     Sim.submitted := Sim.submitted stocked |}.

(** The world seen with credentials that are refused, or expired *)
Definition with_creds (c : Sim.credentials) : Sim.World :=
  {| Sim.creds := c; Sim.identity := Sim.identity world;
     Sim.region := Sim.region world; Sim.environ := Sim.environ world;
     Sim.clock := Sim.clock world; Sim.stacks := Sim.stacks world;
     Sim.task_definitions := Sim.task_definitions world;
     Sim.objects := Sim.objects world; Sim.forbidden := Sim.forbidden world;
     Sim.read_only := Sim.read_only world; Sim.files := Sim.files world;
     Sim.queues := Sim.queues world; Sim.job_outcome := Sim.job_outcome world;
     Sim.submitted := Sim.submitted world |}.

(** The world with a bucket that refuses uploads and an object whose
    probe is refused *)
Definition locked : Sim.World :=
  {| Sim.creds := Sim.creds world; Sim.identity := Sim.identity world;
     Sim.region := Sim.region world; Sim.environ := Sim.environ world;
     Sim.clock := Sim.clock world; Sim.stacks := Sim.stacks world;
     Sim.task_definitions := Sim.task_definitions world;
     Sim.objects := Sim.objects world; Sim.forbidden := {[ ("bucket", "/in//mnt/data/dive1/gone.mp4") ]};
     Sim.read_only := {[ "bucket" ]}; Sim.files := Sim.files world;
     Sim.queues := Sim.queues world; Sim.job_outcome := Sim.job_outcome world;
     Sim.submitted := Sim.submitted world |}.

(** The scripted dispatch of the examples: deepsort over [s3://bucket/in/] *)
Definition scripted (w : Sim.World) : res unit * State Sim.World :=
  script_processor_run Sim.aws repr_float code_path bucket_in
    {| netloc := "bucket"; path := "/out/" |}
    {| netloc := "902005-public"; path := "/models/yolov5x.tar.gz" |}
    640 None 10 "ml.g4dn.xlarge" None false "0.01" "0.1" "deepsort" config tags
    (init_state w).

Definition prepared : Prepared :=
  {| p_arguments :=
       [ "dettrack"; "--conf-thres=0.01"; "--iou-thres=0.1"; "--model-size=640";
         "--model-s3=s3://902005-public/models/yolov5x.tar.gz";
         "--config-s3=s3://902005-public/models/deep_sort_benthic.yaml" ];
     p_script_processor :=
       {| command := ["python3"];
          image_uri := "123456789012.dkr.ecr.us-west-2.amazonaws.com/mbari/deepsea-yolov5:1.1.2";
          role := "arn:aws:iam::123456789012:role/DeepSeaAI";
          instance_count := 1;
          base_job_name := "deepsort-yolov5-dcline";
          instance_type := "ml.g4dn.xlarge";
          volume_size_in_gb := 10;
          max_runtime_in_seconds := 172800;
          sp_tags := tags |};
     p_base_job_name := "deepsort-yolov5-dcline";
     p_processor := "deepsea-yolov5:1.1.2";
     p_videos := ["dive1/clip1.mp4"; "dive1/clip2.mp4"] |}.

(** The state of the scripted dispatch when its lookups are done *)
Definition looked_up (w : Sim.World) : State Sim.World :=
  put_state w empty_cache
    [ (DEBUG, PyStr.repr_list (p_arguments prepared));
      (INFO, "Found account 123456789012");
      (INFO, "Found region us-west-2");
      (INFO, "Start script processor for inputs s3://bucket/in/");
      (DEBUG, "['in/dive1/clip1.mp4', 'in/dive1/clip2.mp4']") ]
    [GetCallerIdentity; GetCallerIdentity; RegionName; ObjectsFilter "bucket" "in/"]
    (init_state w).

End Demo.

(** The simulated services with a processing service that is down:
    [run] raises instead of returning. *)
Module Outage.

Definition run_error : exn :=
  OtherError "UnexpectedStatusException" "Error for Processing job: Failed".

Definition aws : AWS Sim.World Z :=
  {| sts_get_caller_identity := sts_get_caller_identity Sim.aws;
     session_region_name := session_region_name Sim.aws;
     os_environ := os_environ Sim.aws;
     datetime_utcnow := datetime_utcnow Sim.aws;
     cf_list_stack_resources := cf_list_stack_resources Sim.aws;
     ecs_describe_task_definition := ecs_describe_task_definition Sim.aws;
     s3_object_load := s3_object_load Sim.aws;
     open_rb := open_rb Sim.aws;
     s3_upload_fileobj := s3_upload_fileobj Sim.aws;
     s3_put_object_tagging := s3_put_object_tagging Sim.aws;
     bucket_size := bucket_size Sim.aws;
     s3_objects_filter := s3_objects_filter Sim.aws;
     processor_run := λ _ _ w, (Raise run_error, w);
     processor_describe := processor_describe Sim.aws;
     sqs_get_queue_by_name := sqs_get_queue_by_name Sim.aws;
     sqs_send_message := sqs_send_message Sim.aws |}.

End Outage.

(** ** The job cache after a sequence of writes *)

(** The cache after [set_media job v s] for every [v] of a list *)
Definition cache_set_medias (job : string) (videos : list string) (s : JobStatus)
    (c : JobCache) : JobCache :=
  foldl (λ c v, cache_set_media job v s c) c videos.

(** The calls of [mark_all] *)
Definition mark_calls (job processor : string) (videos : list string) (s : JobStatus)
    : list call :=
  SetJob job processor videos s :: ((λ v, SetMedia job v s) <$> videos).

Definition cache_mark_all (job processor : string) (videos : list string) (s : JobStatus)
    (c : JobCache) : JobCache :=
  cache_set_medias job videos s (cache_set_job job processor videos s c).

(** ** Vocabulary of the statements *)

(** The state with more lines in the log *)
Definition with_log {W} (l : list (level * string)) (st : State W) : State W :=
  {| world := world st; cache := cache st; log := log st ++ l;
     stdout := stdout st; trace := trace st |}.

(** The state after some service calls: the world they left, what they
    printed and the calls themselves *)
Definition record_calls {W} (w : W) (out : list string) (calls : list call) (st : State W)
    : State W :=
  {| world := w; cache := cache st; log := log st;
     stdout := stdout st ++ out; trace := trace st ++ calls |}.

Definition banner : string :=
  "Reduce your upload speed by running ' aws configure set default.s3.max_bandwidth 62MB/s'".

(** The tagging call that ends every iteration of the upload loops *)
Definition tagging_call {W F} (aws : AWS W F) (bucket target_prefix : string) (tags : list Tag)
    : M W unit :=
  invoke (PutObjectTagging bucket target_prefix tags)
         (s3_put_object_tagging aws bucket target_prefix tags).

(** The calls that only read: identity, region, listing of a prefix. *)
Definition is_lookup (c : call) : bool :=
  match c with
  | GetCallerIdentity | RegionName | ObjectsFilter _ _ => true
  | _ => false
  end.

Definition is_cache_write (c : call) : bool :=
  match c with
  | SetJob _ _ _ _ | SetMedia _ _ _ => true
  | _ => false
  end.

(** A computation that leaves the job cache alone and makes only
    lookups *)
Definition quiet {W A} (m : M W A) : Prop :=
  ∀ st r st', m st = (r, st') →
    cache st' = cache st
    ∧ ∃ calls, trace st' = trace st ++ calls ∧ Forall (λ c, is_lookup c = true) calls.

(** A computation that leaves the job cache alone and makes only calls
    of a given kind *)
Definition calls_only {W A} (P : call → Prop) (m : M W A) : Prop :=
  ∀ st r st', m st = (r, st') →
    cache st' = cache st
    ∧ ∃ calls, trace st' = trace st ++ calls ∧ Forall P calls.

(** What a computation promises about the value it returns *)
Definition returns {W A} (m : M W A) (Q : A → Prop) : Prop :=
  ∀ st a st', m st = (Ok a, st') → Q a.

(** A write of the given status to the job cache *)
Definition writes_status (s : JobStatus) (c : call) : bool :=
  match c with
  | SetJob _ _ _ s' | SetMedia _ _ s' => bool_decide (s' = s)
  | _ => false
  end.

(** What can follow the container run in the trace of a scripted
    dispatch: nothing when the run or a later call raises, the terminal
    writes once the status was read. *)
Inductive scripted_tail (sp : ScriptProcessor) (success failed : list call)
    : list call → Prop :=
| tail_run_raised : scripted_tail sp success failed []
| tail_status_raised : scripted_tail sp success failed [ProcessorDescribe sp]
| tail_success : scripted_tail sp success failed (ProcessorDescribe sp :: success)
| tail_reason_raised :
    scripted_tail sp success failed [ProcessorDescribe sp; ProcessorDescribe sp]
| tail_failed :
    scripted_tail sp success failed (ProcessorDescribe sp :: ProcessorDescribe sp :: failed).

(** The calls of a scripted dispatch after its lookups: none, or the
    RUNNING writes, the container run, and what follows it. *)
Definition scripted_shape (rest : list call) : Prop :=
  rest = [] ∨
  ∃ job processor videos sp req tail,
    rest = mark_calls job processor videos RUNNING ++ ProcessorRun sp req :: tail
    ∧ scripted_tail sp (mark_calls job processor videos SUCCESS)
                       (mark_calls job processor videos FAILED) tail.

(** The calls of a queued submission that returns *)
Definition queued_calls (queue_name queue body group_id job cluster video : string)
    : list call :=
  [ GetQueueByName queue_name; UtcNow; SendMessage queue body group_id;
    SetJob job cluster [video] QUEUED; SetMedia job video QUEUED ].

(** The body of the loop of [video_data] *)
Definition video_body {W F} (aws : AWS W F) (input_s3 : ParseResult) (tags : list Tag)
    (v : Path) : M W unit :=
  let target_prefix := target_prefix_of input_s3 v in
  upload_and_tag aws v (netloc input_s3) target_prefix tags
    ("Uploading " +:+ as_posix v +:+ " to s3://" +:+ netloc input_s3 +:+ "/" +:+ target_prefix +:+ "...")
    ("Found s3://" +:+ netloc input_s3 +:+ "/" +:+ target_prefix +:+ " ...skipping upload")
    (λ _, "error in uploading to s3").

(** What a run of [video_data] prints and calls when every object is
    already stored *)
Definition found_lines (input_s3 : ParseResult) (videos : list Path) : list string :=
  (λ v, "Found s3://" +:+ netloc input_s3 +:+ "/" +:+ target_prefix_of input_s3 v
        +:+ " ...skipping upload") <$> videos.

Definition probe_and_tag_calls (input_s3 : ParseResult) (tags : list Tag) (videos : list Path)
    : list call :=
  concat ((λ v, [ ObjectLoad (netloc input_s3) (target_prefix_of input_s3 v);
                  PutObjectTagging (netloc input_s3) (target_prefix_of input_s3 v) tags ])
          <$> videos).

(** An object of the simulated store that carries a given tag set *)
Definition tagged (w : Sim.World) (bucket k : string) (tags : list Tag) : Prop :=
  ∃ o, Sim.objects w !! (bucket, k) = Some o ∧ Sim.tagging o = tags.

(** [ 'AWS::ECS::TaskDefinition' in r['ResourceType'] ] *)
Definition is_task_definition (r : StackResourceSummary) : bool :=
  PyStr.contains "AWS::ECS::TaskDefinition" (ResourceType r).

(** The resources that do not name a task definition only ever set
    [ASG]. *)
Definition scan_others (summaries : list StackResourceSummary) (m : gmap string string)
    : gmap string string :=
  foldl (λ m r, if PyStr.contains "AWS::AutoScaling::AutoScalingGroup" (ResourceType r)
                then <["ASG" := PhysicalResourceId r]> m else m) m summaries.

(** A resource map that holds every required key *)
Definition complete (m : gmap string string) : Prop :=
  ∀ k, k ∈ key → is_Some (m !! k).

(** ** Definitions that follow the specification's words *)

(** Tag validation as the specification words it: every character of
    the value is in the allowed class. *)
Fixpoint spec_value_allowed (value : string) : bool :=
  match value with
  | EmptyString => true
  | String c rest => bool_decide (String c "" ∈ allowed) && spec_value_allowed rest
  end.

(** A byte count expressed in gigabytes, rounded like the source rounds. *)
Definition size_in_gb (size_bytes : Z) : Z :=
  np_round (Qmake size_bytes 1000000000).

Definition volumes_clip : Path :=
  {| anchor := "/"; parts := ["Volumes"; "data"; "dive1"; "clip1.mp4"] |}.

(** ** More vocabulary *)

(** The key [training_data] gives a file under a prefix:
    [f'{prefix_path}/{config.default_training_prefix}/{d.name}'] *)
Definition training_key (prefix_path : string) (d : Path) : string :=
  prefix_path +:+ "/" +:+ default_training_prefix +:+ "/" +:+ name d.

(** A call of an upload loop for one of the files of [data], stored
    under the key [key_of] gives it *)
Definition concerns (bucket : string) (tags : list Tag) (key_of : Path → string)
    (data : list Path) (c : call) : Prop :=
  ∃ d, d ∈ data
       ∧ c ∈ [ ObjectLoad bucket (key_of d); OpenRb (as_posix d);
               UploadFileobj bucket (key_of d); PutObjectTagging bucket (key_of d) tags ].

(** [urlparse(f's3://{input.netloc}/{prefix_path}/{config.default_training_prefix}/')] *)
Definition training_output (input : ParseResult) (prefix_path : string) : ParseResult :=
  {| netloc := netloc input;
     path := "/" +:+ prefix_path +:+ "/" +:+ default_training_prefix +:+ "/" |}.

(** The arguments of a container run that set a given option *)
Definition option_values (opt : string) (arguments : list string) : list string :=
  List.filter (PyStr.startswith opt) arguments.

(** ** config/config.py: the search for videos *)

(** [name.rfind('.')] *)
Fixpoint rfind_dot (s : string) : option nat :=
  match s with
  | EmptyString => None
  | String c rest =>
      match rfind_dot rest with
      | Some i => Some (S i)
      | None => if decide (c = "."%char) then Some O else None
      end
  end.

(** [Path.suffix] of [pathlib]: the name from its last dot on, when that
    dot is neither its first nor its last character. *)
Definition suffix (p : Path) : string :=
  let n := name p in
  match rfind_dot n with
  | Some i =>
      if ((0 <? i) && (i <? String.length n - 1))%nat
      then String.substring i (String.length n - i) n
      else ""
  | None => ""
  end.

Definition vid_formats : list string :=
  [".mov"; ".avi"; ".mp4"; ".mpg"; ".mpeg"; ".m4v"; ".wmv"; ".mkv"].

Section CheckVideos.
Context {W : Type}.
(** [str.lower] *)
Context (lower : string → string).
(** [Path.is_dir()] and [Path.glob("**/*")], which read the file system *)
Context (is_dir : Path → W → bool) (glob : Path → W → list Path).

(** The inner function [search] of [check_videos] *)
Definition search (excludes : list string) (x : Path) : bool :=
  if bool_decide (excludes ≠ []) then
    let found := (λ e, PyStr.contains e (name x)) <$> excludes in
    bool_decide (true ∉ found)
    && bool_decide (lower (suffix x) ∈ vid_formats)
    && negb (PyStr.contains "._" (name x))
  else
    bool_decide (lower (suffix x) ∈ vid_formats) && negb (PyStr.contains "._" (name x)).

(** [Config.check_videos]; a failed [assert] raises [AssertionError]. *)
Definition check_videos (input_path : Path) (exclude : list string) : M W (list Path) :=
  let excludes := exclude in
  (if (0 <? length excludes)%nat
   then logger INFO ("Excluding any video file or directory that contains "
                     +:+ PyStr.repr_list excludes)
   else logger INFO "No video file exclusions specified");;
  videos ← (λ st,
    (Ok (if is_dir input_path (world st)
         then List.filter (search excludes) (glob input_path (world st))
         else if search excludes input_path then [input_path] else []), st));
  let num_videos := length videos in
  logger INFO ("Found " +:+ pretty num_videos +:+ " videos to process");;
  (if bool_decide (num_videos = 0%nat)
   then logger ERROR ("No videos found in " +:+ as_posix input_path)
   else mret ());;
  (if (0 <? num_videos)%nat then mret ()
   else raise (OtherError "AssertionError" "No videos to process"));;
  mret videos.

End CheckVideos.

Global Instance Path_eq_dec : EqDecision Path.
Proof. solve_decision. Defined.

(** A file system for the examples: one directory with four entries;
    names are lowered letter by letter in ASCII. *)
Module Disk.

Definition lower_ascii (c : ascii) : ascii :=
  let n := nat_of_ascii c in
  if ((65 <=? n) && (n <=? 90))%nat then ascii_of_nat (n + 32) else c.

Fixpoint lower (s : string) : string :=
  match s with
  | EmptyString => EmptyString
  | String c rest => String (lower_ascii c) (lower rest)
  end.

Definition dive : Path := {| anchor := "/"; parts := ["data"; "dive_raw"] |}.

Definition entries : list Path :=
  [ {| anchor := "/"; parts := ["data"; "dive_raw"; "clip1.MP4"] |};
    {| anchor := "/"; parts := ["data"; "dive_raw"; "._clip1.MP4"] |};
    {| anchor := "/"; parts := ["data"; "dive_raw"; "notes.txt"] |};
    {| anchor := "/"; parts := ["data"; "dive_raw"; "raw_clip2.mov"] |} ].

Definition is_dir (p : Path) (w : Sim.World) : bool := bool_decide (p = dive).
Definition glob (p : Path) (w : Sim.World) : list Path :=
  if bool_decide (p = dive) then entries else [].

End Disk.

(** The candidates [check_videos] looks at *)
Definition candidates {W} (is_dir : Path → W → bool) (glob : Path → W → list Path)
    (input_path : Path) (w : W) : list Path :=
  if is_dir input_path w then glob input_path w else [input_path].

(** ** __main__.py: the [ecsprocess] command *)

(** A call to the GraphQL database of [deepsea_ai.database], which is
    not among the sources: it runs on the world and is not among the
    recorded calls. *)
Definition unrecorded {W A} (op : W → res A * W) : M W A := λ st,
  let '(r, w') := op (world st) in
  (r, {| world := w'; cache := cache st; log := log st; stdout := stdout st;
         trace := trace st |}).

(** [resources[k]], where [resources] is what [get_resources] returned:
    a dictionary, or [None] *)
Definition subscript {W} (resources : option (gmap string string)) (k : string)
    : M W string :=
  match resources with
  | Some d => dict_get d k
  | None => raise (TypeError "'NoneType' object is not subscriptable")
  end.

Section BatchProcess.
Context {W F float : Type} (aws : AWS W F).
Context (json_dumps : list (string * jvalue float) → string).
Context (get_prefix : Path → string).
Context (lower : string → string).
Context (is_dir : Path → W → bool) (glob : Path → W → list Path).
(** [Path(input)] and [urlparse(url)] of the standard library *)
Context (Path_of : string → Path) (urlparse : string → ParseResult).
(** [len(database.execute(queries.GET_MEDIA_IN_JOB, processing_job_name=...,
    media_name=...)['data']['mediaInJob'])] for the client of an endpoint *)
Context (media_in_job : string → string → string → W → res nat * W).

(** The loop of [batchprocess_command] over the videos; [database] is
    the endpoint of the client when [--check] was given, and the result
    is [total_submitted]. *)
Fixpoint submit_loop (videos : list Path) (database : option string)
    (resources : option (gmap string string)) (job user_name : string) (tags : list Tag)
    (upload clean dry_run : bool) (conf_thres iou_thres : float) (total_submitted : nat)
    : M W nat :=
  match videos with
  | [] => mret total_submitted
  | v :: rest =>
      loaded ←
        match database with
        | Some gql =>
            logger INFO ("Checking if " +:+ name v
                         +:+ " has already been processed and loaded into the database...");;
            processor ← subscript resources "PROCESSOR";
            n ← unrecorded (media_in_job gql (processor +:+ "-" +:+ job) (name v));
            if (0 <? n)%nat then
              logger INFO ("Video " +:+ name v
                           +:+ " has already been processed and loaded...skipping");;
              mret true
            else mret false
        | None => mret false
        end;
      (if upload && negb loaded then
         if dry_run then
           b ← subscript resources "VIDEO_BUCKET";
           logger INFO ("Dry run: Uploading " +:+ name v +:+ " to S3 bucket " +:+ b)
         else
           b ← subscript resources "VIDEO_BUCKET";
           video_data aws [v] (urlparse ("s3://" +:+ b)) tags
       else mret ());;
      total_submitted ←
        (if negb loaded then
           (if dry_run then
              p ← subscript resources "PROCESSOR";
              logger INFO ("Dry run: Submitting " +:+ name v +:+ " to " +:+ p
                           +:+ " for processing")
            else
              match resources with
              | Some d =>
                  batch_run aws json_dumps get_prefix d v job user_name clean
                    conf_thres iou_thres
              | None => raise (TypeError "'NoneType' object is not subscriptable")
              end);;
           mret (S total_submitted)
         else
           logger WARNING ("Video " +:+ name v
                           +:+ " has already been processed and loaded...skipping");;
           mret total_submitted);
      submit_loop rest database resources job user_name tags upload clean dry_run
        conf_thres iou_thres total_submitted
  end.

(** [__main__.batchprocess_command], from the line after [init(...)],
    which has returned [custom_config] *)
Definition batchprocess_command (custom_config : Config) (check upload clean : bool)
    (cluster job input : string) (exclude : list string) (conf_thres iou_thres : float)
    (dry_run : bool) : M W unit :=
  database ←
    (if check then
       logger WARNING ("Checking if video has been processed and loaded before sending off a job."
                       +:+ " Requires a deepsea-ai GraphQL endpoint");;
       gql ← config_call custom_config "database" "gql";
       mret (Some gql)
     else mret None);
  let input_path := Path_of input in
  resources ← get_resources aws cluster;
  user_name ← get_username aws;
  videos ← check_videos lower is_dir glob input_path exclude;
  tags ← get_tags aws custom_config
           ("Video uploaded from " +:+ input +:+ " by user " +:+ user_name +:+ " ");
  total_submitted ← submit_loop videos database resources job user_name tags upload clean
                      dry_run conf_thres iou_thres 0;
  processor ← subscript resources "PROCESSOR";
  logger INFO ("==== Submitted " +:+ pretty total_submitted +:+ " videos to " +:+ processor
               +:+ " for processing =====").

End BatchProcess.

(** The calls that only ask the cloud about the account, the time and
    the stack of a cluster *)
Definition asks_only (cluster : string) (c : call) : Prop :=
  c = GetCallerIdentity ∨ c = UtcNow ∨ c = ListStackResources cluster
  ∨ ∃ arn, c = DescribeTaskDefinition arn.

(** The warning of [batchprocess_command] under [--check] *)
Definition check_warning : string :=
  "Checking if video has been processed and loaded before sending off a job."
  +:+ " Requires a deepsea-ai GraphQL endpoint".

(** Stand-ins of the examples for the two constructors of the standard
    library and for the database: [Path(s)] of an absolute path without
    empty or dot components, [urlparse(url)] of an [s3://] URL without
    query or fragment, and a database that holds no media. *)
Module Inputs.

Definition Path_of (s : string) : Path :=
  {| anchor := if PyStr.startswith "/" s then "/" else "";
     parts := List.filter (λ c, negb (bool_decide (c = ""))) (PyStr.split "/" s) |}.

Definition urlparse (url : string) : ParseResult :=
  let rest := PyStr.last_item (PyStr.split "://" url) in
  let bucket := PyStr.first_item (PyStr.split "/" rest) in
  {| netloc := bucket;
     path := String.substring (String.length bucket)
               (String.length rest - String.length bucket) rest |}.

Definition media_in_job (gql processing_job_name media_name : string) (w : Sim.World)
    : res nat * Sim.World :=
  (Ok 0%nat, w).

(** A database that holds every media *)
Definition media_loaded (gql processing_job_name media_name : string) (w : Sim.World)
    : res nat * Sim.World :=
  (Ok 1%nat, w).

(** The configuration of the examples with a database endpoint *)
Definition config : Config :=
  {| config_path := config_path Demo.config;
     parser := <[("database", "gql") := "http://localhost:4000/graphql"]> (parser Demo.config) |}.

(** [ecsprocess] on the directory of the examples *)
Definition ecsprocess (check upload dry_run : bool) (cluster : string)
    (media : string → string → string → Sim.World → res nat * Sim.World)
    : res unit * State Sim.World :=
  batchprocess_command Sim.aws Demo.json_dumps Demo.get_prefix Disk.lower Disk.is_dir
    Disk.glob Path_of urlparse media config check upload true cluster "DiveV1"
    "/data/dive_raw" [] "0.01" "0.1" dry_run (init_state Demo.world).

End Inputs.

(** * Properties *)

(** ** Strings *)

Section StringFacts.

Lemma append_cons (c : ascii) (s t : string) : String c s +:+ t = String c (s +:+ t).
Proof. reflexivity. Qed.

Lemma append_empty_r (s : string) : s +:+ "" = s.
Proof. induction s as [|c s IH]; [reflexivity|]. rewrite append_cons. by f_equal. Qed.

Lemma append_assoc (s t u : string) : (s +:+ t) +:+ u = s +:+ (t +:+ u).
Proof.
  induction s as [|c s IH]; [reflexivity|].
  rewrite !append_cons. by f_equal.
Qed.

Lemma length_append (s t : string) :
  String.length (s +:+ t) = (String.length s + String.length t)%nat.
Proof.
  induction s as [|c s IH]; [reflexivity|].
  rewrite append_cons. simpl. by rewrite IH.
Qed.

Lemma startswith_split (p s : string) :
  PyStr.startswith p s = true → ∃ rest, s = p +:+ rest.
Proof.
  revert s. induction p as [|a p IH]; intros s H.
  - by exists s.
  - destruct s as [|b s]; [done|]. simpl in H.
    destruct (decide (a = b)) as [->|]; [|done].
    destruct (IH _ H) as [rest ->]. by exists rest.
Qed.

(** No occurrence of the separator: the split is the string itself. *)
Lemma split_go_none (sep s cur : string) :
  PyStr.contains sep s = false → PyStr.split_go sep s O cur = [cur +:+ s].
Proof.
  revert cur. induction s as [|c s IH]; intros cur H.
  - simpl. by rewrite append_empty_r.
  - simpl in H. apply orb_false_iff in H as [H1 H2].
    cbn [PyStr.split_go]. rewrite H1, IH by done.
    by rewrite append_assoc.
Qed.

(** The characters of a matched separator are skipped. *)
Lemma split_go_skip (sep t rest cur : string) :
  PyStr.split_go sep (t +:+ rest) (String.length t) cur = PyStr.split_go sep rest O cur.
Proof.
  induction t as [|a t IH]; [reflexivity|].
  rewrite append_cons. simpl. apply IH.
Qed.

(** The last piece of a split: the text after the last separator the
    scan finds, or the whole string when it finds none. *)
Lemma split_go_last (sep : string) (n : nat) :
  sep ≠ "" →
  ∀ s cur, (String.length s ≤ n)%nat →
    (PyStr.contains sep s = false ∧ PyStr.split_go sep s O cur = [cur +:+ s])
    ∨ (∃ pre rel, s = pre +:+ sep +:+ rel ∧ PyStr.contains sep rel = false
                  ∧ last (PyStr.split_go sep s O cur) = Some rel).
Proof.
  intros Hsep. induction n as [|n IH]; intros s cur Hlen.
  - destruct s; [|simpl in Hlen; lia].
    left. destruct sep; [done|]. split; [reflexivity|].
    simpl. by rewrite append_empty_r.
  - destruct s as [|c s].
    { left. destruct sep; [done|]. split; [reflexivity|].
      simpl. by rewrite append_empty_r. }
    destruct (PyStr.startswith sep (String c s)) eqn:Hst.
    + right. destruct (startswith_split _ _ Hst) as [rest Hrest].
      destruct sep as [|a sep']; [done|].
      rewrite append_cons in Hrest. injection Hrest as <- ->.
      cbn [PyStr.split_go]. rewrite Hst. cbn [String.length].
      replace (S (String.length sep') - 1)%nat with (String.length sep') by lia.
      rewrite split_go_skip.
      assert (Hrl : (String.length rest ≤ n)%nat).
      { simpl in Hlen. rewrite length_append in Hlen. lia. }
      destruct (IH rest "" Hrl) as [[Hno Heq]|(pre & rel & -> & Hno & Hlast)].
      * exists "", rest. rewrite Heq. by split_and!.
      * exists (String c sep' +:+ pre), rel. split_and!; [|done|].
        -- by rewrite !append_cons, append_assoc.
        -- destruct (PyStr.split_go _ _ _ _) eqn:E; [done|]. by rewrite last_cons, Hlast.
    + cbn [PyStr.split_go]. rewrite Hst.
      assert (Hrl : (String.length s ≤ n)%nat) by (simpl in Hlen; lia).
      destruct (IH s (cur +:+ String c "") Hrl) as [[Hno Heq]|(pre & rel & -> & Hno & Hlast)].
      * left. split.
        -- simpl. rewrite Hno. simpl in Hst. by rewrite Hst.
        -- rewrite Heq. by rewrite append_assoc.
      * right. exists (String c pre), rel. by rewrite append_cons.
Qed.

Lemma split_last (sep s : string) :
  sep ≠ "" →
  (PyStr.contains sep s = false ∧ PyStr.last_item (PyStr.split sep s) = s)
  ∨ (∃ pre rel, s = pre +:+ sep +:+ rel ∧ PyStr.contains sep rel = false
                ∧ PyStr.last_item (PyStr.split sep s) = rel).
Proof.
  intros Hsep. unfold PyStr.last_item, PyStr.split.
  destruct (split_go_last sep (String.length s) Hsep s "" (le_n _))
    as [[Hno Heq]|(pre & rel & Heq & Hno & Hlast)].
  - left. by rewrite Heq.
  - right. exists pre, rel. by rewrite Hlast.
Qed.

End StringFacts.

(** ** Target keys of uploads *)

(** C7, as stated, fails: the scenario of the specification.  The file
    [/mnt/data/dive1/clip1.mp4] sent to [s3://bucket/in/] gets the key
    [/in//mnt/data/dive1/clip1.mp4]: no mount root [/mnt/data] is known
    to the code, and the path of the destination keeps its slashes. *)
Lemma target_prefix_scenario_counterexample :
  as_posix Demo.clip1 = "/mnt/data/dive1/clip1.mp4"
  ∧ target_prefix_of Demo.bucket_in Demo.clip1 = "/in//mnt/data/dive1/clip1.mp4"
  ∧ target_prefix_of Demo.bucket_in Demo.clip1 ≠ "in/dive1/clip1.mp4".
Proof. by vm_compute. Qed.

(** C7, amended: the target key of a file is the path of the
    destination, then the directory of the file cut after the last
    ["Volumes/"] (the whole directory when it has none), a slash and the
    file name.  ["Volumes/"] is the only mount root the code strips:
    [/Volumes/data/dive1/clip1.mp4] sent to [s3://bucket/in/] gets
    [/in/data/dive1/clip1.mp4]. *)
Theorem target_prefix_strips_volumes (input_s3 : ParseResult) (v : Path) :
  let dir := as_posix (parent v) in
  (∃ rel,
      target_prefix_of input_s3 v = path input_s3 +:+ rel +:+ "/" +:+ name v
      ∧ PyStr.contains "Volumes/" rel = false
      ∧ ((PyStr.contains "Volumes/" dir = false ∧ rel = dir)
         ∨ ∃ pre, dir = pre +:+ "Volumes/" +:+ rel))
  ∧ target_prefix_of Demo.bucket_in volumes_clip = "/in/data/dive1/clip1.mp4".
Proof.
  intros dir. split; [|by vm_compute].
  unfold target_prefix_of, prefix_path_of. fold dir.
  destruct (split_last "Volumes/" dir) as [[Hno Heq]|(pre & rel & Heq & Hno & Hlast)];
    [done| |].
  - exists dir. rewrite Heq. split_and!; [done|done|]. by left.
  - exists rel. rewrite Hlast. split_and!; [done|done|]. right. by exists pre.
Qed.

(** ** Size of the training data *)

(** [np.round(size_bytes/1e6)] of a whole number of megabytes is that
    number. *)
Lemma reported_size_megabytes (n : Z) : reported_size (n * 1000000) = n.
Proof.
  unfold reported_size, np_round.
  assert (Hq : Qeq (Qmake (n * 1000000) 1000000) (inject_Z n)).
  { unfold Qeq. simpl. lia. }
  assert (Hf : Qfloor (Qmake (n * 1000000) 1000000) = n).
  { rewrite (Qfloor_comp _ _ Hq). apply Qfloor_Z. }
  rewrite Hf.
  assert (H : Qcompare (Qminus (Qmake (n * 1000000) 1000000) (inject_Z n)) (1 # 2) = Lt).
  { unfold Qcompare, Qminus, Qplus, Qopp, inject_Z. simpl.
    apply Z.compare_lt_iff. lia. }
  by rewrite H.
Qed.

(** C8: the code reports megabytes where its docstring and the
    specification say gigabytes.  Three gigabytes of training data are
    reported as 3000. *)
Theorem training_data_reports_megabytes :
  Sim.files Demo.world !! as_posix Demo.clip1 = Some 3000000000
  ∧ (training_data Sim.aws [Demo.clip1] Demo.bucket_in Demo.tags (init_state Demo.world)).1
    = Ok ({| netloc := "bucket"; path := "/mnt/data/dive1/training/" |}, 3000)
  ∧ size_in_gb 3000000000 = 3
  ∧ reported_size 3000000000 = 3000.
Proof. by vm_compute. Qed.

(** ** Running the monad *)

Section MonadFacts.
Context {W : Type}.

Lemma bind_run {A B} (m : M W A) (f : A → M W B) st :
  (m ≫= f) st =
  match m st with
  | (Ok a, st') => f a st'
  | (Raise e, st') => (Raise e, st')
  end.
Proof. reflexivity. Qed.

Lemma invoke_run {A} (c : call) (op : W → res A * W) (st : State W) :
  invoke c op st =
  ((op (world st)).1,
   {| world := (op (world st)).2; cache := cache st; log := log st;
      stdout := stdout st; trace := trace st ++ [c] |}).
Proof. unfold invoke. by destruct (op (world st)). Qed.

Lemma for_each_set_media (job : string) (s : JobStatus) (videos : list string) (st : State W) :
  for_each videos (λ v, set_media job v s) st =
  (Ok (), {| world := world st; cache := cache_set_medias job videos s (cache st);
             log := log st; stdout := stdout st;
             trace := trace st ++ ((λ v, SetMedia job v s) <$> videos) |}).
Proof.
  revert st. induction videos as [|v videos IH]; intros st.
  - simpl. unfold mret, M_ret. destruct st. simpl. by rewrite app_nil_r.
  - cbn [for_each]. rewrite bind_run. unfold set_media at 1. rewrite IH. simpl.
    by rewrite <- app_assoc.
Qed.

Lemma mark_all_run (job processor : string) (videos : list string) (s : JobStatus)
    (st : State W) :
  mark_all job processor videos s st =
  (Ok (), {| world := world st; cache := cache_mark_all job processor videos s (cache st);
             log := log st; stdout := stdout st;
             trace := trace st ++ mark_calls job processor videos s |}).
Proof.
  unfold mark_all. rewrite bind_run. unfold set_job at 1. rewrite for_each_set_media.
  simpl. unfold mark_calls, cache_mark_all. by rewrite <- app_assoc.
Qed.

Lemma cache_set_medias_jobs job videos s c :
  jobs (cache_set_medias job videos s c) = jobs c.
Proof.
  revert c. induction videos as [|v videos IH]; intros c; [done|].
  simpl. by rewrite IH.
Qed.

Lemma cache_set_medias_lookup job videos s c v :
  medias (cache_set_medias job videos s c) !! (job, v) =
  if bool_decide (v ∈ videos) then Some s else medias c !! (job, v).
Proof.
  revert c. induction videos as [|x videos IH]; intros c; [done|].
  cbn [cache_set_medias foldl]. fold (cache_set_medias job videos s (cache_set_media job x s c)).
  rewrite IH. case_bool_decide as Hv.
  - rewrite bool_decide_eq_true_2; [done|]. by apply elem_of_cons; right.
  - simpl. destruct (decide (x = v)) as [->|Hne].
    + rewrite lookup_insert_eq. rewrite bool_decide_eq_true_2; [done|]. by apply elem_of_cons; left.
    + rewrite lookup_insert_ne by congruence.
      rewrite bool_decide_eq_false_2; [done|]. apply not_elem_of_cons. by split.
Qed.

End MonadFacts.

(** ** Tag validation *)

Lemma any_allowed_in_iff (value : string) :
  any_allowed_in value = true ↔ ∃ char, char ∈ allowed ∧ PyStr.contains char value = true.
Proof.
  unfold any_allowed_in. rewrite existsb_exists.
  split; intros (c & Hc & H); exists c; split; try done; by apply list_elem_of_In.
Qed.

(** A value that starts with an allowed character passes, whatever
    follows. *)
Lemma any_allowed_in_first (c : ascii) (rest : string) :
  String c "" ∈ allowed → any_allowed_in (String c rest) = true.
Proof.
  intros Hc. apply any_allowed_in_iff. exists (String c ""). split; [done|].
  simpl. by rewrite decide_True.
Qed.

(** The half of the claim that holds: a non-empty value made of allowed
    characters passes. *)
Lemma allowed_value_passes (value : string) :
  value ≠ "" → spec_value_allowed value = true → any_allowed_in value = true.
Proof.
  destruct value as [|c rest]; [done|]. intros _ H. simpl in H.
  apply andb_true_iff in H as [H _]. apply bool_decide_eq_true in H.
  by apply any_allowed_in_first.
Qed.

(** C2: the loop of [get_tags] rejects a value only when it holds no
    allowed character at all.  A description with a space, a hash and an
    exclamation mark is accepted and returned in the tag set; the empty
    value, which has no character outside the class, is rejected. *)
Theorem get_tags_accepts_special_characters :
  spec_value_allowed "dive #1 !" = false
  ∧ (get_tags Sim.aws Demo.config "dive #1 !" (init_state Demo.world)).1
    = Ok [ {| Key := "mbari:project-number"; Value := "902005" |};
           {| Key := "mbari:owner"; Value := "dcline" |};
           {| Key := "mbari:description"; Value := "dive #1 !" |};
           {| Key := "mbari:stage"; Value := "prod" |};
           {| Key := "mbari:application"; Value := "detection" |};
           {| Key := "mbari:deletion-date"; Value := "20230605T040506Z" |};
           {| Key := "mbari:created-by"; Value := "dcline" |} ]
  ∧ spec_value_allowed "" = true
  ∧ (get_tags Sim.aws Demo.config "" (init_state Demo.world)).1
    = Raise (TypeError "exceptions must derive from BaseException").
Proof. by vm_compute. Qed.

(** ** Queued submission *)

Lemma strftime_ignores_microsecond (d : datetime) (us : Z) :
  strftime {| year := year d; month := month d; day := day d; hour := hour d;
              minute := minute d; second := second d; microsecond := us |}
  = strftime d.
Proof. reflexivity. Qed.

Section Queued.
Context {W F float : Type} (aws : AWS W F).
Context (json_dumps : list (string * jvalue float) → string).
Context (get_prefix : Path → string).

(** C6: a queued submission publishes the six-field message under the
    group id made of the cluster name and the UTC time to the second,
    and leaves the job and the video QUEUED in the cache. *)
Theorem batch_run_publishes (resources : gmap string string) (video_path : Path)
    (job_name user_name : string) (clean : bool) (conf_thres iou_thres : float)
    (st : State W) (queue_name cluster queue : string) (now : datetime)
    (response : option string) (w1 w2 w3 : W) :
  let body :=
    json_dumps [ ("video", JStr (get_prefix video_path +:+ "/" +:+ name video_path));
                 ("clean", JStr (if clean then "True" else "False"));
                 ("user_name", JStr user_name);
                 ("job_name", JStr job_name);
                 ("conf_thres", JNum conf_thres);
                 ("iou_thres", JNum iou_thres) ] in
  let group_id :=
    cluster +:+ PyStr.zfill 4 (year now) +:+ PyStr.zfill 2 (month now)
    +:+ PyStr.zfill 2 (day now) +:+ "T" +:+ PyStr.zfill 2 (hour now)
    +:+ PyStr.zfill 2 (minute now) +:+ PyStr.zfill 2 (second now) +:+ "Z" in
  resources !! "VIDEO_QUEUE" = Some queue_name →
  resources !! "CLUSTER" = Some cluster →
  sqs_get_queue_by_name aws queue_name (world st) = (Ok queue, w1) →
  datetime_utcnow aws w1 = (now, w2) →
  sqs_send_message aws queue body group_id w2 = (Ok response, w3) →
  ∃ st',
    batch_run aws json_dumps get_prefix resources video_path job_name user_name clean
      conf_thres iou_thres st = (Ok (), st')
    ∧ world st' = w3
    ∧ trace st' = trace st ++
        [ GetQueueByName queue_name; UtcNow; SendMessage queue body group_id;
          SetJob job_name cluster [name video_path] QUEUED;
          SetMedia job_name (name video_path) QUEUED ]
    ∧ jobs (cache st') !! job_name = Some (cluster, [name video_path], QUEUED)
    ∧ medias (cache st') !! (job_name, name video_path) = Some QUEUED.
Proof.
  intros body group_id Hq Hc Hget Hnow Hsend.
  unfold batch_run, dict_get. rewrite Hq, Hc.
  unfold mbind, M_bind, mret, M_ret, invoke, logger, set_job, set_media. simpl.
  rewrite Hget. simpl. rewrite Hnow. simpl.
  unfold body, group_id in Hsend. unfold strftime, message_dict.
  rewrite Hsend. simpl.
  eexists. split; [reflexivity|]. simpl.
  split_and!; [done| |by rewrite lookup_insert_eq|by rewrite lookup_insert_eq].
  rewrite <- !app_assoc. reflexivity.
Qed.

End Queued.

Lemma batch_run_publishes_witness :
  ∃ st',
    batch_run Sim.aws Demo.json_dumps Demo.get_prefix Demo.resources Demo.clip1
      "DiveV1" "dcline" true "0.01" "0.1" (init_state Demo.world) = (Ok (), st')
    ∧ medias (cache st') !! ("DiveV1", "clip1.mp4") = Some QUEUED.
Proof.
  destruct (batch_run_publishes Sim.aws Demo.json_dumps Demo.get_prefix Demo.resources
              Demo.clip1 "DiveV1" "dcline" true "0.01" "0.1" (init_state Demo.world)
              "demo-video-q" "demo-cluster" "demo-video-q" (Sim.clock Demo.world)
              (Some "m0") Demo.world Demo.world
              (Sim.with_queues
                 (<["demo-video-q" :=
                      [(Demo.json_dumps
                          (message_dict Demo.get_prefix Demo.clip1 "DiveV1" "dcline" true "0.01" "0.1"),
                        "demo-cluster20230307T040506Z")]]> (Sim.queues Demo.world))
                 Demo.world))
    as (st' & Hrun & _ & _ & _ & Hmedia);
    [reflexivity | reflexivity | reflexivity | reflexivity | reflexivity |].
  exists st'. split; [exact Hrun | exact Hmedia].
Defined.

(** ** Resource resolution *)

Section Resolver.
Context {W F : Type} (aws : AWS W F).

(** One variable of the environment sets the keys its name contains. *)
Lemma scan_keys_lookup (e : EnvVar) (ks : list string) (m : gmap string string) (k : string) :
  foldl (λ resources k,
           if PyStr.contains k (env_name e) then <[k := env_value e]> resources
           else resources) m ks !! k
  = if bool_decide (k ∈ ks) && PyStr.contains k (env_name e) then Some (env_value e)
    else m !! k.
Proof.
  revert m. induction ks as [|x ks IH]; intros m; [done|].
  cbn [foldl]. rewrite IH. clear IH.
  destruct (decide (k ∈ ks)) as [Hin|Hin].
  - rewrite (bool_decide_eq_true_2 (k ∈ ks)) by done.
    rewrite (bool_decide_eq_true_2 (k ∈ x :: ks)) by (by apply elem_of_cons; right).
    simpl. destruct (PyStr.contains k (env_name e)) eqn:Hk; [done|].
    destruct (decide (x = k)) as [->|Hne].
    + by rewrite Hk.
    + destruct (PyStr.contains x (env_name e)); [|done]. by rewrite lookup_insert_ne.
  - rewrite (bool_decide_eq_false_2 (k ∈ ks)) by done. simpl.
    destruct (decide (x = k)) as [->|Hne].
    + rewrite (bool_decide_eq_true_2 (k ∈ k :: ks)) by (by apply elem_of_cons; left).
      simpl. destruct (PyStr.contains k (env_name e)); [|done]. by rewrite lookup_insert_eq.
    + rewrite (bool_decide_eq_false_2 (k ∈ x :: ks)); [|apply not_elem_of_cons; by split].
      simpl. destruct (PyStr.contains x (env_name e)); [|done]. by rewrite lookup_insert_ne.
Qed.

Lemma scan_variable_lookup (m : gmap string string) (e : EnvVar) (k : string) :
  scan_variable m e !! k
  = if bool_decide (k ∈ key) && PyStr.contains k (env_name e) then Some (env_value e)
    else m !! k.
Proof. apply scan_keys_lookup. Qed.

(** Keys outside the required ones are left alone. *)
Lemma scan_environment_other (environment : list EnvVar) (m : gmap string string) (k : string) :
  k ∉ key → scan_environment environment m !! k = m !! k.
Proof.
  intros Hk. revert m. induction environment as [|e environment IH]; intros m; [done|].
  unfold scan_environment in *. cbn [foldl]. rewrite IH, scan_variable_lookup.
  by rewrite (bool_decide_eq_false_2 (k ∈ key)).
Qed.

(** A required key is set exactly when the name of a variable contains
    it, or when it was set before. *)
Lemma scan_environment_required (environment : list EnvVar) (m : gmap string string)
    (k : string) :
  k ∈ key →
  is_Some (scan_environment environment m !! k)
  ↔ is_Some (m !! k) ∨ ∃ e, e ∈ environment ∧ PyStr.contains k (env_name e) = true.
Proof.
  intros Hk. revert m. induction environment as [|e environment IH]; intros m.
  - simpl. split; [by left|]. intros [?|(e & He & _)]; [done|]. by apply elem_of_nil in He.
  - unfold scan_environment in *. cbn [foldl]. rewrite IH, scan_variable_lookup.
    rewrite (bool_decide_eq_true_2 (k ∈ key)) by done. simpl.
    destruct (PyStr.contains k (env_name e)) eqn:Hc.
    + split; [|intros _; left; by eexists].
      intros _. right. exists e. split; [by apply elem_of_cons; left|done].
    + split.
      * intros [?|(e' & He' & Hc')]; [by left|]. right. exists e'.
        split; [by apply elem_of_cons; right|done].
      * intros [?|(e' & He' & Hc')]; [by left|]. right.
        apply elem_of_cons in He' as [->|He']; [congruence|]. by exists e'.
Qed.

Lemma scan_others_lookup (summaries : list StackResourceSummary) (m : gmap string string)
    (k : string) :
  k ≠ "ASG" → scan_others summaries m !! k = m !! k.
Proof.
  intros Hk. revert m. induction summaries as [|r summaries IH]; intros m; [done|].
  unfold scan_others in *. cbn [foldl]. rewrite IH.
  destruct (PyStr.contains _ _); [|done]. by rewrite lookup_insert_ne.
Qed.

Lemma scan_stack_app (before rest : list StackResourceSummary) (m : gmap string string)
    (st : State W) :
  Forall (λ r, is_task_definition r = false) before →
  scan_stack aws (before ++ rest) m st = scan_stack aws rest (scan_others before m) st.
Proof.
  intros Hb. revert m. induction Hb as [|r before Hr Hb IH]; intros m; [done|].
  cbn [app scan_stack]. unfold is_task_definition in Hr. rewrite Hr.
  rewrite IH. reflexivity.
Qed.

Lemma key_not_cluster (k : string) : k ∈ key → k ≠ "CLUSTER" ∧ k ≠ "ASG".
Proof.
  unfold key. intros Hk. repeat (apply elem_of_cons in Hk as [->|Hk]; [done|]).
  by apply elem_of_nil in Hk.
Qed.

Lemma cluster_not_key : "CLUSTER" ∉ key.
Proof. intros H. by destruct (key_not_cluster _ H). Qed.

(** The map keeps [CLUSTER] through the scan. *)
Lemma scan_stack_cluster (summaries : list StackResourceSummary) (m m' : gmap string string)
    (stack_name : string) (st st' : State W) :
  m !! "CLUSTER" = Some stack_name →
  scan_stack aws summaries m st = (Ok m', st') →
  m' !! "CLUSTER" = Some stack_name.
Proof.
  revert m. induction summaries as [|r summaries IH]; intros m Hm Hrun.
  - cbn in Hrun. by injection Hrun as <- <-.
  - cbn [scan_stack] in Hrun. destruct (PyStr.contains _ (ResourceType r)).
    + rewrite bind_run, invoke_run in Hrun.
      destruct (ecs_describe_task_definition aws _ _) as [[[|c cs]|e] w']; cbn in Hrun;
        try done.
      injection Hrun as <- <-. by rewrite scan_environment_other by apply cluster_not_key.
    + apply IH in Hrun; [done|]. destruct (PyStr.contains _ _); [|done].
      by rewrite lookup_insert_ne.
Qed.

(** C1, amended: the map [get_resources] returns always holds
    [CLUSTER]; a required key is in it exactly when the name of an
    environment variable of the first container of the first task
    definition contains that key, so the map can be partial; and when
    the listing names no task definition the result is still a map,
    with [CLUSTER] and none of the required keys, not the "no
    resources" result. *)
Theorem get_resources_map (stack_name : string) (st : State W) :
  (∀ m st', get_resources aws stack_name st = (Ok (Some m), st') →
            m !! "CLUSTER" = Some stack_name)
  ∧ (∀ summaries w1,
       cf_list_stack_resources aws stack_name (world st) = (Ok summaries, w1) →
       Forall (λ r, is_task_definition r = false) summaries →
       ∃ m st', get_resources aws stack_name st = (Ok (Some m), st')
                ∧ m = scan_others summaries {[ "CLUSTER" := stack_name ]}
                ∧ ∀ k, k ∈ key → m !! k = None)
  ∧ (∀ before r after c containers w1 w2,
       cf_list_stack_resources aws stack_name (world st) = (Ok (before ++ r :: after), w1) →
       Forall (λ r, is_task_definition r = false) before →
       is_task_definition r = true →
       ecs_describe_task_definition aws (PhysicalResourceId r) w1 = (Ok (c :: containers), w2) →
       ∃ m st', get_resources aws stack_name st = (Ok (Some m), st')
                ∧ ∀ k, k ∈ key →
                    (is_Some (m !! k)
                     ↔ ∃ e, e ∈ environment c ∧ PyStr.contains k (env_name e) = true)).
Proof.
  split_and!.
  - intros m st' Hrun. unfold get_resources, try_except in Hrun.
    destruct (get_resources_try aws stack_name st) as [[r|e] st1] eqn:Htry.
    + injection Hrun as -> <-. unfold get_resources_try in Htry.
      rewrite bind_run, invoke_run in Htry.
      destruct (cf_list_stack_resources aws stack_name (world st)) as [[l|e] w1];
        cbn in Htry; [|done].
      rewrite bind_run in Htry.
      destruct (scan_stack aws l _ _) as [[m'|e] st2] eqn:Hscan; cbn in Htry; [|done].
      injection Htry as -> <-.
      eapply scan_stack_cluster; [|exact Hscan]. by rewrite lookup_singleton_eq.
    + unfold get_resources_except in Hrun. destruct e; try done.
      unfold mbind, M_bind, logger, raise, mret, M_ret in Hrun. cbn in Hrun.
      repeat (destruct (PyStr.contains _ _); cbn in Hrun; try done).
  - intros summaries w1 Hlist Hnone.
    unfold get_resources, try_except, get_resources_try.
    rewrite bind_run, invoke_run, Hlist. cbn [fst snd]. rewrite bind_run.
    rewrite <- (app_nil_r summaries), scan_stack_app by done. cbn.
    eexists _, _. split; [reflexivity|]. rewrite app_nil_r. split; [done|].
    intros k Hk. destruct (key_not_cluster k Hk) as [Hc Ha].
    rewrite scan_others_lookup by done. by rewrite lookup_singleton_ne.
  - intros before r after c containers w1 w2 Hlist Hbefore Hr Hdesc.
    unfold get_resources, try_except, get_resources_try.
    rewrite bind_run, invoke_run, Hlist. cbn [fst snd]. rewrite bind_run.
    rewrite scan_stack_app by done. cbn [scan_stack].
    unfold is_task_definition in Hr. rewrite Hr.
    rewrite bind_run, invoke_run. cbn [world]. rewrite Hdesc. cbn.
    eexists _, _. split; [reflexivity|].
    intros k Hk. destruct (key_not_cluster k Hk) as [Hc Ha].
    rewrite scan_environment_required by done.
    rewrite scan_others_lookup by done. rewrite lookup_singleton_ne by done.
    split; [intros [[? ?]|?]; [done|done]|by right].
Qed.

(** A failed listing is a failure of the [try] block. *)
Lemma get_resources_try_listing (stack_name : string) (st : State W) (e : exn) (w1 : W) :
  cf_list_stack_resources aws stack_name (world st) = (Raise e, w1) →
  get_resources_try aws stack_name st =
  (Raise e, {| world := w1; cache := cache st; log := log st; stdout := stdout st;
               trace := trace st ++ [ListStackResources stack_name] |}).
Proof.
  intros H. unfold get_resources_try. rewrite bind_run, invoke_run, H. reflexivity.
Qed.

(** C9, amended: a lookup that fails with an access-denied error logs
    the "verify credentials" message and raises; one that fails with an
    expired token logs the "re-authenticate" message and raises; any
    other [ClientError] is logged and turned into the "no resources"
    result [None]; an exception that is not a [ClientError] is passed
    on unchanged. *)
Theorem get_resources_failures (stack_name : string) (st st1 : State W) (e : exn) :
  get_resources_try aws stack_name st = (Raise e, st1) →
  access_denied_message ≠ token_expired_message
  ∧ match e with
    | ClientError code _ =>
        if PyStr.contains "AccessDenied" code then
          get_resources aws stack_name st =
          (Raise (PyException "Access denied"),
           with_log [(ERROR, str_exn e); (CRITICAL, access_denied_message)] st1)
        else if PyStr.contains "ExpiredToken" code then
          get_resources aws stack_name st =
          (Raise (PyException "Token expired"),
           with_log [(ERROR, str_exn e); (CRITICAL, token_expired_message)] st1)
        else
          get_resources aws stack_name st = (Ok None, with_log [(ERROR, str_exn e)] st1)
    | _ => get_resources aws stack_name st = (Raise e, st1)
    end.
Proof.
  intros Htry. split; [done|].
  unfold get_resources, try_except. rewrite Htry.
  destruct e as [c msg| | | | | |]; try reflexivity.
  unfold get_resources_except, mbind, M_bind, logger, raise, mret, M_ret, with_log. cbn.
  destruct (PyStr.contains "AccessDenied" c); cbn.
  - by rewrite <- app_assoc.
  - destruct (PyStr.contains "ExpiredToken" c); cbn; [|done].
    by rewrite <- app_assoc.
Qed.

End Resolver.

(** C1, as stated, fails.  The listing of [bare-cluster] names no task
    definition, and the result is a map with [CLUSTER] alone rather than
    "no resources"; the task definition of [demo-cluster] sets four of
    the six required keys, and the result is that partial map. *)
Lemma get_resources_partial_counterexample :
  Sim.stacks Demo.world !! "bare-cluster"
  = Some [ {| ResourceType := "AWS::SQS::Queue"; PhysicalResourceId := "bare-video-q" |} ]
  ∧ (get_resources Sim.aws "bare-cluster" (init_state Demo.world)).1
    = Ok (Some {[ "CLUSTER" := "bare-cluster" ]})
  ∧ (get_resources Sim.aws "demo-cluster" (init_state Demo.world)).1
    = Ok (Some Demo.resources_found)
  ∧ Demo.resources_found !! "TRACK_QUEUE" = None
  ∧ ¬ complete Demo.resources_found.
Proof.
  split_and!; try by vm_compute.
  intros H. destruct (H "TRACK_QUEUE") as [v Hv]; [|by vm_compute in Hv].
  unfold key. apply elem_of_cons. right. by apply elem_of_cons; left.
Qed.

Lemma get_resources_map_witness :
  (∃ m st', get_resources Sim.aws "bare-cluster" (init_state Demo.world) = (Ok (Some m), st')
            ∧ ∀ k, k ∈ key → m !! k = None)
  ∧ (∃ m st', get_resources Sim.aws "demo-cluster" (init_state Demo.world) = (Ok (Some m), st')
              ∧ (is_Some (m !! "PROCESSOR")
                 ↔ ∃ e, e ∈ environment Demo.container
                        ∧ PyStr.contains "PROCESSOR" (env_name e) = true)).
Proof.
  split.
  - destruct (get_resources_map Sim.aws "bare-cluster" (init_state Demo.world))
      as (_ & Hnone & _).
    destruct (Hnone [ {| ResourceType := "AWS::SQS::Queue";
                         PhysicalResourceId := "bare-video-q" |} ] Demo.world)
      as (m & st' & Hrun & _ & Hkeys); [reflexivity|repeat constructor|].
    by exists m, st'.
  - destruct (get_resources_map Sim.aws "demo-cluster" (init_state Demo.world))
      as (_ & _ & Hsome).
    destruct (Hsome [ {| ResourceType := "AWS::AutoScaling::AutoScalingGroup";
                         PhysicalResourceId := "demo-asg" |} ]
                    {| ResourceType := "AWS::ECS::TaskDefinition";
                       PhysicalResourceId := Demo.task_arn |}
                    [] Demo.container [] Demo.world Demo.world eq_refl)
      as (m & st' & Hrun & Hkeys); [repeat constructor|reflexivity|reflexivity|].
    exists m, st'. split; [exact Hrun|]. apply Hkeys.
    unfold key. by apply elem_of_cons; left.
Defined.

(** C9, as stated, fails: the listing of a stack that does not exist
    raises a [ValidationError], and [get_resources] returns [None]
    instead of passing the failure on. *)
Lemma get_resources_swallows_counterexample :
  (Sim.list_stack_resources "atlantis" Demo.world).1
  = Raise (ClientError "ValidationError" "Stack with id atlantis does not exist")
  ∧ (get_resources Sim.aws "atlantis" (init_state Demo.world)).1 = Ok None.
Proof. by vm_compute. Qed.

Lemma get_resources_failures_witness :
  get_resources Sim.aws "demo-cluster" (init_state (Demo.with_creds Sim.Denied))
  = (Raise (PyException "Access denied"),
     {| world := Demo.with_creds Sim.Denied; cache := empty_cache;
        log := [ (ERROR, "An error occurred (AccessDeniedException): not authorized to perform this operation");
                 (CRITICAL, "Access denied; verify you are using the correct AWS credentials") ];
        stdout := []; trace := [ListStackResources "demo-cluster"] |}).
Proof.
  pose proof (get_resources_failures Sim.aws "demo-cluster"
                (init_state (Demo.with_creds Sim.Denied)) _ _
                (get_resources_try_listing Sim.aws "demo-cluster"
                   (init_state (Demo.with_creds Sim.Denied)) _ _ eq_refl)) as [_ H].
  exact H.
Defined.

(** ** Upload and tagging *)

Section Upload.
Context {W F : Type} (aws : AWS W F).

Lemma video_data_single (v : Path) (input_s3 : ParseResult) (tags : list Tag) (st : State W) :
  video_data aws [v] input_s3 tags st =
  upload_and_tag aws v (netloc input_s3) (target_prefix_of input_s3 v) tags
    ("Uploading " +:+ as_posix v +:+ " to s3://" +:+ netloc input_s3 +:+ "/"
     +:+ target_prefix_of input_s3 v +:+ "...")
    ("Found s3://" +:+ netloc input_s3 +:+ "/" +:+ target_prefix_of input_s3 v
     +:+ " ...skipping upload")
    (λ _, "error in uploading to s3")
    (record_calls (world st) [banner] [] st).
Proof.
  unfold video_data. rewrite bind_run. unfold print at 1. cbn [for_each].
  rewrite bind_run. unfold record_calls, banner. rewrite app_nil_r.
  destruct (upload_and_tag _ _ _ _ _ _ _ _ _) as [[[]|e] st']; reflexivity.
Qed.

(** One iteration, by the answers of the services *)
Lemma upload_and_tag_run (local : Path) (bucket target_prefix : string)
    (tags : list Tag) (uploading found : string) (upload_failed : exn → string)
    (st : State W) :
  let probe := s3_object_load aws bucket target_prefix (world st) in
  let load := ObjectLoad bucket target_prefix in
  let open := OpenRb (as_posix local) in
  let send := UploadFileobj bucket target_prefix in
  let tag := tagging_call aws bucket target_prefix tags in
  upload_and_tag aws local bucket target_prefix tags uploading found upload_failed st =
  match probe.1 with
  | Ok _ => tag (record_calls probe.2 [found] [load] st)
  | Raise (ClientError c m) =>
      if decide (c = "404") then
        match open_rb aws (as_posix local) probe.2 with
        | (Ok f, w2) =>
            match s3_upload_fileobj aws f bucket target_prefix w2 with
            | (Ok _, w3) => tag (record_calls w3 [uploading] [load; open; send] st)
            | (Raise e, w3) =>
                tag (record_calls w3 [uploading; upload_failed e] [load; open; send] st)
            end
        | (Raise e, w2) => tag (record_calls w2 [upload_failed e] [load; open] st)
        end
      else (Raise (ClientError c m), record_calls probe.2 [] [load] st)
  | Raise e => (Raise e, record_calls probe.2 [] [load] st)
  end.
Proof.
  intros probe load open send tag.
  unfold upload_and_tag, tag, tagging_call, record_calls, try_except_else,
    try_except, mbind, M_bind, print, raise, invoke.
  cbn [world cache log stdout trace]. fold probe.
  destruct probe as [[[]|e] w1]; cbn [fst snd world cache log stdout trace].
  - by destruct (s3_put_object_tagging aws bucket target_prefix tags w1) as [[[]|e] w].
  - destruct e as [c m| | | | | |];
      cbn [fst snd world cache log stdout trace]; try by rewrite app_nil_r.
    destruct (decide (c = "404")) as [->|Hne];
      cbn [fst snd world cache log stdout trace]; [|by rewrite app_nil_r].
    destruct (open_rb aws (as_posix local) w1) as [[f|e] w2];
      cbn [fst snd world cache log stdout trace].
    + destruct (s3_upload_fileobj aws f bucket target_prefix w2) as [[[]|e] w3];
        cbn [fst snd world cache log stdout trace]; rewrite <- !app_assoc;
        by destruct (s3_put_object_tagging aws bucket target_prefix tags w3) as [[[]|e'] w].
    + rewrite <- !app_assoc.
      by destruct (s3_put_object_tagging aws bucket target_prefix tags w2) as [[[]|e'] w].
Qed.

(** C4, amended: a 404 from the probe leads to an upload attempt and
    never to a failure by itself; a probe error with any other code is
    passed on with no upload and no tagging; an error of the transfer
    (opening the file or sending it) is caught and printed, and the
    iteration goes on to the tagging; an error of the tagging is passed
    on as it is.  [video_data] on one file is one such iteration. *)
Theorem upload_and_tag_errors (local : Path) (bucket target_prefix : string)
    (tags : list Tag) (uploading found : string) (upload_failed : exn → string)
    (st : State W) :
  let probe := s3_object_load aws bucket target_prefix (world st) in
  let out := upload_and_tag aws local bucket target_prefix tags uploading found
               upload_failed st in
  let load := ObjectLoad bucket target_prefix in
  let open := OpenRb (as_posix local) in
  let send := UploadFileobj bucket target_prefix in
  let tag := tagging_call aws bucket target_prefix tags in
  (* the object is there *)
  (probe.1 = Ok () → out = tag (record_calls probe.2 [found] [load] st))
  (* not found: the upload is attempted *)
  ∧ (∀ msg, probe.1 = Raise (ClientError "404" msg) →
       ∀ f w2, open_rb aws (as_posix local) probe.2 = (Ok f, w2) →
         ∀ w3, s3_upload_fileobj aws f bucket target_prefix w2 = (Ok (), w3) →
           out = tag (record_calls w3 [uploading] [load; open; send] st))
  (* not found, and the transfer fails: printed, not raised *)
  ∧ (∀ msg, probe.1 = Raise (ClientError "404" msg) →
       ∀ f w2, open_rb aws (as_posix local) probe.2 = (Ok f, w2) →
         ∀ e w3, s3_upload_fileobj aws f bucket target_prefix w2 = (Raise e, w3) →
           out = tag (record_calls w3 [uploading; upload_failed e] [load; open; send] st))
  ∧ (∀ msg, probe.1 = Raise (ClientError "404" msg) →
       ∀ e w2, open_rb aws (as_posix local) probe.2 = (Raise e, w2) →
         out = tag (record_calls w2 [upload_failed e] [load; open] st))
  (* any other error of the probe *)
  ∧ (∀ e, probe.1 = Raise e → (∀ msg, e ≠ ClientError "404" msg) →
       out = (Raise e, record_calls probe.2 [] [load] st))
  (* an error of the tagging *)
  ∧ (∀ mid e w, s3_put_object_tagging aws bucket target_prefix tags (world mid) = (Raise e, w) →
       tag mid = (Raise e, record_calls w [] [PutObjectTagging bucket target_prefix tags] mid)).
Proof.
  intros probe out load open send tag.
  unfold out. rewrite upload_and_tag_run. fold probe load open send tag.
  split_and!.
  - intros ->. done.
  - intros msg -> f w2 -> w3 ->. by rewrite decide_True.
  - intros msg -> f w2 -> e w3 ->. by rewrite decide_True.
  - intros msg -> e w2 ->. by rewrite decide_True.
  - intros e -> Hne. destruct e as [c m| | | | | |]; try done.
    destruct (decide (c = "404")) as [->|]; [by destruct (Hne m)|done].
  - intros mid e w Htag. unfold tag, tagging_call. rewrite invoke_run, Htag.
    unfold record_calls. cbn [fst snd]. by rewrite app_nil_r.
Qed.

End Upload.

(** C4, as stated, fails.  The bucket refuses the upload of the first
    file: [upload_fileobj] raises, [video_data] prints a line and goes
    on to the tagging, and what reaches the caller is the tagging's
    [NoSuchKey], not the error of the transfer. *)
Lemma video_data_transfer_error_counterexample :
  (Sim.object_load "bucket" (target_prefix_of Demo.bucket_in Demo.clip1) Demo.locked).1
  = Raise (ClientError "404" "Not Found")
  ∧ (Sim.upload_fileobj 3000000000 "bucket" (target_prefix_of Demo.bucket_in Demo.clip1)
       Demo.locked).1
    = Raise (OtherError "S3UploadFailedError" "Access Denied")
  ∧ (video_data Sim.aws [Demo.clip1] Demo.bucket_in Demo.tags (init_state Demo.locked)).1
    = Raise (ClientError "NoSuchKey" "The specified key does not exist.")
  ∧ stdout (video_data Sim.aws [Demo.clip1] Demo.bucket_in Demo.tags (init_state Demo.locked)).2
    = [ banner;
        "Uploading /mnt/data/dive1/clip1.mp4 to s3://bucket//in//mnt/data/dive1/clip1.mp4...";
        "error in uploading to s3" ].
Proof. by vm_compute. Qed.

Lemma upload_and_tag_errors_witness :
  video_data Sim.aws [Demo.missing_clip] Demo.bucket_in Demo.tags (init_state Demo.locked)
  = (Raise (ClientError "403" "Forbidden"),
     record_calls Demo.locked [banner]
       [ObjectLoad "bucket" "/in//mnt/data/dive1/gone.mp4"] (init_state Demo.locked)).
Proof.
  rewrite video_data_single.
  destruct (upload_and_tag_errors Sim.aws Demo.missing_clip "bucket"
              (target_prefix_of Demo.bucket_in Demo.missing_clip) Demo.tags
              ("Uploading " +:+ as_posix Demo.missing_clip +:+ " to s3://" +:+ "bucket" +:+ "/"
               +:+ target_prefix_of Demo.bucket_in Demo.missing_clip +:+ "...")
              ("Found s3://" +:+ "bucket" +:+ "/"
               +:+ target_prefix_of Demo.bucket_in Demo.missing_clip +:+ " ...skipping upload")
              (λ _, "error in uploading to s3")
              (record_calls Demo.locked [banner] [] (init_state Demo.locked)))
    as (_ & _ & _ & _ & Hother & _).
  apply (Hother (ClientError "403" "Forbidden")); [reflexivity|done].
Defined.

(** ** Repeated uploads on the simulated store *)

Section Idempotence.

Lemma video_data_loop (videos : list Path) (input_s3 : ParseResult) (tags : list Tag)
    (st : State Sim.World) :
  video_data Sim.aws videos input_s3 tags st =
  for_each videos (video_body Sim.aws input_s3 tags) (record_calls (world st) [banner] [] st).
Proof.
  unfold video_data. rewrite bind_run. unfold print at 1.
  unfold record_calls, banner. by rewrite app_nil_r.
Qed.

Lemma with_objects_same (w : Sim.World) : Sim.with_objects (Sim.objects w) w = w.
Proof. by destruct w. Qed.

(** An iteration that returns has found or put the object, and has
    tagged it; objects tagged before stay tagged. *)
Lemma sim_step_ok (local : Path) (b k : string) (tags : list Tag) (u f : string)
    (uf : exn → string) (st st' : State Sim.World) :
  upload_and_tag Sim.aws local b k tags u f uf st = (Ok (), st') →
  ((b, k) ∉ Sim.forbidden (world st))
  ∧ Sim.forbidden (world st') = Sim.forbidden (world st)
  ∧ tagged (world st') b k tags
  ∧ (∀ b' k', tagged (world st) b' k' tags → tagged (world st') b' k' tags).
Proof.
  rewrite upload_and_tag_run.
  unfold tagging_call, invoke, record_calls.
  cbn [world cache log stdout trace s3_object_load s3_put_object_tagging open_rb
       s3_upload_fileobj Sim.aws].
  unfold Sim.object_load. cbn [fst snd]. case_bool_decide as Hf; [done|].
  assert (Hkeep : ∀ (objs : gmap (string * string) Sim.S3Object) o b' k',
             (∃ o', objs !! (b', k') = Some o' ∧ Sim.tagging o' = tags) →
             ∃ o', <[(b, k) := {| Sim.content_length := o; Sim.tagging := tags |}]> objs
                   !! (b', k') = Some o' ∧ Sim.tagging o' = tags).
  { intros objs o b' k' (o' & Ho' & Ht). destruct (decide ((b, k) = (b', k'))) as [<-|Hne].
    - eexists. by rewrite lookup_insert_eq.
    - exists o'. by rewrite lookup_insert_ne. }
  destruct (Sim.objects (world st) !! (b, k)) as [o|] eqn:Ho.
  - unfold Sim.put_object_tagging. rewrite Ho. intros [= <-].
    cbn [world Sim.forbidden Sim.with_objects].
    split_and!; [done|done| |].
    + unfold tagged. cbn [Sim.objects Sim.with_objects]. eexists. by rewrite lookup_insert_eq.
    + intros b' k' Ht. unfold tagged. cbn [Sim.objects Sim.with_objects]. by apply Hkeep.
  - rewrite decide_True by done. unfold Sim.open_file.
    destruct (Sim.files (world st) !! as_posix local) as [content|].
    + unfold Sim.upload_fileobj. case_bool_decide as Hro.
      * unfold Sim.put_object_tagging. by rewrite Ho.
      * unfold Sim.put_object_tagging. cbn [Sim.objects Sim.with_objects].
        rewrite lookup_insert_eq. intros [= <-].
        cbn [world Sim.forbidden Sim.with_objects Sim.content_length].
        split_and!; [done|done| |].
        -- unfold tagged. cbn [Sim.objects Sim.with_objects]. eexists.
           by rewrite lookup_insert_eq.
        -- intros b' k' Ht. unfold tagged. cbn [Sim.objects Sim.with_objects]. apply Hkeep.
           destruct Ht as (o' & Ho' & Ht). exists o'. split; [|done].
           rewrite lookup_insert_ne; [done|]. intros [= <- <-]. congruence.
    + unfold Sim.put_object_tagging. by rewrite Ho.
Qed.

(** An iteration on an object that is stored and tagged changes
    nothing and sends nothing. *)
Lemma sim_step_present (local : Path) (b k : string) (tags : list Tag) (u f : string)
    (uf : exn → string) (st : State Sim.World) :
  (b, k) ∉ Sim.forbidden (world st) →
  tagged (world st) b k tags →
  upload_and_tag Sim.aws local b k tags u f uf st =
  (Ok (), record_calls (world st) [f] [ObjectLoad b k; PutObjectTagging b k tags] st).
Proof.
  intros Hf (o & Ho & Ht).
  rewrite upload_and_tag_run.
  unfold tagging_call, invoke, record_calls.
  cbn [world cache log stdout trace s3_object_load s3_put_object_tagging open_rb
       s3_upload_fileobj Sim.aws].
  unfold Sim.object_load. cbn [fst snd]. rewrite bool_decide_eq_false_2 by done. rewrite Ho.
  unfold Sim.put_object_tagging. rewrite Ho.
  rewrite <- app_assoc. repeat f_equal.
  rewrite insert_id; [apply with_objects_same|].
  rewrite Ho. f_equal. destruct o. cbn in *. by subst.
Qed.

Lemma sim_loop_ok (videos : list Path) (input_s3 : ParseResult) (tags : list Tag)
    (st st' : State Sim.World) :
  for_each videos (video_body Sim.aws input_s3 tags) st = (Ok (), st') →
  Sim.forbidden (world st') = Sim.forbidden (world st)
  ∧ (∀ b k, tagged (world st) b k tags → tagged (world st') b k tags)
  ∧ ∀ v, v ∈ videos →
      ((netloc input_s3, target_prefix_of input_s3 v) ∉ Sim.forbidden (world st))
      ∧ tagged (world st') (netloc input_s3) (target_prefix_of input_s3 v) tags.
Proof.
  revert st. induction videos as [|x videos IH]; intros st Hrun.
  - cbn in Hrun. injection Hrun as <-. split_and!; [done|done|].
    intros v Hv. by apply elem_of_nil in Hv.
  - cbn [for_each] in Hrun. rewrite bind_run in Hrun.
    destruct (video_body Sim.aws input_s3 tags x st) as [[[]|e] st1] eqn:Hx; [|done].
    apply sim_step_ok in Hx as (Hnf & Hfs & Htag & Hkeep).
    apply IH in Hrun as (Hfs' & Hkeep' & Hall).
    split_and!.
    + by rewrite Hfs'.
    + intros b k Ht. by apply Hkeep', Hkeep.
    + intros v Hv. apply elem_of_cons in Hv as [->|Hv].
      * split; [done|]. by apply Hkeep'.
      * destruct (Hall v Hv) as [Hnf' Ht]. split; [by rewrite <- Hfs|done].
Qed.

Lemma sim_loop_present (videos : list Path) (input_s3 : ParseResult) (tags : list Tag)
    (st : State Sim.World) :
  (∀ v, v ∈ videos →
     ((netloc input_s3, target_prefix_of input_s3 v) ∉ Sim.forbidden (world st))
     ∧ tagged (world st) (netloc input_s3) (target_prefix_of input_s3 v) tags) →
  for_each videos (video_body Sim.aws input_s3 tags) st =
  (Ok (), record_calls (world st) (found_lines input_s3 videos)
            (probe_and_tag_calls input_s3 tags videos) st).
Proof.
  revert st. induction videos as [|x videos IH]; intros st Hall.
  - cbn. unfold mret, M_ret, record_calls. destruct st. cbn. by rewrite !app_nil_r.
  - cbn [for_each]. rewrite bind_run. unfold video_body at 1.
    destruct (Hall x) as [Hnf Ht]; [by apply elem_of_cons; left|].
    rewrite sim_step_present by done.
    rewrite IH.
    + unfold record_calls, found_lines, probe_and_tag_calls. cbn.
      by rewrite <- !app_assoc.
    + intros v Hv. cbn. apply Hall. by apply elem_of_cons; right.
Qed.

Lemma probe_and_tag_calls_no_transfer (input_s3 : ParseResult) (tags : list Tag)
    (videos : list Path) (c : call) :
  c ∈ probe_and_tag_calls input_s3 tags videos →
  (∀ file, c ≠ OpenRb file) ∧ (∀ b k, c ≠ UploadFileobj b k).
Proof.
  induction videos as [|x videos IH]; intros Hc.
  - by apply elem_of_nil in Hc.
  - unfold probe_and_tag_calls in Hc. cbn in Hc.
    apply elem_of_cons in Hc as [->|Hc]; [done|].
    apply elem_of_cons in Hc as [->|Hc]; [done|].
    by apply IH.
Qed.

(** C3: when a run of [video_data] has returned, every target object is
    stored with the full tag set and its probe answers; a second run
    over the same files then probes and tags each object, opens no
    file, sends no bytes and leaves the store, tags included, as it
    was. *)
Theorem video_data_twice (videos : list Path) (input_s3 : ParseResult) (tags : list Tag)
    (st st1 : State Sim.World) :
  video_data Sim.aws videos input_s3 tags st = (Ok (), st1) →
  (∀ v, v ∈ videos →
     ∃ o, Sim.objects (world st1) !! (netloc input_s3, target_prefix_of input_s3 v) = Some o
          ∧ Sim.tagging o = tags)
  ∧ (∀ v, v ∈ videos →
       (Sim.object_load (netloc input_s3) (target_prefix_of input_s3 v) (world st1)).1 = Ok ())
  ∧ ∃ st2,
      video_data Sim.aws videos input_s3 tags st1 = (Ok (), st2)
      ∧ world st2 = world st1
      ∧ trace st2 = trace st1 ++ probe_and_tag_calls input_s3 tags videos
      ∧ (∀ c, c ∈ probe_and_tag_calls input_s3 tags videos →
           (∀ file, c ≠ OpenRb file) ∧ (∀ b k, c ≠ UploadFileobj b k)).
Proof.
  intros Hrun. rewrite video_data_loop in Hrun.
  apply sim_loop_ok in Hrun as (Hfs & _ & Hall). cbn in Hfs.
  split; [intros v Hv; by destruct (Hall v Hv) as [_ ?]|].
  split.
  { intros v Hv. destruct (Hall v Hv) as [Hnf (o & Ho & _)].
    unfold Sim.object_load. cbn [fst]. rewrite Hfs, bool_decide_eq_false_2 by done.
    by rewrite Ho. }
  eexists. split_and!.
  - rewrite video_data_loop. apply sim_loop_present.
    intros v Hv. destruct (Hall v Hv) as [Hnf Ht]. cbn. by rewrite Hfs.
  - reflexivity.
  - cbn. by rewrite app_nil_r.
  - apply probe_and_tag_calls_no_transfer.
Qed.

End Idempotence.

Lemma video_data_twice_witness :
  ∃ st1 st2,
    video_data Sim.aws [Demo.clip1; Demo.clip2] Demo.bucket_in Demo.tags (init_state Demo.world)
    = (Ok (), st1)
    ∧ video_data Sim.aws [Demo.clip1; Demo.clip2] Demo.bucket_in Demo.tags st1 = (Ok (), st2)
    ∧ world st2 = world st1.
Proof.
  exists (video_data Sim.aws [Demo.clip1; Demo.clip2] Demo.bucket_in Demo.tags
            (init_state Demo.world)).2.
  destruct (video_data_twice [Demo.clip1; Demo.clip2] Demo.bucket_in Demo.tags
              (init_state Demo.world)
              (video_data Sim.aws [Demo.clip1; Demo.clip2] Demo.bucket_in Demo.tags
                 (init_state Demo.world)).2)
    as (_ & _ & st2 & Hrun & Hworld & _); [by vm_compute|].
  exists st2. split; [by vm_compute|]. split; [exact Hrun|exact Hworld].
Defined.

(** ** Calls that only read *)

Section Quiet.
Context {W F : Type} (aws : AWS W F).

Lemma quiet_ret {A} (a : A) : quiet (mret (M:=M W) a).
Proof. intros st r st' [= <- <-]. split; [done|]. exists []. by rewrite app_nil_r. Qed.

Lemma quiet_raise {A} (e : exn) : quiet (raise (W:=W) (A:=A) e).
Proof. intros st r st' [= <- <-]. split; [done|]. exists []. by rewrite app_nil_r. Qed.

Lemma quiet_logger (lvl : level) (msg : string) : quiet (logger (W:=W) lvl msg).
Proof. intros st r st' [= <- <-]. split; [done|]. exists []. cbn. by rewrite app_nil_r. Qed.

Lemma quiet_invoke {A} (c : call) (op : W → res A * W) :
  is_lookup c = true → quiet (invoke c op).
Proof.
  intros Hc st r st' H. rewrite invoke_run in H. injection H as <- <-.
  split; [done|]. exists [c]. split; [done|]. by constructor.
Qed.

Lemma quiet_bind {A B} (m : M W A) (f : A → M W B) :
  quiet m → (∀ a, quiet (f a)) → quiet (m ≫= f).
Proof.
  intros Hm Hf st r st' H. rewrite bind_run in H.
  destruct (m st) as [[a|e] st1] eqn:Hrun.
  - destruct (Hm _ _ _ Hrun) as (Hc1 & l1 & Ht1 & Hl1).
    destruct (Hf a _ _ _ H) as (Hc2 & l2 & Ht2 & Hl2).
    split; [congruence|]. exists (l1 ++ l2). rewrite Ht2, Ht1, app_assoc.
    split; [done|]. by apply Forall_app.
  - injection H as <- <-. exact (Hm _ _ _ Hrun).
Qed.

Lemma quiet_try_except {A} (m : M W A) (h : exn → M W A) :
  quiet m → (∀ e, quiet (h e)) → quiet (try_except m h).
Proof.
  intros Hm Hh st r st' H. unfold try_except in H.
  destruct (m st) as [[a|e] st1] eqn:Hrun.
  - injection H as <- <-. exact (Hm _ _ _ Hrun).
  - destruct (Hm _ _ _ Hrun) as (Hc1 & l1 & Ht1 & Hl1).
    destruct (Hh e _ _ _ H) as (Hc2 & l2 & Ht2 & Hl2).
    split; [congruence|]. exists (l1 ++ l2). rewrite Ht2, Ht1, app_assoc.
    split; [done|]. by apply Forall_app.
Qed.

Lemma quiet_config_call (self : Config) (section option : string) :
  quiet (config_call (W:=W) self section option).
Proof.
  unfold config_call. destruct (parser self !! _); [apply quiet_ret|apply quiet_raise].
Qed.

Lemma quiet_get_username : quiet (get_username aws).
Proof.
  apply quiet_try_except.
  - apply quiet_bind; [by apply quiet_invoke|]. intros a. apply quiet_ret.
  - intros []; first [apply quiet_ret|apply quiet_raise].
Qed.

Lemma quiet_get_account : quiet (get_account aws).
Proof.
  apply quiet_bind; [by apply quiet_invoke|]. intros a.
  apply quiet_bind; [apply quiet_logger|]. intros _. apply quiet_ret.
Qed.

Lemma quiet_get_region : quiet (get_region aws).
Proof.
  apply quiet_bind; [by apply quiet_invoke|]. intros a.
  apply quiet_bind; [apply quiet_logger|]. intros _. apply quiet_ret.
Qed.

Lemma quiet_get_role (self : Config) : quiet (get_role aws self).
Proof.
  intros st r st' H. unfold get_role in H.
  destruct (os_environ aws (world st) !! "SAGEMAKER_ROLE").
  - injection H as <- <-. split; [done|]. exists []. by rewrite app_nil_r.
  - revert H. apply quiet_bind; [apply quiet_config_call|]. intros a.
    destruct (decide (a = "")); [apply quiet_raise|apply quiet_ret].
Qed.

End Quiet.

(** ** Scripted dispatch *)

Section Scripted.
Context {W F float : Type} (aws : AWS W F).
Context (repr_float : float → string).
Context (code_path : Path).

Lemma returns_ret {A} (a : A) (Q : A → Prop) : Q a → returns (mret (M:=M W) a) Q.
Proof. intros HQ st a' st' [= <- <-]. exact HQ. Qed.

Lemma returns_bind {A B} (m : M W A) (f : A → M W B) (Q : B → Prop) :
  (∀ a, returns (f a) Q) → returns (m ≫= f) Q.
Proof.
  intros Hf st b st' H. rewrite bind_run in H.
  destruct (m st) as [[a|e] st1]; [|done]. exact (Hf a _ _ _ H).
Qed.

Lemma returns_bind_invoke {A B} (c : call) (op : W → res A * W) (f : A → M W B)
    (Q : B → Prop) :
  (∀ a w, (op w).1 = Ok a → returns (f a) Q) → returns (invoke c op ≫= f) Q.
Proof.
  intros Hf st b st' H. rewrite bind_run, invoke_run in H.
  destruct (op (world st)) as [[a|e] w1] eqn:Hop; [|done].
  refine (Hf a (world st) _ _ _ _ H). by rewrite Hop.
Qed.

Section Prepare.
Context (input_s3 model_s3 : ParseResult) (model_size : Z)
  (reid_model_url : option string) (volume_size_gb : Z) (instance_type : string)
  (config_s3 : option string) (save_vid : bool) (conf_thres iou_thres : float)
  (tracker : string) (custom_config : Config) (tags : list Tag).

Local Abbreviation prepare :=
  (script_processor_prepare aws repr_float input_s3 model_s3 model_size reid_model_url
     volume_size_gb instance_type config_s3 save_vid conf_thres iou_thres tracker
     custom_config tags).

(** Up to its first cache write the function only looks things up. *)
Lemma script_processor_prepare_quiet : quiet prepare.
Proof.
  unfold prepare, script_processor_prepare. cbv zeta.
  repeat first
    [ apply quiet_ret
    | apply quiet_raise
    | apply quiet_logger
    | apply quiet_config_call
    | apply quiet_get_username
    | apply quiet_get_account
    | apply quiet_get_region
    | apply quiet_get_role
    | apply quiet_invoke; reflexivity
    | apply quiet_bind; [|intros ?]
    | match goal with
      | |- quiet (if ?b then _ else _) => destruct b
      end ].
Qed.

(** The processor it builds runs for at most 172800 seconds, and the
    videos it will mark are the keys listed under the input prefix, the
    prefix removed. *)
Lemma script_processor_prepare_returns :
  returns prepare (λ p,
    max_runtime_in_seconds (p_script_processor p) = 172800
    ∧ base_job_name (p_script_processor p) = p_base_job_name p
    ∧ ∃ listed w,
        (s3_objects_filter aws (netloc input_s3) (PyStr.lstrip "/" (path input_s3)) w).1
        = Ok listed
        ∧ p_videos p
          = (λ video, PyStr.replace (PyStr.lstrip "/" (path input_s3)) "" video) <$> listed).
Proof.
  unfold prepare, script_processor_prepare. cbv zeta.
  repeat first
    [ apply returns_bind_invoke; intros ? ? ?
    | apply returns_bind; intros ? ].
  apply returns_ret. cbn. split_and!; [done|done|]. eauto.
Qed.

End Prepare.

(** The rest of the function, by the answers of the processing service *)
Lemma script_processor_dispatch_run (input_s3 output_s3 : ParseResult) (tracker : string)
    (p : Prepared) (st : State W) :
  let sp := p_script_processor p in
  let job := p_base_job_name p in
  let processor := p_processor p in
  let videos := p_videos p in
  let request := run_request code_path input_s3 output_s3 tracker (p_arguments p) in
  let running := mark_calls job processor videos RUNNING in
  let marked := cache_mark_all job processor videos RUNNING (cache st) in
  let run := ProcessorRun sp request in
  let describe := ProcessorDescribe sp in
  script_processor_dispatch aws code_path input_s3 output_s3 tracker p st =
  match processor_run aws sp request (world st) with
  | (Raise e, w2) => (Raise e, put_state w2 marked [] (running ++ [run]) st)
  | (Ok _, w2) =>
      match processor_describe aws sp w2 with
      | (Raise e, w3) => (Raise e, put_state w3 marked [] (running ++ [run; describe]) st)
      | (Ok status, w3) =>
          if bool_decide (ProcessingJobStatus status = "Failed") then
            match processor_describe aws sp w3 with
            | (Raise e, w4) =>
                (Raise e, put_state w4 marked [] (running ++ [run; describe; describe]) st)
            | (Ok described, w4) =>
                match FailureReason described with
                | None =>
                    (Raise (KeyError "FailureReason"),
                     put_state w4 marked [] (running ++ [run; describe; describe]) st)
                | Some reason =>
                    let msg := "Script processor failed for inputs " +:+ s3_uri input_s3
                               +:+ ": " +:+ reason in
                    (Raise (PyException msg),
                     put_state w4 (cache_mark_all job processor videos FAILED marked)
                       [(ERROR, msg)]
                       (running ++ run :: describe :: describe
                                :: mark_calls job processor videos FAILED) st)
                end
            end
          else
            (Ok (),
             put_state w3 (cache_mark_all job processor videos SUCCESS marked)
               [(DEBUG, "Script processor succeeded for inputs " +:+ s3_uri input_s3)]
               (running ++ run :: describe :: mark_calls job processor videos SUCCESS) st)
      end
  end.
Proof.
  intros sp job processor videos request running marked run describe.
  unfold script_processor_dispatch. fold sp job processor videos request.
  rewrite bind_run, mark_all_run. rewrite bind_run, invoke_run.
  cbn [world cache log stdout trace]. fold running marked run.
  unfold put_state.
  destruct (processor_run aws sp request (world st)) as [[[]|e] w2]; cbn [fst snd];
    [|by rewrite app_nil_r, <- app_assoc].
  rewrite bind_run, invoke_run. cbn [world cache log stdout trace]. fold describe.
  destruct (processor_describe aws sp w2) as [[status|e] w3]; cbn [fst snd];
    [|by rewrite app_nil_r, <- !app_assoc].
  case_bool_decide as Hfailed.
  - rewrite bind_run, invoke_run. cbn [world cache log stdout trace].
    destruct (processor_describe aws sp w3) as [[described|e] w4]; cbn [fst snd];
      [|by rewrite app_nil_r, <- !app_assoc].
    destruct (FailureReason described) as [reason|].
    + rewrite bind_run. unfold mret, M_ret. rewrite bind_run, mark_all_run.
      cbn [world cache log stdout trace]. rewrite bind_run. unfold logger, raise.
      cbn [world cache log stdout trace]. by rewrite <- !app_assoc.
    + rewrite bind_run. unfold raise. by rewrite app_nil_r, <- !app_assoc.
  - rewrite bind_run. unfold logger at 1. rewrite mark_all_run.
    cbn [world cache log stdout trace]. by rewrite <- !app_assoc.
Qed.

Lemma mark_calls_status (job processor : string) (videos : list string) (s : JobStatus) :
  Forall (λ c, writes_status s c = true) (mark_calls job processor videos s).
Proof.
  unfold mark_calls. constructor; [by apply bool_decide_eq_true|].
  apply Forall_fmap, Forall_true. intros v. by apply bool_decide_eq_true.
Qed.

Lemma writes_status_other (s s' : JobStatus) (c : call) :
  writes_status s c = true → s ≠ s' → writes_status s' c = false.
Proof.
  destruct c; try done; cbn; intros H%bool_decide_eq_true Hne;
    apply bool_decide_eq_false; congruence.
Qed.

Lemma cache_mark_all_lookup (job processor : string) (videos : list string) (s : JobStatus)
    (c : JobCache) :
  jobs (cache_mark_all job processor videos s c) !! job = Some (processor, videos, s)
  ∧ ∀ v, v ∈ videos → medias (cache_mark_all job processor videos s c) !! (job, v) = Some s.
Proof.
  unfold cache_mark_all. split.
  - rewrite cache_set_medias_jobs. cbn. by rewrite lookup_insert_eq.
  - intros v Hv. rewrite cache_set_medias_lookup. by rewrite bool_decide_eq_true_2.
Qed.

Lemma script_processor_dispatch_shape (input_s3 output_s3 : ParseResult) (tracker : string)
    (p : Prepared) (st st' : State W) (r : res unit) :
  script_processor_dispatch aws code_path input_s3 output_s3 tracker p st = (r, st') →
  ∃ rest, trace st' = trace st ++ rest ∧ scripted_shape rest.
Proof.
  rewrite script_processor_dispatch_run. cbv zeta. unfold put_state.
  set (tail := scripted_tail (p_script_processor p)
                 (mark_calls (p_base_job_name p) (p_processor p) (p_videos p) SUCCESS)
                 (mark_calls (p_base_job_name p) (p_processor p) (p_videos p) FAILED)).
  assert (Hshape : ∀ t, tail t →
            scripted_shape
              (mark_calls (p_base_job_name p) (p_processor p) (p_videos p) RUNNING
               ++ ProcessorRun (p_script_processor p)
                    (run_request code_path input_s3 output_s3 tracker (p_arguments p)) :: t)).
  { intros t Ht. right. by eexists _, _, _, _, _, t. }
  destruct (processor_run aws _ _ _) as [[[]|e] w2].
  2:{ intros [= <- <-]. eexists. split; [reflexivity|]. apply Hshape. constructor. }
  destruct (processor_describe aws _ w2) as [[status|e] w3].
  2:{ intros [= <- <-]. eexists. split; [reflexivity|]. apply Hshape. constructor. }
  case_bool_decide.
  - destruct (processor_describe aws _ w3) as [[described|e] w4].
    2:{ intros [= <- <-]. eexists. split; [reflexivity|]. apply Hshape. constructor. }
    destruct (FailureReason described); intros [= <- <-];
      (eexists; split; [reflexivity|]; apply Hshape; constructor).
  - intros [= <- <-]. eexists. split; [reflexivity|]. apply Hshape. constructor.
Qed.

Section Run.
Context (input_s3 output_s3 model_s3 : ParseResult) (model_size : Z)
  (reid_model_url : option string) (volume_size_gb : Z) (instance_type : string)
  (config_s3 : option string) (save_vid : bool) (conf_thres iou_thres : float)
  (tracker : string) (custom_config : Config) (tags : list Tag).

Local Abbreviation prepare :=
  (script_processor_prepare aws repr_float input_s3 model_s3 model_size reid_model_url
     volume_size_gb instance_type config_s3 save_vid conf_thres iou_thres tracker
     custom_config tags).

Local Abbreviation run :=
  (script_processor_run aws repr_float code_path input_s3 output_s3 model_s3 model_size
     reid_model_url volume_size_gb instance_type config_s3 save_vid conf_thres iou_thres
     tracker custom_config tags).

(** Every trace of the function: lookups, then the shape of a
    dispatch. *)
Lemma script_processor_run_shape (st st' : State W) (r : res unit) :
  run st = (r, st') →
  ∃ lookups rest,
    trace st' = trace st ++ lookups ++ rest
    ∧ Forall (λ c, is_lookup c = true) lookups
    ∧ scripted_shape rest.
Proof.
  unfold run, script_processor_run. rewrite bind_run. fold prepare.
  destruct (prepare st) as [[p|e] st1] eqn:Hprep.
  - destruct (script_processor_prepare_quiet _ _ _ _ _ _ _ _ _ _ _ _ _ _ _ _ Hprep)
      as (_ & lookups & Ht & Hl).
    intros (rest & Hrest & Hshape)%script_processor_dispatch_shape.
    exists lookups, rest. by rewrite Hrest, Ht, app_assoc.
  - destruct (script_processor_prepare_quiet _ _ _ _ _ _ _ _ _ _ _ _ _ _ _ _ Hprep)
      as (_ & lookups & Ht & Hl).
    intros [= <- <-]. exists lookups, []. rewrite app_nil_r. split_and!; [done|done|by left].
Qed.

(** C5: once its lookups are done, the scripted dispatch writes
    RUNNING for the job and for every video listed under the input
    prefix, runs the container with a ceiling of 48 hours, reads the
    status, and then writes FAILED everywhere and raises an exception
    that carries the reported reason when the status is [Failed], or
    writes SUCCESS everywhere otherwise.  It never writes QUEUED. *)
Theorem script_processor_run_lifecycle (st st1 : State W) (p : Prepared) (w2 w3 : W)
    (status : JobDescription) :
  let sp := p_script_processor p in
  let job := p_base_job_name p in
  let processor := p_processor p in
  let videos := p_videos p in
  let request := run_request code_path input_s3 output_s3 tracker (p_arguments p) in
  let running := mark_calls job processor videos RUNNING in
  let succeeded := mark_calls job processor videos SUCCESS in
  let failed := mark_calls job processor videos FAILED in
  let marked := cache_mark_all job processor videos RUNNING (cache st) in
  prepare st = (Ok p, st1) →
  processor_run aws sp request (world st1) = (Ok (), w2) →
  processor_describe aws sp w2 = (Ok status, w3) →
  max_runtime_in_seconds sp = 48 * 60 * 60
  ∧ (∃ listed w,
       (s3_objects_filter aws (netloc input_s3) (PyStr.lstrip "/" (path input_s3)) w).1
       = Ok listed
       ∧ videos = (λ video, PyStr.replace (PyStr.lstrip "/" (path input_s3)) "" video)
                  <$> listed)
  ∧ (∃ lookups, trace st1 = trace st ++ lookups
                ∧ Forall (λ c, is_lookup c = true) lookups)
  ∧ (∀ c, c ∈ running ++ succeeded ++ failed → writes_status QUEUED c = false)
  ∧ (∀ s c, jobs (cache_mark_all job processor videos s c) !! job
            = Some (processor, videos, s)
            ∧ ∀ v, v ∈ videos →
                medias (cache_mark_all job processor videos s c) !! (job, v) = Some s)
  ∧ (ProcessingJobStatus status ≠ "Failed" →
       run st =
       (Ok (),
        put_state w3 (cache_mark_all job processor videos SUCCESS marked)
          [(DEBUG, "Script processor succeeded for inputs " +:+ s3_uri input_s3)]
          (running ++ ProcessorRun sp request :: ProcessorDescribe sp :: succeeded) st1))
  ∧ (ProcessingJobStatus status = "Failed" →
       ∀ described w4 reason,
         processor_describe aws sp w3 = (Ok described, w4) →
         FailureReason described = Some reason →
         run st =
         (Raise (PyException ("Script processor failed for inputs " +:+ s3_uri input_s3
                              +:+ ": " +:+ reason)),
          put_state w4 (cache_mark_all job processor videos FAILED marked)
            [(ERROR, "Script processor failed for inputs " +:+ s3_uri input_s3
                     +:+ ": " +:+ reason)]
            (running ++ ProcessorRun sp request :: ProcessorDescribe sp
                     :: ProcessorDescribe sp :: failed) st1)).
Proof.
  intros sp job processor videos request running succeeded failed marked Hprep Hrun Hdesc.
  destruct (script_processor_prepare_returns _ _ _ _ _ _ _ _ _ _ _ _ _ _ _ _ Hprep)
    as (Hmax & _ & Hlisted).
  destruct (script_processor_prepare_quiet _ _ _ _ _ _ _ _ _ _ _ _ _ _ _ _ Hprep)
    as (Hcache & Hlookups).
  assert (Hgo : run st = script_processor_dispatch aws code_path input_s3 output_s3 tracker p st1).
  { unfold run, script_processor_run. rewrite bind_run. fold prepare. by rewrite Hprep. }
  split_and!.
  - fold sp in Hmax. by rewrite Hmax.
  - exact Hlisted.
  - exact Hlookups.
  - intros c Hc. apply elem_of_app in Hc as [Hc|Hc]; [|apply elem_of_app in Hc as [Hc|Hc]].
    + eapply writes_status_other; [|by instantiate (1 := RUNNING)].
      by eapply (proj1 (Forall_forall _ _) (mark_calls_status _ _ _ _)).
    + eapply writes_status_other; [|by instantiate (1 := SUCCESS)].
      by eapply (proj1 (Forall_forall _ _) (mark_calls_status _ _ _ _)).
    + eapply writes_status_other; [|by instantiate (1 := FAILED)].
      by eapply (proj1 (Forall_forall _ _) (mark_calls_status _ _ _ _)).
  - intros s c. apply cache_mark_all_lookup.
  - intros Hok. rewrite Hgo, script_processor_dispatch_run. cbv zeta.
    fold sp request. rewrite Hrun, Hdesc.
    rewrite bool_decide_eq_false_2 by done. unfold marked. by rewrite Hcache.
  - intros Hfailed described w4 reason Hdesc2 Hreason.
    rewrite Hgo, script_processor_dispatch_run. cbv zeta.
    fold sp request. rewrite Hrun, Hdesc.
    rewrite bool_decide_eq_true_2 by done. rewrite Hdesc2, Hreason.
    unfold marked. by rewrite Hcache.
Qed.

End Run.

End Scripted.

Lemma script_processor_run_lifecycle_witness :
  (Demo.scripted Demo.stocked).1 = Ok ()
  ∧ medias (cache (Demo.scripted Demo.stocked).2)
    !! ("deepsort-yolov5-dcline", "dive1/clip1.mp4") = Some SUCCESS
  ∧ (Demo.scripted Demo.failing).1
    = Raise (PyException
               "Script processor failed for inputs s3://bucket/in/: AlgorithmError: out of memory")
  ∧ medias (cache (Demo.scripted Demo.failing).2)
    !! ("deepsort-yolov5-dcline", "dive1/clip1.mp4") = Some FAILED.
Proof.
  pose (request :=
          run_request Demo.code_path Demo.bucket_in {| netloc := "bucket"; path := "/out/" |}
            "deepsort" (p_arguments Demo.prepared)).
  destruct (script_processor_run_lifecycle Sim.aws Demo.repr_float Demo.code_path
              Demo.bucket_in {| netloc := "bucket"; path := "/out/" |}
              {| netloc := "902005-public"; path := "/models/yolov5x.tar.gz" |}
              640 None 10 "ml.g4dn.xlarge" None false "0.01" "0.1" "deepsort"
              Demo.config Demo.tags
              (init_state Demo.stocked) (Demo.looked_up Demo.stocked) Demo.prepared
              (Sim.with_submitted [request] Demo.stocked)
              (Sim.with_submitted [request] Demo.stocked)
              (Sim.job_outcome Demo.stocked))
    as (_ & _ & _ & _ & _ & Hsuccess & _); [by vm_compute|reflexivity|reflexivity|].
  destruct (script_processor_run_lifecycle Sim.aws Demo.repr_float Demo.code_path
              Demo.bucket_in {| netloc := "bucket"; path := "/out/" |}
              {| netloc := "902005-public"; path := "/models/yolov5x.tar.gz" |}
              640 None 10 "ml.g4dn.xlarge" None false "0.01" "0.1" "deepsort"
              Demo.config Demo.tags
              (init_state Demo.failing) (Demo.looked_up Demo.failing) Demo.prepared
              (Sim.with_submitted [request] Demo.failing)
              (Sim.with_submitted [request] Demo.failing)
              (Sim.job_outcome Demo.failing))
    as (_ & _ & _ & _ & _ & _ & Hfailed); [by vm_compute|reflexivity|reflexivity|].
  unfold Demo.scripted.
  rewrite Hsuccess by done.
  rewrite (Hfailed eq_refl (Sim.job_outcome Demo.failing)
             (Sim.with_submitted [request] Demo.failing)
             "AlgorithmError: out of memory" eq_refl eq_refl).
  split_and!; by vm_compute.
Defined.

(** ** Order of the status writes *)

Section Ordering.
Context {W F float : Type} (aws : AWS W F).
Context (repr_float : float → string).
Context (json_dumps : list (string * jvalue float) → string).
Context (get_prefix : Path → string).
Context (code_path : Path).

(** Every trace of a queued submission: the five calls in their order
    when it returns, and no cache write at all when it raises. *)
Lemma batch_run_shape (resources : gmap string string) (video_path : Path)
    (job_name user_name : string) (clean : bool) (conf_thres iou_thres : float)
    (st st' : State W) (r : res unit) :
  batch_run aws json_dumps get_prefix resources video_path job_name user_name clean
    conf_thres iou_thres st = (r, st') →
  ∃ calls,
    trace st' = trace st ++ calls
    ∧ ((r = Ok ()
        ∧ ∃ queue_name queue body group_id cluster,
            calls = queued_calls queue_name queue body group_id job_name cluster
                      (name video_path))
       ∨ ((∃ e, r = Raise e) ∧ Forall (λ c, is_cache_write c = false) calls)).
Proof.
  unfold batch_run, dict_get.
  destruct (resources !! "VIDEO_QUEUE") as [queue_name|].
  2:{ intros [= <- <-]. exists []. rewrite app_nil_r. split; [done|]. right. eauto. }
  destruct (resources !! "CLUSTER") as [cluster|].
  - unfold mbind, M_bind, mret, M_ret, invoke, logger, set_job, set_media, raise.
    cbn [world cache log stdout trace].
    destruct (sqs_get_queue_by_name aws queue_name (world st)) as [[queue|e] w1];
      cbn [fst snd world cache log stdout trace].
    2:{ intros [= <- <-]. eexists. split; [reflexivity|]. right.
        split; [eauto|]. by repeat constructor. }
    destruct (datetime_utcnow aws w1) as [now w2];
      cbn [fst snd world cache log stdout trace].
    destruct (sqs_send_message aws queue _ _ w2) as [[response|e] w3];
      cbn [fst snd world cache log stdout trace].
    + intros [= <- <-]. cbn [trace]. eexists. split; [by rewrite <- !app_assoc|].
      left. split; [done|]. by eexists _, _, _, _, _.
    + intros [= <- <-]. cbn [trace]. eexists. split; [by rewrite <- !app_assoc|].
      right. split; [eauto|]. by repeat constructor.
  - unfold mbind, M_bind, mret, M_ret, invoke, logger, set_job, set_media, raise.
    cbn [world cache log stdout trace].
    destruct (sqs_get_queue_by_name aws queue_name (world st)) as [[queue|e] w1];
      cbn [fst snd world cache log stdout trace].
    2:{ intros [= <- <-]. eexists. split; [reflexivity|]. right.
        split; [eauto|]. by repeat constructor. }
    destruct (datetime_utcnow aws w1) as [now w2];
      cbn [fst snd world cache log stdout trace].
    intros [= <- <-]. cbn [trace]. eexists. split; [by rewrite <- !app_assoc|].
    right. split; [eauto|]. by repeat constructor.
Qed.

(** C10, amended: the scripted dispatch writes RUNNING before it runs
    the container and writes the terminal status after it has read the
    status of the job; the queued dispatch publishes the message first
    and writes QUEUED only when the publish has returned. *)
Theorem status_writes_order :
  (∀ (input_s3 output_s3 model_s3 : ParseResult) (model_size : Z)
     (reid_model_url : option string) (volume_size_gb : Z) (instance_type : string)
     (config_s3 : option string) (save_vid : bool) (conf_thres iou_thres : float)
     (tracker : string) (custom_config : Config) (tags : list Tag)
     (st st' : State W) (r : res unit),
     script_processor_run aws repr_float code_path input_s3 output_s3 model_s3 model_size
       reid_model_url volume_size_gb instance_type config_s3 save_vid conf_thres iou_thres
       tracker custom_config tags st = (r, st') →
     ∃ lookups rest,
       trace st' = trace st ++ lookups ++ rest
       ∧ Forall (λ c, is_lookup c = true) lookups
       ∧ (rest = [] ∨
          ∃ job processor videos sp req tail,
            rest = mark_calls job processor videos RUNNING ++ ProcessorRun sp req :: tail
            ∧ scripted_tail sp (mark_calls job processor videos SUCCESS)
                               (mark_calls job processor videos FAILED) tail))
  ∧ (∀ (resources : gmap string string) (video_path : Path) (job_name user_name : string)
       (clean : bool) (conf_thres iou_thres : float) (st st' : State W) (r : res unit),
       batch_run aws json_dumps get_prefix resources video_path job_name user_name clean
         conf_thres iou_thres st = (r, st') →
       ∃ calls,
         trace st' = trace st ++ calls
         ∧ ((r = Ok ()
             ∧ ∃ queue_name queue body group_id cluster,
                 calls = [ GetQueueByName queue_name; UtcNow;
                           SendMessage queue body group_id;
                           SetJob job_name cluster [name video_path] QUEUED;
                           SetMedia job_name (name video_path) QUEUED ])
            ∨ ((∃ e, r = Raise e) ∧ Forall (λ c, is_cache_write c = false) calls))).
Proof.
  split.
  - intros. by eapply script_processor_run_shape.
  - intros. by eapply batch_run_shape.
Qed.

End Ordering.

(** C10, as stated, fails for the queued dispatch: the message is
    published by the third call, and the QUEUED status is written by
    the two calls after it. *)
Lemma batch_run_order_counterexample :
  trace (batch_run Sim.aws Demo.json_dumps Demo.get_prefix Demo.resources Demo.clip1
           "DiveV1" "dcline" true "0.01" "0.1" (init_state Demo.world)).2
  = [ GetQueueByName "demo-video-q"; UtcNow;
      SendMessage "demo-video-q"
        (Demo.json_dumps (message_dict Demo.get_prefix Demo.clip1 "DiveV1" "dcline" true
                            "0.01" "0.1"))
        "demo-cluster20230307T040506Z";
      SetJob "DiveV1" "demo-cluster" ["clip1.mp4"] QUEUED;
      SetMedia "DiveV1" "clip1.mp4" QUEUED ].
Proof. by vm_compute. Qed.

Lemma status_writes_order_witness :
  (∃ lookups rest,
     trace (Demo.scripted Demo.stocked).2 = [] ++ lookups ++ rest
     ∧ Forall (λ c, is_lookup c = true) lookups
     ∧ scripted_shape rest)
  ∧ ∃ calls,
      trace (batch_run Sim.aws Demo.json_dumps Demo.get_prefix Demo.resources Demo.clip1
               "DiveV1" "dcline" true "0.01" "0.1" (init_state Demo.world)).2
      = [] ++ calls.
Proof.
  destruct (status_writes_order Sim.aws Demo.repr_float Demo.json_dumps Demo.get_prefix
              Demo.code_path) as [Hscripted Hqueued].
  split.
  - apply (Hscripted Demo.bucket_in {| netloc := "bucket"; path := "/out/" |}
             {| netloc := "902005-public"; path := "/models/yolov5x.tar.gz" |}
             640 None 10 "ml.g4dn.xlarge" None false "0.01" "0.1" "deepsort"
             Demo.config Demo.tags (init_state Demo.stocked)
             (Demo.scripted Demo.stocked).2 (Demo.scripted Demo.stocked).1).
    unfold Demo.scripted. by destruct (script_processor_run _ _ _ _ _ _ _ _ _ _ _ _ _ _ _ _ _ _).
  - destruct (Hqueued Demo.resources Demo.clip1 "DiveV1" "dcline" true "0.01" "0.1"
                (init_state Demo.world)
                (batch_run Sim.aws Demo.json_dumps Demo.get_prefix Demo.resources Demo.clip1
                   "DiveV1" "dcline" true "0.01" "0.1" (init_state Demo.world)).2
                (batch_run Sim.aws Demo.json_dumps Demo.get_prefix Demo.resources Demo.clip1
                   "DiveV1" "dcline" true "0.01" "0.1" (init_state Demo.world)).1)
      as (calls & Hcalls & _).
    + by destruct (batch_run _ _ _ _ _ _ _ _ _ _ _).
    + by exists calls.
Defined.

(** * Further properties of the source *)

(** ** More on strings *)

Section MoreStringFacts.







End MoreStringFacts.

(** ** More on the configuration helper *)

Section MoreConfig.
Context {W F : Type} (aws : AWS W F).


(** X2: [get_resources] never lets a [ClientError] out: what it raises
    is something else. *)
Theorem get_resources_never_client_error (stack_name : string) (st st' : State W) (e : exn) :
  get_resources aws stack_name st = (Raise e, st') → ∀ c m, e ≠ ClientError c m.
Proof.
  unfold get_resources, try_except.
  destruct (get_resources_try aws stack_name st) as [[r|e0] st1]; [done|].
  destruct e0 as [c0 m0| | | | | |]; cbn; try (intros [= <- <-]; done).
  unfold mbind, M_bind, logger, raise, mret, M_ret. cbn.
  repeat (destruct (PyStr.contains _ _); cbn); intros [= <- <-]; done.
Qed.

(** X3: the scan of the stack listing ends at the first task
    definition: the resources listed after it, autoscaling groups
    included, have no effect. *)
Theorem scan_stack_stops (before after : list StackResourceSummary)
    (r : StackResourceSummary) (m : gmap string string) (st : State W) :
  is_task_definition r = true →
  scan_stack aws (before ++ r :: after) m st = scan_stack aws (before ++ [r]) m st.
Proof.
  intros Hr. revert m. induction before as [|x before IH]; intros m.
  - cbn [app scan_stack]. unfold is_task_definition in Hr. by rewrite Hr.
  - cbn [app scan_stack]. destruct (PyStr.contains _ (ResourceType x)); [done|].
    apply IH.
Qed.

Lemma scan_variable_miss (m : gmap string string) (e : EnvVar) (k : string) :
  PyStr.contains k (env_name e) = false → scan_variable m e !! k = m !! k.
Proof. intros H. by rewrite scan_variable_lookup, H, andb_false_r. Qed.

(** X4: when several environment variables have a name that contains a
    required key, the value of the last one is the one kept. *)
Theorem scan_environment_last_wins (before after : list EnvVar) (e : EnvVar)
    (m : gmap string string) (k : string) :
  k ∈ key →
  PyStr.contains k (env_name e) = true →
  Forall (λ e', PyStr.contains k (env_name e') = false) after →
  scan_environment (before ++ e :: after) m !! k = Some (env_value e).
Proof.
  intros Hk He Hafter. unfold scan_environment. rewrite foldl_app. cbn [foldl].
  set (m1 := scan_variable (foldl scan_variable m before) e).
  assert (H1 : m1 !! k = Some (env_value e)).
  { unfold m1. rewrite scan_variable_lookup, He.
    by rewrite (bool_decide_eq_true_2 (k ∈ key)). }
  clearbody m1. revert m1 H1.
  induction Hafter as [|x after Hx Hafter IH]; intros m1 H1; [done|].
  cbn [foldl]. apply IH. by rewrite scan_variable_miss.
Qed.

End MoreConfig.


Lemma get_resources_never_client_error_witness :
  (get_resources Sim.aws "demo-cluster" (init_state (Demo.with_creds Sim.Denied))).1
  = Raise (PyException "Access denied")
  ∧ PyException "Access denied"
    ≠ ClientError "AccessDeniedException" "not authorized to perform this operation".
Proof.
  split; [reflexivity|].
  apply (get_resources_never_client_error Sim.aws "demo-cluster"
           (init_state (Demo.with_creds Sim.Denied))
           (get_resources Sim.aws "demo-cluster" (init_state (Demo.with_creds Sim.Denied))).2).
  reflexivity.
Defined.

Lemma scan_stack_stops_witness :
  scan_stack Sim.aws
    [ {| ResourceType := "AWS::ECS::TaskDefinition"; PhysicalResourceId := Demo.task_arn |};
      {| ResourceType := "AWS::AutoScaling::AutoScalingGroup";
         PhysicalResourceId := "late-asg" |} ]
    {[ "CLUSTER" := "demo-cluster" ]} (init_state Demo.world)
  = scan_stack Sim.aws
      [ {| ResourceType := "AWS::ECS::TaskDefinition"; PhysicalResourceId := Demo.task_arn |} ]
      {[ "CLUSTER" := "demo-cluster" ]} (init_state Demo.world).
Proof.
  apply (scan_stack_stops Sim.aws []
           [ {| ResourceType := "AWS::AutoScaling::AutoScalingGroup";
                PhysicalResourceId := "late-asg" |} ]
           {| ResourceType := "AWS::ECS::TaskDefinition";
              PhysicalResourceId := Demo.task_arn |}).
  reflexivity.
Defined.

Lemma scan_environment_last_wins_witness :
  scan_environment
    [ {| env_name := "VIDEO_QUEUE"; env_value := "first-q" |};
      {| env_name := "VIDEO_QUEUE_URL"; env_value := "second-q" |};
      {| env_name := "VIDEO_BUCKET"; env_value := "demo-in" |} ]
    ∅ !! "VIDEO_QUEUE" = Some "second-q".
Proof.
  apply (scan_environment_last_wins
           [ {| env_name := "VIDEO_QUEUE"; env_value := "first-q" |} ]
           [ {| env_name := "VIDEO_BUCKET"; env_value := "demo-in" |} ]
           {| env_name := "VIDEO_QUEUE_URL"; env_value := "second-q" |}).
  - unfold key. apply elem_of_cons. right. apply elem_of_cons. right.
    by apply elem_of_cons; left.
  - reflexivity.
  - by repeat constructor.
Defined.

(** ** More on tag validation *)

Section MoreTags.
Context {W F : Type} (aws : AWS W F).

(** The loop over the tag dictionary touches nothing but the log; it
    returns when every value holds an allowed character and raises at
    the first value that holds none. *)
Lemma for_each_check_tag (l : list Tag) (st st' : State W) (r : res unit) :
  for_each l (check_tag (W:=W)) st = (r, st') →
  world st' = world st ∧ cache st' = cache st ∧ trace st' = trace st
  ∧ match r with
    | Ok _ => Forall (λ t, any_allowed_in (Value t) = true) l
    | Raise e => e = TypeError "exceptions must derive from BaseException"
                 ∧ Exists (λ t, any_allowed_in (Value t) = false) l
    end.
Proof.
  revert st. induction l as [|t l IH]; intros st.
  - intros [= <- <-]. by split_and!.
  - cbn [for_each]. rewrite bind_run. unfold check_tag at 1.
    destruct (any_allowed_in (Value t)) eqn:Ht;
      unfold mbind, M_bind, logger, raise, mret, M_ret;
      cbn [negb fst snd world cache log stdout trace].
    + intros H. apply IH in H as (Hw & Hc & Htr & Hr).
      cbn [world cache log stdout trace] in *.
      split_and!; [done|done|done|]. destruct r as [[]|e].
      * by constructor.
      * destruct Hr as [-> Hex]. split; [done|]. by apply Exists_cons_tl.
    + intros [= <- <-]. cbn [world cache log stdout trace].
      split_and!; try done. by apply Exists_cons_hd.
Qed.

Section Only.
Context (P : call → Prop).

Lemma only_ret {A} (a : A) : calls_only P (mret (M:=M W) a).
Proof. intros st r st' [= <- <-]. split; [done|]. exists []. by rewrite app_nil_r. Qed.

Lemma only_raise {A} (e : exn) : calls_only P (raise (W:=W) (A:=A) e).
Proof. intros st r st' [= <- <-]. split; [done|]. exists []. by rewrite app_nil_r. Qed.

Lemma only_logger (lvl : level) (msg : string) : calls_only P (logger (W:=W) lvl msg).
Proof. intros st r st' [= <- <-]. split; [done|]. exists []. cbn. by rewrite app_nil_r. Qed.

Lemma only_print (msg : string) : calls_only P (print (W:=W) msg).
Proof. intros st r st' [= <- <-]. split; [done|]. exists []. cbn. by rewrite app_nil_r. Qed.

Lemma only_invoke {A} (c : call) (op : W → res A * W) : P c → calls_only P (invoke c op).
Proof.
  intros Hc st r st' H. rewrite invoke_run in H. injection H as <- <-.
  split; [done|]. exists [c]. split; [done|]. by constructor.
Qed.

Lemma only_bind {A B} (m : M W A) (f : A → M W B) :
  calls_only P m → (∀ a, calls_only P (f a)) → calls_only P (m ≫= f).
Proof.
  intros Hm Hf st r st' H. rewrite bind_run in H.
  destruct (m st) as [[a|e] st1] eqn:Hrun.
  - destruct (Hm _ _ _ Hrun) as (Hc1 & l1 & Ht1 & Hl1).
    destruct (Hf a _ _ _ H) as (Hc2 & l2 & Ht2 & Hl2).
    split; [congruence|]. exists (l1 ++ l2). rewrite Ht2, Ht1, app_assoc.
    split; [done|]. by apply Forall_app.
  - injection H as <- <-. exact (Hm _ _ _ Hrun).
Qed.

Lemma only_try_except {A} (m : M W A) (h : exn → M W A) :
  calls_only P m → (∀ e, calls_only P (h e)) → calls_only P (try_except m h).
Proof.
  intros Hm Hh st r st' H. unfold try_except in H.
  destruct (m st) as [[a|e] st1] eqn:Hrun.
  - injection H as <- <-. exact (Hm _ _ _ Hrun).
  - destruct (Hm _ _ _ Hrun) as (Hc1 & l1 & Ht1 & Hl1).
    destruct (Hh e _ _ _ H) as (Hc2 & l2 & Ht2 & Hl2).
    split; [congruence|]. exists (l1 ++ l2). rewrite Ht2, Ht1, app_assoc.
    split; [done|]. by apply Forall_app.
Qed.

Lemma only_for_each {A} (l : list A) (body : A → M W unit) :
  (∀ x, calls_only P (body x)) → calls_only P (for_each l body).
Proof.
  intros Hbody. induction l as [|x l IH]; [apply only_ret|].
  cbn [for_each]. apply only_bind; [apply Hbody|]. intros _. apply IH.
Qed.

Lemma only_config_call (self : Config) (section option : string) :
  calls_only P (config_call (W:=W) self section option).
Proof.
  unfold config_call. destruct (parser self !! _); [apply only_ret|apply only_raise].
Qed.

Lemma only_dict_get (d : gmap string string) (k : string) :
  calls_only P (dict_get (W:=W) d k).
Proof. unfold dict_get. destruct (d !! k); [apply only_ret|apply only_raise]. Qed.

Lemma only_get_username : P GetCallerIdentity → calls_only P (get_username aws).
Proof.
  intros HP. apply only_try_except.
  - apply only_bind; [by apply only_invoke|]. intros a. apply only_ret.
  - intros []; first [apply only_ret|apply only_raise].
Qed.

Lemma only_check_tags (l : list Tag) : calls_only P (for_each l (check_tag (W:=W))).
Proof.
  apply only_for_each. intros t. unfold check_tag.
  apply only_bind; [apply only_logger|]. intros _.
  destruct (negb _); [|apply only_ret].
  apply only_bind; [apply only_logger|]. intros _. apply only_raise.
Qed.

End Only.

(** X5: [get_tags] calls nothing but the identity lookup and the
    clock, and leaves the job cache alone, whether it returns or
    raises; the tag set it returns has seven entries, the description
    among their values, and each value holds at least one allowed
    character. *)
Theorem get_tags_outcome (self : Config) (description : string) (st st' : State W)
    (r : res (list Tag)) :
  get_tags aws self description st = (r, st') →
  cache st' = cache st
  ∧ (∃ calls, trace st' = trace st ++ calls
              ∧ Forall (λ c, c = GetCallerIdentity ∨ c = UtcNow) calls)
  ∧ match r with
    | Ok tags =>
        length tags = 7%nat
        ∧ Forall (λ t, any_allowed_in (Value t) = true) tags
        ∧ ∃ t, t ∈ tags ∧ Value t = description
    | Raise _ => True
    end.
Proof.
  intros Hrun.
  assert (Hcalls : calls_only (λ c, c = GetCallerIdentity ∨ c = UtcNow)
                     (get_tags aws self description)).
  { unfold get_tags.
    repeat first
      [ apply only_ret
      | apply only_config_call
      | apply only_get_username; by left
      | apply only_invoke; by right
      | apply only_check_tags
      | apply only_bind; [|intros ?] ]. }
  destruct (Hcalls _ _ _ Hrun) as [Hcache Htrace].
  split_and!; [done|done|].
  destruct r as [tags|e]; [|done].
  clear Hcalls Hcache Htrace. revert st tags st' Hrun.
  change (returns (get_tags aws self description)
            (λ tags, length tags = 7%nat
                     ∧ Forall (λ t, any_allowed_in (Value t) = true) tags
                     ∧ ∃ t, t ∈ tags ∧ Value t = description)).
  unfold get_tags. do 6 (apply returns_bind; intros ?).
  intros st tags st' H. rewrite bind_run in H.
  match type of H with
  | context [for_each ?l check_tag ?s] =>
      destruct (for_each l check_tag s) as [[[]|e] st2] eqn:Hloop; [|done];
      apply for_each_check_tag in Hloop as (_ & _ & _ & Hok)
  end.
  injection H as <- <-. split_and!; [done|done|].
  eexists. split.
  - do 2 (apply elem_of_cons; right). apply elem_of_cons. left. reflexivity.
  - reflexivity.
Qed.

End MoreTags.

Lemma get_tags_outcome_witness :
  ∃ calls,
    trace (get_tags Sim.aws Demo.config "" (init_state Demo.world)).2 = [] ++ calls
    ∧ Forall (λ c, c = GetCallerIdentity ∨ c = UtcNow) calls.
Proof.
  destruct (get_tags_outcome Sim.aws Demo.config "" (init_state Demo.world)
              (get_tags Sim.aws Demo.config "" (init_state Demo.world)).2
              (get_tags Sim.aws Demo.config "" (init_state Demo.world)).1)
    as (_ & Hcalls & _); [by destruct (get_tags _ _ _ _)|exact Hcalls].
Defined.

(** ** More on the scripted dispatch *)

Section MoreScripted.
Context {W F float : Type} (aws : AWS W F).
Context (repr_float : float → string).
Context (code_path : Path).

(** X6: with a tracker other than deepsort and strongsort
    [script_processor_run] raises after the identity lookup, its only
    call: nothing is listed, nothing is written to the job cache and no
    container is run. *)
Theorem script_processor_run_unsupported (input_s3 output_s3 model_s3 : ParseResult)
    (model_size : Z) (reid_model_url : option string) (volume_size_gb : Z)
    (instance_type : string) (config_s3 : option string) (save_vid : bool)
    (conf_thres iou_thres : float) (tracker : string) (custom_config : Config)
    (tags : list Tag) (st : State W) :
  tracker ∉ ["deepsort"; "strongsort"] →
  ∃ e st',
    script_processor_run aws repr_float code_path input_s3 output_s3 model_s3 model_size
      reid_model_url volume_size_gb instance_type config_s3 save_vid conf_thres iou_thres
      tracker custom_config tags st = (Raise e, st')
    ∧ cache st' = cache st
    ∧ trace st' = trace st ++ [GetCallerIdentity]
    ∧ (e = PyException (tracker +:+ " not currently supported")
       ∨ (sts_get_caller_identity aws (world st)).1 = Raise e).
Proof.
  intros Htracker.
  unfold script_processor_run, script_processor_prepare.
  rewrite !bind_run.
  unfold get_username, try_except. rewrite bind_run, invoke_run.
  rewrite (bool_decide_eq_false_2 _ Htracker).
  destruct (sts_get_caller_identity aws (world st)) as [[id|e] w1]; cbn [fst snd].
  - unfold mret, M_ret, mbind, M_bind, logger, raise. cbn.
    eexists _, _. split_and!; [reflexivity|done|done|by left].
  - destruct e; cbn;
      try (eexists _, _; split_and!; [reflexivity|done|done|by right]).
    unfold mret, M_ret, mbind, M_bind, logger, raise. cbn.
    eexists _, _. split_and!; [reflexivity|done|done|by left].
Qed.

(** X7: when the container run raises, or the status cannot be read
    after it, [script_processor_run] passes the exception on and writes
    no terminal status: the job and every video stay RUNNING in the job
    cache. *)
Theorem script_processor_dispatch_interrupted (input_s3 output_s3 : ParseResult)
    (tracker : string) (p : Prepared) (st : State W) :
  let sp := p_script_processor p in
  let request := run_request code_path input_s3 output_s3 tracker (p_arguments p) in
  let left_running (st' : State W) :=
    jobs (cache st') !! p_base_job_name p = Some (p_processor p, p_videos p, RUNNING)
    ∧ ∀ v, v ∈ p_videos p → medias (cache st') !! (p_base_job_name p, v) = Some RUNNING in
  (∀ e w2, processor_run aws sp request (world st) = (Raise e, w2) →
     ∃ st', script_processor_dispatch aws code_path input_s3 output_s3 tracker p st
            = (Raise e, st')
            ∧ left_running st')
  ∧ (∀ w2 e w3,
       processor_run aws sp request (world st) = (Ok (), w2) →
       processor_describe aws sp w2 = (Raise e, w3) →
       ∃ st', script_processor_dispatch aws code_path input_s3 output_s3 tracker p st
              = (Raise e, st')
              ∧ left_running st').
Proof.
  intros sp request left_running. split.
  - intros e w2 Hrun. rewrite script_processor_dispatch_run. cbv zeta.
    fold sp request. rewrite Hrun. eexists. split; [reflexivity|].
    apply cache_mark_all_lookup.
  - intros w2 e w3 Hrun Hdesc. rewrite script_processor_dispatch_run. cbv zeta.
    fold sp request. rewrite Hrun, Hdesc. eexists. split; [reflexivity|].
    apply cache_mark_all_lookup.
Qed.

End MoreScripted.

Lemma script_processor_run_unsupported_witness :
  ∃ st',
    script_processor_run Sim.aws Demo.repr_float Demo.code_path Demo.bucket_in
      {| netloc := "bucket"; path := "/out/" |}
      {| netloc := "902005-public"; path := "/models/yolov5x.tar.gz" |}
      640 None 10 "ml.g4dn.xlarge" None false "0.01" "0.1" "bytetrack" Demo.config Demo.tags
      (init_state Demo.stocked)
    = (Raise (PyException "bytetrack not currently supported"), st')
    ∧ cache st' = empty_cache.
Proof.
  destruct (script_processor_run_unsupported Sim.aws Demo.repr_float Demo.code_path
              Demo.bucket_in {| netloc := "bucket"; path := "/out/" |}
              {| netloc := "902005-public"; path := "/models/yolov5x.tar.gz" |}
              640 None 10 "ml.g4dn.xlarge" None false "0.01" "0.1" "bytetrack"
              Demo.config Demo.tags (init_state Demo.stocked))
    as (e & st' & Hrun & Hcache & _ & _).
  - intros H. repeat (apply elem_of_cons in H as [H|H]; [done|]).
    by apply elem_of_nil in H.
  - exists st'. split; [|exact Hcache].
    rewrite Hrun. vm_compute in Hrun. by injection Hrun as -> _.
Defined.

Lemma script_processor_dispatch_interrupted_witness :
  ∃ st',
    script_processor_dispatch Outage.aws Demo.code_path Demo.bucket_in
      {| netloc := "bucket"; path := "/out/" |} "deepsort" Demo.prepared
      (init_state Demo.stocked)
    = (Raise Outage.run_error, st')
    ∧ medias (cache st') !! ("deepsort-yolov5-dcline", "dive1/clip1.mp4") = Some RUNNING.
Proof.
  destruct (script_processor_dispatch_interrupted Outage.aws Demo.code_path Demo.bucket_in
              {| netloc := "bucket"; path := "/out/" |} "deepsort" Demo.prepared
              (init_state Demo.stocked)) as [Hrun _].
  destruct (Hrun Outage.run_error Demo.stocked eq_refl) as (st' & Heq & _ & Hmedia).
  exists st'. split; [exact Heq|]. apply Hmedia.
  by apply elem_of_cons; left.
Defined.

(** ** More on sizes *)



(** ** More on the queued submission *)

Section MoreQueued.
Context {W F float : Type} (aws : AWS W F).
Context (json_dumps : list (string * jvalue float) → string).
Context (get_prefix : Path → string).

(** What [batch_run] does with a map that holds both keys it reads *)
Lemma batch_run_calls (resources : gmap string string) (video_path : Path)
    (job_name user_name : string) (clean : bool) (conf_thres iou_thres : float)
    (queue_name cluster : string) (st st' : State W) (r : res unit) :
  resources !! "VIDEO_QUEUE" = Some queue_name →
  resources !! "CLUSTER" = Some cluster →
  batch_run aws json_dumps get_prefix resources video_path job_name user_name clean
    conf_thres iou_thres st = (r, st') →
  ∃ queue now calls,
    trace st' = trace st ++ calls
    ∧ calls `prefix_of`
        queued_calls queue_name queue
          (json_dumps (message_dict get_prefix video_path job_name user_name clean
                         conf_thres iou_thres))
          (cluster +:+ strftime now) job_name cluster (name video_path)
    ∧ (r = Ok () → length calls = 5%nat).
Proof.
  intros Hq Hc. unfold batch_run, dict_get. rewrite Hq, Hc.
  unfold mbind, M_bind, mret, M_ret, invoke, logger, set_job, set_media, queued_calls.
  cbn [fst snd world cache log stdout trace].
  destruct (sqs_get_queue_by_name aws queue_name (world st)) as [[queue|e] w1];
    cbn [fst snd world cache log stdout trace].
  2:{ intros [= <- <-]. cbn [trace]. exists "", (fst (datetime_utcnow aws (world st))).
      eexists. split; [reflexivity|]. split; [by eexists|done]. }
  destruct (datetime_utcnow aws w1) as [now w2];
    cbn [fst snd world cache log stdout trace].
  destruct (sqs_send_message aws queue _ _ w2) as [[resp|e] w3];
    cbn [fst snd world cache log stdout trace].
  - intros [= <- <-]. cbn [trace]. exists queue, now. eexists.
    rewrite <- !app_assoc. split; [reflexivity|]. split; [by exists []|done].
  - intros [= <- <-]. cbn [trace]. exists queue, now. eexists.
    rewrite <- !app_assoc. split; [reflexivity|]. split; [by eexists|done].
Qed.

(** X9: a map without [VIDEO_QUEUE] makes [batch_run] raise
    [KeyError('VIDEO_QUEUE')] before any call; a map with the queue but
    without [CLUSTER] makes it raise [KeyError('CLUSTER')] after the
    queue lookup and the clock read: no message is sent and nothing is
    written to the job cache. *)
Theorem batch_run_missing_key (resources : gmap string string) (video_path : Path)
    (job_name user_name : string) (clean : bool) (conf_thres iou_thres : float)
    (st : State W) :
  let run :=
    batch_run aws json_dumps get_prefix resources video_path job_name user_name clean
      conf_thres iou_thres st in
  (resources !! "VIDEO_QUEUE" = None → run = (Raise (KeyError "VIDEO_QUEUE"), st))
  ∧ (∀ queue_name queue w1,
       resources !! "VIDEO_QUEUE" = Some queue_name →
       resources !! "CLUSTER" = None →
       sqs_get_queue_by_name aws queue_name (world st) = (Ok queue, w1) →
       run.1 = Raise (KeyError "CLUSTER")
       ∧ world run.2 = (datetime_utcnow aws w1).2
       ∧ cache run.2 = cache st
       ∧ trace run.2 = trace st ++ [GetQueueByName queue_name; UtcNow]).
Proof.
  intros run. subst run. split.
  - intros Hq. unfold batch_run, dict_get. by rewrite Hq.
  - intros queue_name queue w1 Hq Hc Hget.
    unfold batch_run, dict_get. rewrite Hq, Hc.
    unfold mbind, M_bind, mret, M_ret, invoke, raise.
    cbn [fst snd world cache log stdout trace]. rewrite Hget.
    cbn [fst snd world cache log stdout trace].
    destruct (datetime_utcnow aws w1) as [now w2].
    cbn [fst snd world cache log stdout trace].
    by rewrite <- app_assoc.
Qed.

(** X10: a queued submission with the map [get_resources] returned for
    a cluster either stops at [KeyError('VIDEO_QUEUE')] before any call
    (no variable of the task definition named the queue), or makes the
    calls of a submission, in their order and as far as it gets, with
    the cluster name as the first part of the message group id and as
    the processor recorded in the job cache. *)
Theorem get_resources_then_batch_run (stack_name : string) (video_path : Path)
    (job_name user_name : string) (clean : bool) (conf_thres iou_thres : float)
    (st0 st st' : State W) (resources : gmap string string) (r : res unit) :
  get_resources aws stack_name st0 = (Ok (Some resources), st) →
  batch_run aws json_dumps get_prefix resources video_path job_name user_name clean
    conf_thres iou_thres st = (r, st') →
  (r = Raise (KeyError "VIDEO_QUEUE") ∧ st' = st ∧ resources !! "VIDEO_QUEUE" = None)
  ∨ ∃ queue_name queue now calls,
      resources !! "VIDEO_QUEUE" = Some queue_name
      ∧ trace st' = trace st ++ calls
      ∧ calls `prefix_of`
          queued_calls queue_name queue
            (json_dumps (message_dict get_prefix video_path job_name user_name clean
                           conf_thres iou_thres))
            (stack_name +:+ strftime now) job_name stack_name (name video_path)
      ∧ (r = Ok () → length calls = 5%nat).
Proof.
  intros Hres Hrun.
  assert (Hcluster : resources !! "CLUSTER" = Some stack_name).
  { unfold get_resources, try_except in Hres.
    destruct (get_resources_try aws stack_name st0) as [[o|e] st1] eqn:Htry.
    - injection Hres as -> <-. unfold get_resources_try in Htry.
      rewrite bind_run, invoke_run in Htry.
      destruct (cf_list_stack_resources aws stack_name (world st0)) as [[l|e] w1];
        cbn [fst snd] in Htry; [|done].
      rewrite bind_run in Htry.
      destruct (scan_stack aws l _ _) as [[m'|e] st2] eqn:Hscan; [|done].
      injection Htry as -> <-.
      eapply scan_stack_cluster; [|exact Hscan]. by rewrite lookup_singleton_eq.
    - unfold get_resources_except in Hres. destruct e; try done.
      unfold mbind, M_bind, logger, raise, mret, M_ret in Hres. cbn in Hres.
      repeat (destruct (PyStr.contains _ _); cbn in Hres; try done). }
  destruct (resources !! "VIDEO_QUEUE") as [queue_name|] eqn:Hq.
  - right. destruct (batch_run_calls _ _ _ _ _ _ _ _ _ _ _ _ Hq Hcluster Hrun)
      as (queue & now & calls & Htrace & Hprefix & Hlen).
    by exists queue_name, queue, now, calls.
  - left. unfold batch_run, dict_get in Hrun. rewrite Hq in Hrun.
    by injection Hrun as <- <-.
Qed.

End MoreQueued.

Lemma batch_run_missing_key_witness :
  batch_run Sim.aws Demo.json_dumps Demo.get_prefix {[ "CLUSTER" := "bare-cluster" ]}
    Demo.clip1 "DiveV1" "dcline" true "0.01" "0.1" (init_state Demo.world)
  = (Raise (KeyError "VIDEO_QUEUE"), init_state Demo.world)
  ∧ trace (batch_run Sim.aws Demo.json_dumps Demo.get_prefix
             {[ "VIDEO_QUEUE" := "demo-video-q" ]}
             Demo.clip1 "DiveV1" "dcline" true "0.01" "0.1" (init_state Demo.world)).2
    = [] ++ [GetQueueByName "demo-video-q"; UtcNow].
Proof.
  split.
  - by apply (batch_run_missing_key Sim.aws Demo.json_dumps Demo.get_prefix
                {[ "CLUSTER" := "bare-cluster" ]}).
  - by apply (batch_run_missing_key Sim.aws Demo.json_dumps Demo.get_prefix
                {[ "VIDEO_QUEUE" := "demo-video-q" ]} Demo.clip1 "DiveV1" "dcline" true
                "0.01" "0.1" (init_state Demo.world)) with "demo-video-q" Demo.world.
Defined.

Lemma get_resources_then_batch_run_witness :
  (batch_run Sim.aws Demo.json_dumps Demo.get_prefix
     (scan_others [ {| ResourceType := "AWS::SQS::Queue";
                       PhysicalResourceId := "bare-video-q" |} ]
        {[ "CLUSTER" := "bare-cluster" ]})
     Demo.clip1 "DiveV1" "dcline" true "0.01" "0.1"
     (get_resources Sim.aws "bare-cluster" (init_state Demo.world)).2).1
  = Raise (KeyError "VIDEO_QUEUE").
Proof.
  destruct (get_resources_then_batch_run Sim.aws Demo.json_dumps Demo.get_prefix
              "bare-cluster" Demo.clip1 "DiveV1" "dcline" true "0.01" "0.1"
              (init_state Demo.world)
              (get_resources Sim.aws "bare-cluster" (init_state Demo.world)).2
              (batch_run Sim.aws Demo.json_dumps Demo.get_prefix
                 (scan_others [ {| ResourceType := "AWS::SQS::Queue";
                                   PhysicalResourceId := "bare-video-q" |} ]
                    {[ "CLUSTER" := "bare-cluster" ]})
                 Demo.clip1 "DiveV1" "dcline" true "0.01" "0.1"
                 (get_resources Sim.aws "bare-cluster" (init_state Demo.world)).2).2
              (scan_others [ {| ResourceType := "AWS::SQS::Queue";
                                PhysicalResourceId := "bare-video-q" |} ]
                 {[ "CLUSTER" := "bare-cluster" ]})
              (batch_run Sim.aws Demo.json_dumps Demo.get_prefix
                 (scan_others [ {| ResourceType := "AWS::SQS::Queue";
                                   PhysicalResourceId := "bare-video-q" |} ]
                    {[ "CLUSTER" := "bare-cluster" ]})
                 Demo.clip1 "DiveV1" "dcline" true "0.01" "0.1"
                 (get_resources Sim.aws "bare-cluster" (init_state Demo.world)).2).1)
    as [(Hr & _ & _)|(q & _ & _ & _ & Hq & _)].
  - reflexivity.
  - by destruct (batch_run _ _ _ _ _ _ _ _ _ _ _).
  - exact Hr.
  - by vm_compute in Hq.
Defined.

(** ** More on the uploads *)

Section MoreUpload.
Context {W F : Type} (aws : AWS W F).

Lemma for_each_app {A} (before after : list A) (body : A → M W unit) (st : State W) :
  for_each (before ++ after) body st
  = match for_each before body st with
    | (Ok _, st1) => for_each after body st1
    | (Raise e, st1) => (Raise e, st1)
    end.
Proof.
  revert st. induction before as [|x before IH]; intros st; [done|].
  cbn [app for_each]. rewrite !bind_run.
  destruct (body x st) as [[[]|e] st1]; [apply IH|done].
Qed.

Lemma video_data_for_each (videos : list Path) (input_s3 : ParseResult) (tags : list Tag)
    (st : State W) :
  video_data aws videos input_s3 tags st
  = for_each videos (video_body aws input_s3 tags) (record_calls (world st) [banner] [] st).
Proof.
  unfold video_data. rewrite bind_run. unfold print, record_calls, banner.
  cbn [fst snd world cache log stdout trace]. by rewrite app_nil_r.
Qed.

(** X11: [video_data] stops at the first file whose iteration raises
    (a probe that fails with another code than 404, or a tagging that
    fails): the exception is passed on, the files after it are not
    touched, and what was done for the files before it stays done. *)
Theorem video_data_stops (before after : list Path) (v : Path) (input_s3 : ParseResult)
    (tags : list Tag) (st st1 st2 : State W) (e : exn) :
  video_data aws before input_s3 tags st = (Ok (), st1) →
  video_body aws input_s3 tags v st1 = (Raise e, st2) →
  video_data aws (before ++ v :: after) input_s3 tags st = (Raise e, st2)
  ∧ (∃ calls, trace st2 = trace st1 ++ calls
              ∧ Forall (concerns (netloc input_s3) tags (target_prefix_of input_s3) [v]) calls).
Proof.
  intros Hbefore Hv. rewrite video_data_for_each in *. split.
  - rewrite for_each_app, Hbefore. cbn [for_each]. by rewrite bind_run, Hv.
  - unfold video_body in Hv. rewrite upload_and_tag_run in Hv. cbv zeta in Hv.
    assert (Hin : v ∈ [v]) by (apply elem_of_cons; by left).
    set (k := target_prefix_of input_s3 v) in *.
    assert (Hload : concerns (netloc input_s3) tags (target_prefix_of input_s3) [v]
                      (ObjectLoad (netloc input_s3) k)).
    { exists v. split; [done|]. apply elem_of_cons. by left. }
    assert (Hopen : concerns (netloc input_s3) tags (target_prefix_of input_s3) [v]
                      (OpenRb (as_posix v))).
    { exists v. split; [done|]. do 1 (apply elem_of_cons; right). apply elem_of_cons. by left. }
    assert (Hsend : concerns (netloc input_s3) tags (target_prefix_of input_s3) [v]
                      (UploadFileobj (netloc input_s3) k)).
    { exists v. split; [done|]. do 2 (apply elem_of_cons; right). apply elem_of_cons. by left. }
    assert (Htag : concerns (netloc input_s3) tags (target_prefix_of input_s3) [v]
                      (PutObjectTagging (netloc input_s3) k tags)).
    { exists v. split; [done|]. do 3 (apply elem_of_cons; right). apply elem_of_cons. by left. }
    unfold tagging_call in Hv.
    destruct (s3_object_load aws (netloc input_s3) k (world st1)) as [[[]|e0] w1];
      cbn [fst snd] in Hv.
    + rewrite invoke_run in Hv. injection Hv as _ <-. cbn [trace record_calls].
      eexists. rewrite <- app_assoc. split; [reflexivity|]. by repeat constructor.
    + destruct e0 as [c m| | | | | |];
        try (injection Hv as _ <-; cbn [trace record_calls];
             eexists; split; [reflexivity|]; by repeat constructor).
      destruct (decide (c = "404")).
      * destruct (open_rb aws (as_posix v) w1) as [[f|e1] w2].
        -- destruct (s3_upload_fileobj aws f (netloc input_s3) k w2) as [[[]|e2] w3];
             rewrite invoke_run in Hv; injection Hv as _ <-; cbn [trace record_calls];
             eexists; rewrite <- app_assoc; (split; [reflexivity|]); by repeat constructor.
        -- rewrite invoke_run in Hv; injection Hv as _ <-; cbn [trace record_calls];
             eexists; rewrite <- app_assoc; (split; [reflexivity|]); by repeat constructor.
      * injection Hv as _ <-; cbn [trace record_calls];
             eexists; split; [reflexivity|]; by repeat constructor.
Qed.

End MoreUpload.

Lemma video_data_stops_witness :
  (video_data Sim.aws [Demo.missing_clip; Demo.clip1] Demo.bucket_in Demo.tags
     (init_state Demo.locked)).1
  = Raise (ClientError "403" "Forbidden").
Proof.
  destruct (video_data_stops Sim.aws [] [Demo.clip1] Demo.missing_clip Demo.bucket_in
              Demo.tags (init_state Demo.locked)
              (video_data Sim.aws [] Demo.bucket_in Demo.tags (init_state Demo.locked)).2
              (video_body Sim.aws Demo.bucket_in Demo.tags Demo.missing_clip
                 (video_data Sim.aws [] Demo.bucket_in Demo.tags (init_state Demo.locked)).2).2
              (ClientError "403" "Forbidden")) as [Hrun _].
  - reflexivity.
  - reflexivity.
  - cbn [app] in Hrun. by rewrite Hrun.
Defined.

Section MoreTraining.
Context {W F : Type} (aws : AWS W F).

Lemma only_try_except_else {A B} (P : call → Prop) (m : M W A) (h : exn → M W B)
    (k : A → M W B) :
  calls_only P m → (∀ e, calls_only P (h e)) → (∀ a, calls_only P (k a)) →
  calls_only P (try_except_else m h k).
Proof.
  intros Hm Hh Hk st r st' H. unfold try_except_else in H.
  destruct (m st) as [[a|e] st1] eqn:Hrun;
    destruct (Hm _ _ _ Hrun) as (Hc1 & l1 & Ht1 & Hl1);
    [destruct (Hk a _ _ _ H) as (Hc2 & l2 & Ht2 & Hl2)
    |destruct (Hh e _ _ _ H) as (Hc2 & l2 & Ht2 & Hl2)];
    (split; [congruence|]); exists (l1 ++ l2); rewrite Ht2, Ht1, app_assoc;
    (split; [done|]); by apply Forall_app.
Qed.

(** One iteration of an upload loop makes calls for its file only. *)
Lemma only_upload_and_tag (P : call → Prop) (local : Path) (bucket target_prefix : string)
    (tags : list Tag) (uploading found : string) (upload_failed : exn → string) :
  P (ObjectLoad bucket target_prefix) → P (OpenRb (as_posix local)) →
  P (UploadFileobj bucket target_prefix) → P (PutObjectTagging bucket target_prefix tags) →
  calls_only P (upload_and_tag aws local bucket target_prefix tags uploading found
                  upload_failed).
Proof.
  intros Hload Hopen Hsend Htag. unfold upload_and_tag.
  apply only_bind; [|intros _].
  - apply only_try_except_else; [by apply only_invoke| |intros _; apply only_print].
    intros e. destruct e as [c m| | | | | |]; try apply only_raise.
    destruct (decide (c = "404")); [|apply only_raise].
    apply only_try_except; [|intros ?; apply only_print].
    apply only_bind; [by apply only_invoke|intros f].
    apply only_bind; [apply only_print|intros _]. by apply only_invoke.
  - apply only_try_except; [by apply only_invoke|intros ?; apply only_raise].
Qed.

(** Once the prefix is set to a text that is not empty, the loop of
    [training_data] keeps it, and stores every file under it. *)
Lemma training_loop_keeps (all data : list Path) (input : ParseResult) (tags : list Tag)
    (p : string) :
  p ≠ "" → data ⊆ all →
  calls_only (concerns (netloc input) tags (training_key p) all)
    (training_loop aws data input tags (Some p))
  ∧ returns (training_loop aws data input tags (Some p)) (λ o, o = Some p).
Proof.
  intros Hp. induction data as [|d data IH]; intros Hsub.
  - split; [apply only_ret|]. by intros st a st' [= <- _].
  - assert (Hd : d ∈ all) by (apply Hsub, elem_of_cons; by left).
    assert (Hrest : data ⊆ all) by (intros x Hx; apply Hsub, elem_of_cons; by right).
    destruct (IH Hrest) as [IHc IHr].
    cbn [training_loop falsy]. rewrite (bool_decide_eq_false_2 (p = "")) by done.
    change (PyStr.str_option (Some p)) with p. split.
    + apply only_bind; [|intros _; exact IHc].
      apply only_upload_and_tag; exists d; (split; [done|]); unfold training_key.
      * apply elem_of_cons. by left.
      * do 1 (apply elem_of_cons; right). apply elem_of_cons. by left.
      * do 2 (apply elem_of_cons; right). apply elem_of_cons. by left.
      * do 3 (apply elem_of_cons; right). apply elem_of_cons. by left.
    + apply returns_bind. intros _. exact IHr.
Qed.

(** X12: when the directory of the first file gives a prefix that is
    not empty, [training_data] stores every file, wherever it lies,
    under that one prefix: each call it makes is a probe, an open, a
    transfer or a tagging of one of the files under the key
    [prefix/training/name], or the final size query, and the location
    it returns is [s3://bucket/prefix/training/].  The job cache is not
    written. *)
Theorem training_data_one_prefix (d : Path) (rest : list Path) (input : ParseResult)
    (tags : list Tag) (st st' : State W) (r : res (ParseResult * Z)) :
  let p := PyStr.lstrip "/" (prefix_path_of d) in
  p ≠ "" →
  training_data aws (d :: rest) input tags st = (r, st') →
  cache st' = cache st
  ∧ (∃ calls, trace st' = trace st ++ calls
              ∧ Forall (λ c, concerns (netloc input) tags (training_key p) (d :: rest) c
                             ∨ c = BucketSize (training_output input p)) calls)
  ∧ (∀ output size, r = Ok (output, size) → output = training_output input p).
Proof.
  intros p Hp Hrun.
  assert (Hloop : training_loop aws (d :: rest) input tags None
                  = training_loop aws (d :: rest) input tags (Some p)).
  { cbn [training_loop falsy]. by rewrite (bool_decide_eq_false_2 (p = "")). }
  destruct (training_loop_keeps (d :: rest) (d :: rest) input tags p Hp) as [Hc Hr];
    [done|].
  unfold training_data in Hrun. rewrite Hloop in Hrun.
  rewrite bind_run in Hrun. unfold print at 1 in Hrun.
  rewrite bind_run in Hrun.
  match type of Hrun with
  | context [training_loop _ _ _ _ _ ?s] =>
      destruct (training_loop aws (d :: rest) input tags (Some p) s)
        as [[o|e] st1] eqn:Hl
  end.
  - apply Hr in Hl as Ho. subst o. apply Hc in Hl as (Hcache & calls & Htrace & Hcalls).
    change (PyStr.str_option (Some p)) with p in Hrun.
    cbn [world cache log stdout trace] in *.
    rewrite bind_run, invoke_run in Hrun. fold (training_output input p) in Hrun.
    destruct (bucket_size aws (training_output input p) (world st1)) as [[n|e] w2];
      cbn [fst snd] in Hrun; unfold mret, M_ret in Hrun; injection Hrun as <- <-;
      cbn [cache trace].
    + split_and!; [done| |by intros ? ? [= <- _]].
      exists (calls ++ [BucketSize (training_output input p)]).
      rewrite Htrace, app_assoc. split; [done|]. apply Forall_app. split.
      * eapply Forall_impl; [exact Hcalls|]. intros c. by left.
      * constructor; [by right|constructor].
    + split_and!; [done| |done].
      exists (calls ++ [BucketSize (training_output input p)]).
      rewrite Htrace, app_assoc. split; [done|]. apply Forall_app. split.
      * eapply Forall_impl; [exact Hcalls|]. intros c. by left.
      * constructor; [by right|constructor].
  - apply Hc in Hl as (Hcache & calls & Htrace & Hcalls).
    cbn [world cache log stdout trace] in *. injection Hrun as <- <-.
    split_and!; [done| |done]. exists calls. split; [done|].
    eapply Forall_impl; [exact Hcalls|]. intros c. by left.
Qed.

End MoreTraining.

Lemma training_data_one_prefix_witness :
  (training_data Sim.aws [Demo.clip2; Demo.clip1] Demo.bucket_in Demo.tags
     (init_state Demo.world)).1
  = Ok ({| netloc := "bucket"; path := "/M3/dive2/training/" |}, 3002).
Proof.
  destruct (training_data_one_prefix Sim.aws Demo.clip2 [Demo.clip1] Demo.bucket_in Demo.tags
              (init_state Demo.world)
              (training_data Sim.aws [Demo.clip2; Demo.clip1] Demo.bucket_in Demo.tags
                 (init_state Demo.world)).2
              (training_data Sim.aws [Demo.clip2; Demo.clip1] Demo.bucket_in Demo.tags
                 (init_state Demo.world)).1) as (_ & _ & Hout).
  - by vm_compute.
  - by destruct (training_data _ _ _ _ _).
  - specialize (Hout (training_output Demo.bucket_in "M3/dive2") 3002).
    reflexivity.
Defined.

(** ** More on the container arguments *)

Section MoreArguments.
Context {W F float : Type} (aws : AWS W F).
Context (repr_float : float → string).
Context (code_path : Path).

Lemma returns_bind_with {A B} (m : M W A) (f : A → M W B) (R : A → Prop) (Q : B → Prop) :
  returns m R → (∀ a, R a → returns (f a) Q) → returns (m ≫= f) Q.
Proof.
  intros Hm Hf st b st' H. rewrite bind_run in H.
  destruct (m st) as [[a|e] st1] eqn:Hrun; [|done].
  exact (Hf a (Hm _ _ _ Hrun) _ _ _ H).
Qed.

Lemma returns_config_call (self : Config) (section option : string) :
  returns (config_call (W:=W) self section option)
    (λ v, parser self !! (section, option) = Some v).
Proof.
  intros st v st' H. unfold config_call in H.
  destruct (parser self !! (section, option)); [|done]. by injection H as -> _.
Qed.

(** X13: in the arguments [script_processor_run] hands to the
    container, the first five are the fixed ones, [--reid-weights] is
    set only for strongsort with a re-identification model given, and
    then no track configuration of the configuration file is added;
    in every other case the last [--config-s3] is the one of the
    configuration file for the tracker, also when the caller passed a
    [config_s3] of their own; [--save-vid] is there exactly when
    asked for. *)
Theorem script_processor_arguments (input_s3 model_s3 : ParseResult) (model_size : Z)
    (reid_model_url : option string) (volume_size_gb : Z) (instance_type : string)
    (config_s3 : option string) (save_vid : bool) (conf_thres iou_thres : float)
    (tracker : string) (custom_config : Config) (tags : list Tag) (st st' : State W)
    (p : Prepared) :
  script_processor_prepare aws repr_float input_s3 model_s3 model_size reid_model_url
    volume_size_gb instance_type config_s3 save_vid conf_thres iou_thres tracker
    custom_config tags st = (Ok p, st') →
  let with_reid := truthy reid_model_url && bool_decide (tracker = "strongsort") in
  take 5 (p_arguments p)
  = [ "dettrack"; "--conf-thres=" +:+ repr_float conf_thres;
      "--iou-thres=" +:+ repr_float iou_thres; "--model-size=" +:+ pretty model_size;
      "--model-s3=" +:+ s3_uri model_s3 ]
  ∧ option_values "--reid-weights=" (p_arguments p)
    = (if with_reid then ["--reid-weights=" +:+ PyStr.str_option reid_model_url] else [])
  ∧ (if with_reid
     then option_values "--config-s3=" (p_arguments p)
          = (if truthy config_s3 then ["--config-s3=" +:+ PyStr.str_option config_s3] else [])
     else ∃ c, parser custom_config !! ("aws", tracker +:+ "_track_config_s3") = Some c
               ∧ last (option_values "--config-s3=" (p_arguments p))
                 = Some ("--config-s3=" +:+ c))
  ∧ (save_vid = true ↔ "--save-vid" ∈ p_arguments p).
Proof.
  intros Hrun with_reid. revert Hrun.
  set (base := [ "dettrack"; "--conf-thres=" +:+ repr_float conf_thres;
                 "--iou-thres=" +:+ repr_float iou_thres;
                 "--model-size=" +:+ pretty model_size;
                 "--model-s3=" +:+ s3_uri model_s3 ]).
  set (given := if truthy config_s3
                then ["--config-s3=" +:+ PyStr.str_option config_s3] else []).
  set (Q := λ p : Prepared,
         take 5 (p_arguments p) = base
         ∧ option_values "--reid-weights=" (p_arguments p)
           = (if with_reid then ["--reid-weights=" +:+ PyStr.str_option reid_model_url]
              else [])
         ∧ (if with_reid
            then option_values "--config-s3=" (p_arguments p) = given
            else ∃ c, parser custom_config !! ("aws", tracker +:+ "_track_config_s3") = Some c
                      ∧ last (option_values "--config-s3=" (p_arguments p))
                        = Some ("--config-s3=" +:+ c))
         ∧ (save_vid = true ↔ "--save-vid" ∈ p_arguments p)).
  intros Hrun. change (Q p). revert st p st' Hrun.
  change (returns (script_processor_prepare aws repr_float input_s3 model_s3 model_size
                     reid_model_url volume_size_gb instance_type config_s3 save_vid
                     conf_thres iou_thres tracker custom_config tags) Q).
  unfold script_processor_prepare.
  apply returns_bind; intros user_name.
  apply returns_bind_with with (R := λ _, tracker = "deepsort" ∨ tracker = "strongsort").
  { intros st [] st' H. destruct (bool_decide (tracker ∈ _)) eqn:Ht; [|by rewrite bind_run in H].
    apply bool_decide_eq_true_1 in Ht.
    repeat (apply elem_of_cons in Ht as [Ht|Ht]; [by auto|]). by apply elem_of_nil in Ht. }
  intros _ Htracker. fold base given.
  apply returns_bind_with with
    (R := λ arguments, ∃ tail,
            arguments = base ++ given ++ tail
            ∧ if with_reid then tail = ["--reid-weights=" +:+ PyStr.str_option reid_model_url]
              else ∃ c, parser custom_config !! ("aws", tracker +:+ "_track_config_s3") = Some c
                        ∧ tail = ["--config-s3=" +:+ c]).
  { assert (Hgiven : (if truthy config_s3
                      then base ++ ["--config-s3=" +:+ PyStr.str_option config_s3]
                      else base) = base ++ given).
    { unfold given. destruct (truthy config_s3); [done|by rewrite app_nil_r]. }
    rewrite Hgiven. subst with_reid.
    destruct Htracker as [-> | ->];
      rewrite ?(bool_decide_eq_true_2 (_ = _)) by done;
      rewrite ?(bool_decide_eq_false_2 ("deepsort" = "strongsort")) by done;
      rewrite ?(bool_decide_eq_false_2 ("strongsort" = "deepsort")) by done;
      rewrite ?andb_false_r, ?andb_true_r.
    - apply returns_bind_with with
        (R := λ arguments, ∃ c, parser custom_config !! ("aws", "deepsort_track_config_s3")
                                = Some c
                                ∧ arguments = (base ++ given) ++ ["--config-s3=" +:+ c]).
      + eapply returns_bind_with; [apply returns_config_call|].
        intros c Hc. apply returns_ret. by exists c.
      + intros arguments (c & Hc & ->). apply returns_ret.
        exists ["--config-s3=" +:+ c]. split; [by rewrite <- app_assoc|]. by exists c.
    - destruct (truthy reid_model_url).
      + apply returns_ret. exists ["--reid-weights=" +:+ PyStr.str_option reid_model_url].
        split; [by rewrite <- app_assoc|done].
      + apply returns_bind_with with (R := λ arguments, arguments = base ++ given);
          [by apply returns_ret|intros ? ->].
        eapply returns_bind_with; [apply returns_config_call|].
        intros c Hc. apply returns_ret.
        exists ["--config-s3=" +:+ c]. split; [by rewrite <- app_assoc|]. by exists c. }
  intros arguments (tail & Hargs & Htail).
  repeat (apply returns_bind; intros ?). apply returns_ret.
  unfold Q. cbn [p_arguments]. rewrite Hargs. clear Hargs Q.
  assert (Hnot : ∀ l : list string,
             Forall (λ a, PyStr.startswith "--s" a = false) l → "--save-vid" ∉ l).
  { intros l Hl Hin. eapply Forall_forall in Hl; [|exact Hin]. done. }
  clearbody with_reid.
  destruct with_reid; [subst tail|destruct Htail as (c & Hc & ->)];
    subst given base; destruct (truthy config_s3); destruct save_vid; cbn [app];
    (split_and!;
     [ reflexivity
     | reflexivity
     | first [reflexivity | exists c; split; [exact Hc|reflexivity]]
     | split; [intros Hs|intros Hin];
       [ try done; repeat (apply elem_of_cons; first [left; reflexivity|right])
       | try done; exfalso; revert Hin; apply Hnot; by repeat constructor ] ]).
Qed.

End MoreArguments.

Lemma script_processor_arguments_witness :
  ∃ c,
    last (option_values "--config-s3="
            [ "dettrack"; "--conf-thres=0.01"; "--iou-thres=0.1"; "--model-size=640";
              "--model-s3=s3://902005-public/models/yolov5x.tar.gz";
              "--config-s3=s3://mine/track.yaml";
              "--config-s3=s3://902005-public/models/deep_sort_benthic.yaml" ])
    = Some ("--config-s3=" +:+ c)
    ∧ parser Demo.config !! ("aws", "deepsort_track_config_s3") = Some c.
Proof.
  destruct (script_processor_arguments Sim.aws Demo.repr_float Demo.bucket_in
              {| netloc := "902005-public"; path := "/models/yolov5x.tar.gz" |}
              640 None 10 "ml.g4dn.xlarge" (Some "s3://mine/track.yaml") false "0.01" "0.1"
              "deepsort" Demo.config Demo.tags (init_state Demo.stocked)
              (script_processor_prepare Sim.aws Demo.repr_float Demo.bucket_in
                 {| netloc := "902005-public"; path := "/models/yolov5x.tar.gz" |}
                 640 None 10 "ml.g4dn.xlarge" (Some "s3://mine/track.yaml") false "0.01" "0.1"
                 "deepsort" Demo.config Demo.tags (init_state Demo.stocked)).2
              {| p_arguments :=
                   [ "dettrack"; "--conf-thres=0.01"; "--iou-thres=0.1"; "--model-size=640";
                     "--model-s3=s3://902005-public/models/yolov5x.tar.gz";
                     "--config-s3=s3://mine/track.yaml";
                     "--config-s3=s3://902005-public/models/deep_sort_benthic.yaml" ];
                 p_script_processor := p_script_processor Demo.prepared;
                 p_base_job_name := p_base_job_name Demo.prepared;
                 p_processor := p_processor Demo.prepared;
                 p_videos := p_videos Demo.prepared |})
    as (_ & _ & (c & Hc & Hlast) & _).
  - vm_compute. reflexivity.
  - exists c. split; [exact Hlast|exact Hc].
Defined.

(** ** The search for videos *)

Section MoreVideos.
Context {W : Type}.
Context (lower : string → string).
Context (is_dir : Path → W → bool) (glob : Path → W → list Path).

Lemma search_spec (excludes : list string) (x : Path) :
  search lower excludes x = true
  ↔ lower (suffix x) ∈ vid_formats
    ∧ PyStr.contains "._" (name x) = false
    ∧ ∀ e, e ∈ excludes → PyStr.contains e (name x) = false.
Proof.
  unfold search. destruct excludes as [|e0 excludes].
  - rewrite bool_decide_eq_false_2 by (by intros H; apply H).
    rewrite andb_true_iff, bool_decide_eq_true, negb_true_iff.
    split; [intros [? ?]; split_and!; [done|done|]|intros (? & ? & _); by split].
    intros e He. by apply elem_of_nil in He.
  - rewrite bool_decide_eq_true_2 by done. cbv zeta.
    rewrite !andb_true_iff, !bool_decide_eq_true, negb_true_iff.
    split.
    + intros [[Hf Hs] Hn]. split_and!; [done|done|].
      intros e He. destruct (PyStr.contains e (name x)) eqn:Hc; [|done].
      exfalso. apply Hf. apply list_elem_of_fmap. by exists e.
    + intros (Hs & Hn & He). split_and!; [|done|done].
      intros Hin. apply list_elem_of_fmap in Hin as (e & Hc & Hin).
      apply He in Hin. congruence.
Qed.

(** X14: [check_videos] reads the file system and writes the log, and
    nothing else; the list it returns is never empty and holds, in the
    order of the listing, exactly the candidates (the input path itself,
    or the entries below it when it is a directory) whose suffix in
    lower case is a video suffix and whose name holds neither ["._"] nor
    any of the excluded texts.  Only the name of a file is compared
    with the excluded texts, never the directories above it. *)
Theorem check_videos_selects (input_path : Path) (exclude : list string) (st st' : State W)
    (videos : list Path) :
  check_videos lower is_dir glob input_path exclude st = (Ok videos, st') →
  videos ≠ []
  ∧ world st' = world st ∧ cache st' = cache st ∧ trace st' = trace st
  ∧ videos = List.filter (search lower exclude)
               (candidates is_dir glob input_path (world st))
  ∧ ∀ x, x ∈ videos
         ↔ x ∈ candidates is_dir glob input_path (world st)
           ∧ lower (suffix x) ∈ vid_formats
           ∧ PyStr.contains "._" (name x) = false
           ∧ ∀ e, e ∈ exclude → PyStr.contains e (name x) = false.
Proof.
  unfold check_videos, candidates. intros Hrun.
  set (found := if is_dir input_path (world st)
                then List.filter (search lower exclude) (glob input_path (world st))
                else if search lower exclude input_path then [input_path] else []).
  assert (Hfound : found = List.filter (search lower exclude)
                             (if is_dir input_path (world st)
                              then glob input_path (world st) else [input_path])).
  { unfold found. destruct (is_dir input_path (world st)); [done|].
    cbn [List.filter]. by destruct (search lower exclude input_path). }
  assert (Hok : videos = found ∧ found ≠ [] ∧ world st' = world st ∧ cache st' = cache st
                ∧ trace st' = trace st).
  { revert Hrun. unfold mbind, M_bind, mret, M_ret, logger, raise.
    destruct (0 <? length exclude)%nat;
      cbn [fst snd world cache log stdout trace]; fold found;
      (destruct found as [|v l]; cbn [length bool_decide decide_rel];
       [rewrite bool_decide_eq_true_2 by done; cbn; done|]);
      rewrite bool_decide_eq_false_2 by done;
      cbn; intros [= <- <-]; by split_and!. }
  destruct Hok as (-> & Hne & Hw & Hc & Ht).
  split_and!; try done.
  intros x. rewrite Hfound. split.
  - intros Hx. apply list_elem_of_In, filter_In in Hx as [Hx Hs].
    apply search_spec in Hs. split; [by apply list_elem_of_In|done].
  - intros (Hx & Hs). apply list_elem_of_In, filter_In.
    split; [by apply list_elem_of_In|by apply search_spec].
Qed.

(** X15: [check_videos] raises nothing but the [AssertionError] of its
    last line, and raises it exactly when no candidate passes the
    search, after logging that no videos were found; an empty text among
    the exclusions is contained in every name, so then it always
    raises. *)
Theorem check_videos_none (input_path : Path) (exclude : list string) (st : State W) :
  let passing := List.filter (search lower exclude)
                   (candidates is_dir glob input_path (world st)) in
  (passing = [] →
   ∃ st', check_videos lower is_dir glob input_path exclude st
          = (Raise (OtherError "AssertionError" "No videos to process"), st')
          ∧ last (log st') = Some (ERROR, "No videos found in " +:+ as_posix input_path))
  ∧ (passing ≠ [] →
     ∃ st', check_videos lower is_dir glob input_path exclude st = (Ok passing, st'))
  ∧ ("" ∈ exclude → passing = []).
Proof.
  intros passing.
  assert (Hfound : (if is_dir input_path (world st)
                    then List.filter (search lower exclude) (glob input_path (world st))
                    else if search lower exclude input_path then [input_path] else [])
                   = passing).
  { unfold passing, candidates. destruct (is_dir input_path (world st)); [done|].
    cbn [List.filter]. by destruct (search lower exclude input_path). }
  split_and!.
  - intros Hnone. unfold check_videos, mbind, M_bind, mret, M_ret, logger, raise.
    destruct (0 <? length exclude)%nat;
      cbn [fst snd world cache log stdout trace]; rewrite Hfound, Hnone; cbn;
      (eexists; split; [reflexivity|]); cbn; by rewrite last_snoc.
  - intros Hsome. unfold check_videos, mbind, M_bind, mret, M_ret, logger, raise.
    destruct (0 <? length exclude)%nat;
      cbn [fst snd world cache log stdout trace]; rewrite Hfound;
      (destruct passing as [|v l]; [done|]);
      cbn [length]; rewrite bool_decide_eq_false_2 by done; cbn; by eexists.
  - intros Hempty. unfold passing. clear Hfound passing.
    induction (candidates is_dir glob input_path (world st)) as [|x l IH]; [done|].
    cbn [List.filter]. destruct (search lower exclude x) eqn:Hs; [|exact IH].
    apply search_spec in Hs as (_ & _ & He). apply He in Hempty.
    by destruct (name x).
Qed.

End MoreVideos.

Lemma check_videos_selects_witness :
  (check_videos Disk.lower Disk.is_dir Disk.glob Disk.dive ["raw"] (init_state Demo.world)).1
  = Ok [ {| anchor := "/"; parts := ["data"; "dive_raw"; "clip1.MP4"] |} ].
Proof.
  destruct (check_videos_selects Disk.lower Disk.is_dir Disk.glob Disk.dive ["raw"]
              (init_state Demo.world)
              (check_videos Disk.lower Disk.is_dir Disk.glob Disk.dive ["raw"]
                 (init_state Demo.world)).2
              [ {| anchor := "/"; parts := ["data"; "dive_raw"; "clip1.MP4"] |} ])
    as (_ & _ & _ & _ & Heq & _).
  - vm_compute. reflexivity.
  - vm_compute. reflexivity.
Defined.

Lemma check_videos_none_witness :
  ∃ st',
    check_videos Disk.lower Disk.is_dir Disk.glob Disk.dive ["clip"; ""] (init_state Demo.world)
    = (Raise (OtherError "AssertionError" "No videos to process"), st').
Proof.
  destruct (check_videos_none Disk.lower Disk.is_dir Disk.glob Disk.dive ["clip"; ""]
              (init_state Demo.world)) as (Hnone & _ & Hempty).
  destruct Hnone as (st' & Hrun & _).
  - apply Hempty. apply elem_of_cons. right. apply elem_of_cons. by left.
  - by exists st'.
Defined.

(** ** The [ecsprocess] command *)

Section MoreBatch.
Context {W F float : Type} (aws : AWS W F).
Context (json_dumps : list (string * jvalue float) → string).
Context (get_prefix : Path → string).
Context (lower : string → string).
Context (is_dir : Path → W → bool) (glob : Path → W → list Path).
Context (Path_of : string → Path) (urlparse : string → ParseResult).
Context (media_in_job : string → string → string → W → res nat * W).

Local Abbreviation command :=
  (batchprocess_command aws json_dumps get_prefix lower is_dir glob Path_of urlparse
     media_in_job).
Local Abbreviation loop :=
  (submit_loop aws json_dumps get_prefix urlparse media_in_job).

Section OnlyMore.
Context (P : call → Prop).

Lemma only_unrecorded {A} (op : W → res A * W) : calls_only P (unrecorded op).
Proof.
  intros st r st' H. unfold unrecorded in H. destruct (op (world st)) as [r0 w'].
  injection H as <- <-. split; [done|]. exists []. cbn. by rewrite app_nil_r.
Qed.

Lemma only_subscript (resources : option (gmap string string)) (k : string) :
  calls_only P (subscript (W:=W) resources k).
Proof. destruct resources; [apply only_dict_get|apply only_raise]. Qed.

Lemma only_check_videos (input_path : Path) (exclude : list string) :
  calls_only P (check_videos lower is_dir glob input_path exclude).
Proof.
  unfold check_videos.
  apply only_bind; [destruct (0 <? _)%nat; apply only_logger|intros _].
  apply only_bind.
  { intros st r st' [= <- <-]. split; [done|]. exists []. by rewrite app_nil_r. }
  intros videos. apply only_bind; [apply only_logger|intros _].
  apply only_bind; [destruct (bool_decide _); [apply only_logger|apply only_ret]|intros _].
  apply only_bind; [destruct (0 <? _)%nat; [apply only_ret|apply only_raise]|intros _].
  apply only_ret.
Qed.

Lemma only_get_tags (self : Config) (description : string) :
  P GetCallerIdentity → P UtcNow → calls_only P (get_tags aws self description).
Proof.
  intros Hid Hnow. unfold get_tags.
  repeat first
    [ apply only_ret
    | apply only_config_call
    | by apply only_get_username
    | by apply only_invoke
    | apply only_check_tags
    | apply only_bind; [|intros ?] ].
Qed.

Lemma only_scan_stack (summaries : list StackResourceSummary) (m : gmap string string) :
  (∀ arn, P (DescribeTaskDefinition arn)) → calls_only P (scan_stack aws summaries m).
Proof.
  intros Hd. revert m. induction summaries as [|r l IH]; intros m; [apply only_ret|].
  cbn [scan_stack]. destruct (PyStr.contains _ (ResourceType r)); [|apply IH].
  apply only_bind; [by apply only_invoke|]. intros [|c cs]; [apply only_raise|apply only_ret].
Qed.

Lemma only_get_resources (stack_name : string) :
  P (ListStackResources stack_name) → (∀ arn, P (DescribeTaskDefinition arn)) →
  calls_only P (get_resources aws stack_name).
Proof.
  intros Hl Hd. apply only_try_except.
  - apply only_bind; [by apply only_invoke|intros l].
    apply only_bind; [by apply only_scan_stack|intros m]. apply only_ret.
  - intros e. unfold get_resources_except. destruct e; try apply only_raise.
    apply only_bind; [apply only_logger|intros _].
    destruct (PyStr.contains _ _).
    + apply only_bind; [apply only_logger|intros _]. apply only_raise.
    + destruct (PyStr.contains _ _); [|apply only_ret].
      apply only_bind; [apply only_logger|intros _]. apply only_raise.
Qed.

End OnlyMore.

(** X16: with [--dry-run] the command only asks: its calls are the
    identity lookup, the clock read, the listing of the stack of the
    cluster and the description of a task definition.  It probes,
    uploads and tags no object, looks up no queue, sends no message and
    writes nothing to the job cache, whatever the other options are. *)
Theorem batchprocess_dry_run (custom_config : Config) (check upload clean : bool)
    (cluster job input : string) (exclude : list string) (conf_thres iou_thres : float)
    (st st' : State W) (r : res unit) :
  command custom_config check upload clean cluster job input exclude conf_thres iou_thres
    true st = (r, st') →
  cache st' = cache st
  ∧ ∃ calls, trace st' = trace st ++ calls ∧ Forall (asks_only cluster) calls.
Proof.
  revert st r st'.
  change (calls_only (asks_only cluster)
            (command custom_config check upload clean cluster job input exclude conf_thres
               iou_thres true)).
  assert (Hid : asks_only cluster GetCallerIdentity) by (by left).
  assert (Hnow : asks_only cluster UtcNow) by (right; by left).
  assert (Hlist : asks_only cluster (ListStackResources cluster)) by (do 2 right; by left).
  assert (Hdesc : ∀ arn, asks_only cluster (DescribeTaskDefinition arn))
    by (intros arn; do 3 right; by exists arn).
  unfold batchprocess_command.
  apply only_bind.
  { destruct check; [|apply only_ret].
    apply only_bind; [apply only_logger|intros _].
    apply only_bind; [apply only_config_call|intros ?]. apply only_ret. }
  intros database.
  apply only_bind; [by apply only_get_resources|intros resources].
  apply only_bind; [by apply only_get_username|intros user_name].
  apply only_bind; [apply only_check_videos|intros videos].
  apply only_bind; [by apply only_get_tags|intros tags].
  apply only_bind.
  2:{ intros total. apply only_bind; [apply only_subscript|intros ?]. apply only_logger. }
  generalize 0%nat. induction videos as [|v videos IH]; intros total; [apply only_ret|].
  cbn [submit_loop].
  apply only_bind.
  { destruct database as [gql|]; [|apply only_ret].
    apply only_bind; [apply only_logger|intros _].
    apply only_bind; [apply only_subscript|intros processor].
    apply only_bind; [apply only_unrecorded|intros n].
    destruct (0 <? n)%nat; [|apply only_ret].
    apply only_bind; [apply only_logger|intros _]. apply only_ret. }
  intros loaded. apply only_bind.
  { destruct (upload && negb loaded); [|apply only_ret].
    apply only_bind; [apply only_subscript|intros ?]. apply only_logger. }
  intros _. apply only_bind; [|intros ?; apply IH].
  destruct (negb loaded).
  - apply only_bind; [|intros _; apply only_ret].
    apply only_bind; [apply only_subscript|intros ?]. apply only_logger.
  - apply only_bind; [apply only_logger|intros _]. apply only_ret.
Qed.

Lemma check_videos_some (input_path : Path) (exclude : list string) :
  returns (check_videos lower is_dir glob input_path exclude) (λ videos, videos ≠ []).
Proof.
  intros st videos st'. unfold check_videos, mbind, M_bind, mret, M_ret, logger, raise.
  destruct (0 <? length exclude)%nat; cbn [fst snd world cache log stdout trace];
    match goal with
    | |- context [length ?l] => destruct l as [|v l']
    end; cbn; try done; by intros [= <- _].
Qed.

(** Without a resource map the first turn of the loop raises. *)
Lemma submit_loop_none (v : Path) (rest : list Path) (database : option string)
    (job user_name : string) (tags : list Tag) (upload clean dry_run : bool)
    (conf_thres iou_thres : float) (total : nat) :
  returns (loop (v :: rest) database None job user_name tags upload clean dry_run
             conf_thres iou_thres total) (λ _, False).
Proof.
  intros st n st' H. cbn [submit_loop] in H.
  unfold mbind, M_bind, mret, M_ret, subscript, raise, logger in H.
  destruct database, upload, dry_run; cbn in H; done.
Qed.

(** X17: the command returns only when [get_resources] gave a map
    that holds [PROCESSOR].  It does not test the result: with [None]
    (the listing failed with a client error other than the two
    credential errors) it still looks up the identity, searches for
    videos and builds the tags, and raises in the first turn of its
    loop; with a map without [PROCESSOR] it raises at the latest in its
    closing message, after the loop. *)
Theorem batchprocess_needs_resources (custom_config : Config) (check upload clean : bool)
    (cluster job input : string) (exclude : list string) (conf_thres iou_thres : float)
    (dry_run : bool) (st st' : State W) :
  command custom_config check upload clean cluster job input exclude conf_thres iou_thres
    dry_run st = (Ok (), st') →
  ∃ resources st1,
    get_resources aws cluster (if check then with_log [(WARNING, check_warning)] st else st)
    = (Ok (Some resources), st1)
    ∧ is_Some (resources !! "PROCESSOR").
Proof.
  intros Hrun.
  unfold batchprocess_command in Hrun. rewrite bind_run in Hrun.
  assert (Hrest : ∃ database,
    (resources ← get_resources aws cluster;
     user_name ← get_username aws;
     videos ← check_videos lower is_dir glob (Path_of input) exclude;
     tags ← get_tags aws custom_config
              ("Video uploaded from " +:+ input +:+ " by user " +:+ user_name +:+ " ");
     total_submitted ← loop videos database resources job user_name tags upload clean
                         dry_run conf_thres iou_thres 0%nat;
     processor ← subscript resources "PROCESSOR";
     logger INFO ("==== Submitted " +:+ pretty total_submitted +:+ " videos to "
                  +:+ processor +:+ " for processing ====="))
      (if check then with_log [(WARNING, check_warning)] st else st) = (Ok (), st')).
  { destruct check.
    - rewrite bind_run in Hrun. unfold logger at 1 in Hrun.
      rewrite bind_run in Hrun. unfold config_call at 1 in Hrun.
      destruct (parser custom_config !! ("database", "gql")) as [gql|]; [|done].
      by exists (Some gql).
    - by exists None. }
  clear Hrun. destruct Hrest as (database & Hrun).
  rewrite bind_run in Hrun.
  destruct (get_resources aws cluster _) as [[resources|e] st1]; [|done].
  rewrite bind_run in Hrun.
  destruct (get_username aws st1) as [[user_name|e] st2]; [|done].
  rewrite bind_run in Hrun.
  destruct (check_videos lower is_dir glob (Path_of input) exclude st2)
    as [[videos|e] st3] eqn:Hvideos; [|done].
  apply check_videos_some in Hvideos. destruct videos as [|v rest]; [done|].
  rewrite bind_run in Hrun.
  destruct (get_tags aws custom_config _ st3) as [[tags|e] st4]; [|done].
  rewrite bind_run in Hrun.
  destruct (loop (v :: rest) database resources job user_name tags upload clean dry_run
              conf_thres iou_thres 0%nat st4) as [[n|e] st5] eqn:Hloop; [|done].
  destruct resources as [m|]; [|by apply submit_loop_none in Hloop].
  exists m, st1. split; [done|].
  rewrite bind_run in Hrun. unfold subscript, dict_get in Hrun.
  by destruct (m !! "PROCESSOR").
Qed.

Section OnlyWith.
Context (P : call → Prop).

Lemma only_bind_with {A B} (m : M W A) (f : A → M W B) (R : A → Prop) :
  calls_only P m → returns m R → (∀ a, R a → calls_only P (f a)) →
  calls_only P (m ≫= f).
Proof.
  intros Hm HR Hf st r st' H. rewrite bind_run in H.
  destruct (m st) as [[a|e] st1] eqn:Hrun.
  - destruct (Hm _ _ _ Hrun) as (Hc1 & l1 & Ht1 & Hl1).
    destruct (Hf a (HR _ _ _ Hrun) _ _ _ H) as (Hc2 & l2 & Ht2 & Hl2).
    split; [congruence|]. exists (l1 ++ l2). rewrite Ht2, Ht1, app_assoc.
    split; [done|]. by apply Forall_app.
  - injection H as <- <-. exact (Hm _ _ _ Hrun).
Qed.

End OnlyWith.

(** X18: under [--check], when the database holds a media for every
    video asked about, the command uploads nothing and submits nothing,
    dry run or not: its calls are those that only ask, and the job
    cache is not written. *)
Theorem batchprocess_loaded_skipped (custom_config : Config) (upload clean : bool)
    (cluster job input : string) (exclude : list string) (conf_thres iou_thres : float)
    (dry_run : bool) (st st' : State W) (r : res unit) :
  (∀ gql processing_job_name media_name w,
     ∃ n w', media_in_job gql processing_job_name media_name w = (Ok (S n), w')) →
  command custom_config true upload clean cluster job input exclude conf_thres iou_thres
    dry_run st = (r, st') →
  cache st' = cache st
  ∧ ∃ calls, trace st' = trace st ++ calls ∧ Forall (asks_only cluster) calls.
Proof.
  intros Hloaded. revert st r st'.
  change (calls_only (asks_only cluster)
            (command custom_config true upload clean cluster job input exclude conf_thres
               iou_thres dry_run)).
  assert (Hid : asks_only cluster GetCallerIdentity) by (by left).
  assert (Hnow : asks_only cluster UtcNow) by (right; by left).
  assert (Hlist : asks_only cluster (ListStackResources cluster)) by (do 2 right; by left).
  assert (Hdesc : ∀ arn, asks_only cluster (DescribeTaskDefinition arn))
    by (intros arn; do 3 right; by exists arn).
  unfold batchprocess_command.
  apply only_bind_with with (R := λ database, is_Some database).
  { apply only_bind; [apply only_logger|intros _].
    apply only_bind; [apply only_config_call|intros ?]. apply only_ret. }
  { apply returns_bind. intros _. apply returns_bind. intros gql. by apply returns_ret. }
  intros database [gql ->].
  apply only_bind; [by apply only_get_resources|intros resources].
  apply only_bind; [by apply only_get_username|intros user_name].
  apply only_bind; [apply only_check_videos|intros videos].
  apply only_bind; [by apply only_get_tags|intros tags].
  apply only_bind.
  2:{ intros total. apply only_bind; [apply only_subscript|intros ?]. apply only_logger. }
  generalize 0%nat. induction videos as [|v videos IH]; intros total; [apply only_ret|].
  cbn [submit_loop].
  apply only_bind_with with (R := λ loaded, loaded = true).
  { apply only_bind; [apply only_logger|intros _].
    apply only_bind; [apply only_subscript|intros processor].
    apply only_bind; [apply only_unrecorded|intros n].
    destruct (0 <? n)%nat; [|apply only_ret].
    apply only_bind; [apply only_logger|intros _]. apply only_ret. }
  { apply returns_bind. intros _. apply returns_bind. intros processor.
    intros s loaded s' H. rewrite bind_run in H. unfold unrecorded in H.
    destruct (Hloaded gql (processor +:+ "-" +:+ job) (name v) (world s)) as (n & w' & Hq).
    rewrite Hq in H. cbn in H. by injection H as <- _. }
  intros loaded ->. rewrite andb_false_r. cbn [negb].
  apply only_bind; [apply only_ret|intros _].
  apply only_bind; [|intros ?; apply IH].
  apply only_bind; [apply only_logger|intros _]. apply only_ret.
Qed.

End MoreBatch.

Lemma batchprocess_dry_run_witness :
  ∃ calls,
    trace (Inputs.ecsprocess false true true "demo-cluster" Inputs.media_in_job).2
    = [] ++ calls
    ∧ Forall (asks_only "demo-cluster") calls.
Proof.
  destruct (batchprocess_dry_run Sim.aws Demo.json_dumps Demo.get_prefix Disk.lower
              Disk.is_dir Disk.glob Inputs.Path_of Inputs.urlparse Inputs.media_in_job
              Inputs.config false true true "demo-cluster" "DiveV1" "/data/dive_raw" []
              "0.01" "0.1" (init_state Demo.world)
              (Inputs.ecsprocess false true true "demo-cluster" Inputs.media_in_job).2
              (Inputs.ecsprocess false true true "demo-cluster" Inputs.media_in_job).1)
    as [_ Hcalls].
  - unfold Inputs.ecsprocess. by destruct (batchprocess_command _ _ _ _ _ _ _ _ _ _ _ _ _ _ _ _ _ _ _ _ _).
  - exact Hcalls.
Defined.

Lemma batchprocess_needs_resources_witness :
  ∃ resources st1,
    get_resources Sim.aws "demo-cluster" (init_state Demo.world) = (Ok (Some resources), st1)
    ∧ is_Some (resources !! "PROCESSOR").
Proof.
  apply (batchprocess_needs_resources Sim.aws Demo.json_dumps Demo.get_prefix Disk.lower
           Disk.is_dir Disk.glob Inputs.Path_of Inputs.urlparse Inputs.media_in_job
           Inputs.config false true true "demo-cluster" "DiveV1" "/data/dive_raw" []
           "0.01" "0.1" true (init_state Demo.world)
           (Inputs.ecsprocess false true true "demo-cluster" Inputs.media_in_job).2).
  vm_compute. reflexivity.
Defined.

Lemma batchprocess_loaded_skipped_witness :
  ∃ calls,
    trace (Inputs.ecsprocess true true false "demo-cluster" Inputs.media_loaded).2
    = [] ++ calls
    ∧ Forall (asks_only "demo-cluster") calls.
Proof.
  destruct (batchprocess_loaded_skipped Sim.aws Demo.json_dumps Demo.get_prefix Disk.lower
              Disk.is_dir Disk.glob Inputs.Path_of Inputs.urlparse Inputs.media_loaded
              Inputs.config true true "demo-cluster" "DiveV1" "/data/dive_raw" []
              "0.01" "0.1" false (init_state Demo.world)
              (Inputs.ecsprocess true true false "demo-cluster" Inputs.media_loaded).2
              (Inputs.ecsprocess true true false "demo-cluster" Inputs.media_loaded).1)
    as [_ Hcalls].
  - intros gql j m w. by exists 0%nat, w.
  - unfold Inputs.ecsprocess. by destruct (batchprocess_command _ _ _ _ _ _ _ _ _ _ _ _ _ _ _ _ _ _ _ _ _).
  - exact Hcalls.
Defined.
